(** * Hacker News data collection and analysis ([mane.py])

    A shallow embedding of the retrieval-and-aggregation pipeline of
    [mane.py] and the properties its specification states about it.

    - Part I is the model: Python values and exceptions, the remote API,
      the two item fetchers, the thread pool behind [executor.map], the
      story and comment builders, the CSV files and their reload as data
      frames, the analysis computations and the orchestrator.
    - Part II holds the lemmas and the theorems.

    Conventions.  A Python computation that may raise is a [result]; the
    functions keep the names they have in [mane.py].  Libraries the script
    calls ([requests], [csv], [pandas], [numpy], [nltk]) are modelled by the
    behaviour the script relies on; each such definition says so. *)

From Stdlib Require Import ZArith QArith String Ascii List Bool Lia.
From Stdlib Require Import DecimalString DecimalPos DecimalZ SpecFloat.
From stdpp Require Import base option list strings gmap.

Close Scope Q_scope.
Set Warnings "-register-all".
Local Open Scope string_scope.
Local Open Scope list_scope.
Local Open Scope nat_scope.

(* ################################################################# *)
(** * Part I: the model *)

(* ================================================================= *)
(** ** Exceptions and results *)

(** The exceptions the script can meet.  Nothing in [mane.py] catches an
    exception, so each of them ends the run. *)
Inductive exn :=
  | RequestException    (* requests.get: the endpoint cannot be reached *)
  | JSONDecodeError     (* response.json(): the body is not JSON *)
  | AttributeError      (* .get on a value that is not a dict *)
  | TypeError           (* len, in, [], iteration on an unfit value *)
  | KeyError            (* a missing key or column *)
  | FileNotFoundError   (* pd.read_csv on a missing file *)
  | EmptyDataError      (* pd.read_csv on a file without a header *)
  | ParserError         (* pd.read_csv on a row longer than the header *)
  | ValueError.         (* plt.pie on wedge sizes that make no pie *)

Inductive result (A : Type) :=
  | Ok (a : A)
  | Raise (e : exn).
Arguments Ok {A} a.
Arguments Raise {A} e.

#[global] Instance result_ret : MRet result := @Ok.
#[global] Instance result_bind : MBind result :=
  λ A B f m, match m with Ok a => f a | Raise e => Raise e end.

Definition returns {A} (m : result A) : Prop := ∃ a, m = Ok a.

(** Evaluation of [f] over a list from left to right; the first exception
    in list order is the one raised. *)
Fixpoint traverse {A B} (f : A → result B) (l : list A) : result (list B) :=
  match l with
  | [] => Ok []
  | a :: l' => b ← f a; bs ← traverse f l'; Ok (b :: bs)
  end.

(* ================================================================= *)
(** ** Python values *)

(** What [response.json()] can return.  JSON numbers are integers here: the
    item schema has no fractional field. *)
Inductive value :=
  | VNone
  | VBool (b : bool)
  | VInt (z : Z)
  | VStr (s : string)
  | VList (l : list value)
  | VDict (d : list (string * value)).

(** [if v:] *)
Definition truthy (v : value) : bool :=
  match v with
  | VNone => false
  | VBool b => b
  | VInt z => negb (z =? 0)%Z
  | VStr s => negb (String.eqb s "")
  | VList l => match l with [] => false | _ => true end
  | VDict d => match d with [] => false | _ => true end
  end.

Fixpoint dict_lookup (k : string) (d : list (string * value)) : option value :=
  match d with
  | [] => None
  | (k', v) :: d' => if String.eqb k' k then Some v else dict_lookup k d'
  end.

(** [v.get(k, dflt)]: only a dict has the method. *)
Definition py_get (v : value) (k : string) (dflt : value) : result value :=
  match v with
  | VDict d => Ok (default dflt (dict_lookup k d))
  | _ => Raise AttributeError
  end.

(** [len(v)]; a string is counted in the characters of its Rocq form. *)
Definition py_len (v : value) : result Z :=
  match v with
  | VStr s => Ok (Z.of_nat (String.length s))
  | VList l => Ok (Z.of_nat (length l))
  | VDict d => Ok (Z.of_nat (length d))
  | VNone | VBool _ | VInt _ => Raise TypeError
  end.

Fixpoint str_startswith (p s : string) : bool :=
  match p, s with
  | EmptyString, _ => true
  | String a p', String b s' => Ascii.eqb a b && str_startswith p' s'
  | String _ _, EmptyString => false
  end.

(** [p in s] on two strings. *)
Fixpoint str_contains (p s : string) : bool :=
  str_startswith p s ||
  match s with
  | EmptyString => false
  | String _ s' => str_contains p s'
  end.

Definition is_str (k : string) (v : value) : bool :=
  match v with VStr s => String.eqb s k | _ => false end.

(** [k in v] for a string [k]: a key test on a dict, a substring test on a
    string, a membership test on a list; other values are not containers. *)
Definition py_contains (k : string) (v : value) : result bool :=
  match v with
  | VDict d => Ok (bool_decide (is_Some (dict_lookup k d)))
  | VStr s => Ok (str_contains k s)
  | VList l => Ok (existsb (is_str k) l)
  | VNone | VBool _ | VInt _ => Raise TypeError
  end.

(** [v[k]] for a string [k]. *)
Definition py_getitem (v : value) (k : string) : result value :=
  match v with
  | VDict d => match dict_lookup k d with Some x => Ok x | None => Raise KeyError end
  | _ => Raise TypeError
  end.

Fixpoint chars (s : string) : list value :=
  match s with
  | EmptyString => []
  | String a s' => VStr (String a EmptyString) :: chars s'
  end.

(** [iter(v)]: the elements of a list, the characters of a string, the keys
    of a dict. *)
Definition py_iter (v : value) : result (list value) :=
  match v with
  | VList l => Ok l
  | VStr s => Ok (chars s)
  | VDict d => Ok (map (λ kv, VStr kv.1) d)
  | VNone | VBool _ | VInt _ => Raise TypeError
  end.

(** [l[:n]]: the first [n] elements; a negative [n] counts from the end. *)
Definition slice_to {A} (l : list A) (n : Z) : list A :=
  if (0 <=? n)%Z then take (Z.to_nat n) l
  else take (length l - Z.to_nat (- n)) l.

(* ================================================================= *)
(** ** The remote API *)

(** What one GET can come to: no response at all, or a response whose body
    [response.json()] decodes or rejects.  The decoder is the HTTP
    library's; a body is given here by what it decodes to. *)
Inductive body :=
  | Json (v : value)
  | Malformed.

Inductive reply :=
  | Response (b : body)
  | Unreachable.

(** A snapshot of the API: the item endpoint, by the identifier that is
    formatted into its URL, and the list of top stories. *)
Record api := {
  item : value → reply;
  topstories : reply;
}.

Definition requests_get (r : reply) : result body :=
  match r with
  | Response b => Ok b
  | Unreachable => Raise RequestException
  end.

Definition response_json (b : body) : result value :=
  match b with
  | Json v => Ok v
  | Malformed => Raise JSONDecodeError
  end.

(* ================================================================= *)
(** ** The thread pool behind [executor.map] *)

(** [list(executor.map(fn, args))] as a function: the results in the order
    of [args], or the exception of the first call, in that order, that
    raised.  [finished_consistent] and [run_finishes] in Part II show that
    every run of the pool below comes to this outcome. *)
Definition executor_map {A B} (fn : A → result B) (args : list A) : result (list B) :=
  traverse fn args.

Module ThreadPool.
Section Pool.
Context {A B : Type}.
Variable fn : A → result B.
Variable args : list A.
(** The number of worker threads. *)
Variable W : nat.

(** One call of [executor.map]: a future per argument, by index.  A
    submitted call waits in [queue], is taken by a free worker
    ([running]) and stores its result or exception in its future.  The
    caller reads the futures in the order of submission: [collected] is
    what [list(...)] has got so far, [raised] the exception it met. *)
Record pool := Pool {
  queue : list nat;
  running : list nat;
  futures : list (option (result B));
  collected : list B;
  raised : option exn;
}.

Definition submit : pool :=
  Pool (seq 0 (length args)) [] (replicate (length args) None) [] None.

Inductive step : pool → pool → Prop :=
  (** a free worker takes the oldest waiting call *)
  | step_start i q r fs c x :
      length r < W →
      step (Pool (i :: q) r fs c x) (Pool q (i :: r) fs c x)
  (** a worker, any of them, finishes its call *)
  | step_finish i a q r fs c x :
      i ∈ r →
      args !! i = Some a →
      step (Pool q r fs c x)
           (Pool q (filter (λ j, j ≠ i) r) (<[i := Some (fn a)]> fs) c x)
  (** the caller gets the next result, in input order *)
  | step_yield b q r fs c :
      fs !! length c = Some (Some (Ok b)) →
      step (Pool q r fs c None) (Pool q r fs (c ++ [b]) None)
  (** the next future holds an exception: it is raised in the caller and
      the calls still waiting are cancelled *)
  | step_raise e q r fs c :
      fs !! length c = Some (Some (Raise e)) →
      step (Pool q r fs c None) (Pool [] r fs c (Some e)).

Definition run : pool → pool → Prop := rtc step.

(** What the caller has once the [with] block is left: the list, when
    every result was collected; the exception, once the workers still
    running have finished. *)
Definition finished (s : pool) : option (result (list B)) :=
  match raised s with
  | Some e => match running s with [] => Some (Raise e) | _ => None end
  | None => if decide (length (collected s) = length args)
            then Some (Ok (collected s)) else None
  end.

(** What holds of the pool at every point of a run. *)
Record consistent (s : pool) : Prop := {
  futures_length : length (futures s) = length args;
  futures_sound : ∀ i r, futures s !! i = Some (Some r) →
                  ∃ a, args !! i = Some a ∧ r = fn a;
  collected_prefix : traverse fn (take (length (collected s)) args) = Ok (collected s);
  collected_bound : length (collected s) ≤ length args;
  raised_sound : ∀ e, raised s = Some e →
                 ∃ a, args !! length (collected s) = Some a ∧ fn a = Raise e;
  queue_bound : ∀ i, i ∈ queue s → i < length args;
  running_bound : ∀ i, i ∈ running s → i < length args;
  submitted : raised s = None → ∀ i, i < length args →
              i ∈ queue s ∨ i ∈ running s ∨ ∃ r, futures s !! i = Some (Some r);
}.
End Pool.
End ThreadPool.

(* ================================================================= *)
(** ** Fetching and aggregation *)

(** The dict built for a story (lines 61-71) and for a comment (lines
    111-116), with the keys in the order of the source. *)
Record story := Story {
  s_id : value;
  s_title : value;
  s_url : value;
  s_score : value;
  s_author : value;
  s_time : value;
  s_comments_count : value;
  s_type : value;
  s_descendants : value;
}.

Record comment := Comment {
  c_author : value;
  c_text : value;
  c_time : value;
  c_parent_story : value;
}.

Section Collection.
Variable hn : api.

Definition fetch_story_details (story_id : value) : result value :=
  response ← requests_get (item hn story_id);
  response_json response.

Definition fetch_comment_details (comment_id : value) : result value :=
  response ← requests_get (item hn comment_id);
  response_json response.

(** The dict literal of lines 61-71, its entries evaluated in order. *)
Definition story_record (story_details : value) : result story :=
  id ← py_get story_details "id" VNone;
  title ← py_get story_details "title" VNone;
  url ← py_get story_details "url" VNone;
  score ← py_get story_details "score" VNone;
  author ← py_get story_details "by" VNone;
  time ← py_get story_details "time" VNone;
  kids ← py_get story_details "kids" (VList []);
  comments_count ← py_len kids;
  type ← py_get story_details "type" VNone;
  descendants ← py_get story_details "descendants" (VInt 0);
  Ok (Story id title url score author time (VInt comments_count) type descendants).

(** The loop of lines 59-71 over the fetched details. *)
Fixpoint append_stories (story_details_list : list value) (stories_data : list story)
  : result (list story) :=
  match story_details_list with
  | [] => Ok stories_data
  | story_details :: rest =>
      if truthy story_details then
        r ← story_record story_details;
        append_stories rest (stories_data ++ [r])
      else append_stories rest stories_data
  end.

Definition Retrieving_data_about_articles (array : list value) (num_stories : Z)
  : result (list story) :=
  story_details_list ← executor_map fetch_story_details (slice_to array num_stories);
  append_stories story_details_list [].

(** The dict literal of lines 111-116. *)
Definition comment_record (story_id comment_details : value) : result comment :=
  author ← py_get comment_details "by" VNone;
  text ← py_get comment_details "text" VNone;
  time ← py_get comment_details "time" VNone;
  Ok (Comment author text time story_id).

(** The inner loop, lines 109-116. *)
Fixpoint append_comments (story_id : value) (comment_details_list : list value)
    (comments_data : list comment) : result (list comment) :=
  match comment_details_list with
  | [] => Ok comments_data
  | comment_details :: rest =>
      if truthy comment_details then
        r ← comment_record story_id comment_details;
        append_comments story_id rest (comments_data ++ [r])
      else append_comments story_id rest comments_data
  end.

(** One turn of the outer loop, lines 103-116: the story is fetched again
    for its [kids]. *)
Definition story_comments (st : story) (comments_data : list comment)
  : result (list comment) :=
  let story_id := s_id st in
  response ← requests_get (item hn story_id);
  story_details ← response_json response;
  if truthy story_details then
    has_kids ← py_contains "kids" story_details;
    if has_kids : bool then
      comment_ids ← py_getitem story_details "kids";
      ids ← py_iter comment_ids;
      comment_details_list ← executor_map fetch_comment_details ids;
      append_comments story_id comment_details_list comments_data
    else Ok comments_data
  else Ok comments_data.

Fixpoint fetch_all_comments (stories_data : list story) (comments_data : list comment)
  : result (list comment) :=
  match stories_data with
  | [] => Ok comments_data
  | st :: rest =>
      comments_data' ← story_comments st comments_data;
      fetch_all_comments rest comments_data'
  end.

Definition Fetching_responses_to_top_stories (stories_data : list story)
  : result (list comment) :=
  fetch_all_comments stories_data [].
End Collection.

(* ================================================================= *)
(** ** Delimited files *)

(** A delimited text file, by its content: the fields of the header line
    and of each data line.  Quoting and line ends are the [csv] module's
    and the [pandas] tokenizer's business; a field is the text that one
    writes and the other gets back. *)
Record csv_file := Csv {
  header : list string;
  records : list (list string);
}.

(** The files of the working directory, by name. *)
Abbreviation files := (gmap string csv_file).

(** [str(z)] *)
Definition str_of_Z (z : Z) : string := NilZero.string_of_int (Z.to_int z).

Section Writing.
(** [str] of a list or a dict, which no field of the item schema needs. *)
Variable container_repr : value → string.

(** What [csv.writer] writes for a value: nothing for [None], the text of
    a string, [str(v)] otherwise. *)
Definition csv_field (v : value) : string :=
  match v with
  | VNone => ""
  | VBool true => "True"
  | VBool false => "False"
  | VInt z => str_of_Z z
  | VStr s => s
  | VList _ | VDict _ => container_repr v
  end.

Definition story_fieldnames : list string :=
  ["id"; "title"; "url"; "score"; "author"; "time"; "comments_count"; "type";
   "descendants"].

Definition story_values (st : story) : list value :=
  [s_id st; s_title st; s_url st; s_score st; s_author st; s_time st;
   s_comments_count st; s_type st; s_descendants st].

Definition comment_fieldnames : list string :=
  ["author"; "text"; "time"; "parent_story"].

Definition comment_values (c : comment) : list value :=
  [c_author c; c_text c; c_time c; c_parent_story c].

(** [DictWriter]: the header, then a row per dict with the fields in the
    order of [fieldnames]. *)
Definition write_rows (fieldnames : list string) (rows : list (list value)) : csv_file :=
  Csv fieldnames (map (map csv_field) rows).

(** Opening with mode ['w'] replaces the file.  A file is known by the
    string of its name, as the script writes and reads it. *)
Definition Saving_data_in_a_csv_file (array_of_dictionaries : list story)
    (path name : string) (fs : files) : files :=
  <[path +:+ name +:+ ".csv" :=
      write_rows story_fieldnames (map story_values array_of_dictionaries)]> fs.

Definition Saving_comments_data_in_a_csv_file (comments_data : list comment)
    (fs : files) : files :=
  <["comments.csv" :=
      write_rows comment_fieldnames (map comment_values comments_data)]> fs.
End Writing.

(* ================================================================= *)
(** ** Data frames *)

(** A column of a frame with its dtype.  A missing value is [None]; an
    integer column that holds one is a float column in pandas. *)
Inductive column :=
  | Int64 (l : list Z)
  | Float64 (l : list (option Z))
  | Object (l : list (option string)).

Record frame := Frame {
  nrows : nat;
  columns : list (string * column);
}.

(** One value of a column. *)
Inductive cell :=
  | NaN
  | IntCell (z : Z)
  | FloatCell (z : Z)
  | StrCell (s : string).

Definition column_cells (c : column) : list cell :=
  match c with
  | Int64 l => map IntCell l
  | Float64 l => map (λ o, match o with Some z => FloatCell z | None => NaN end) l
  | Object l => map (λ o, match o with Some s => StrCell s | None => NaN end) l
  end.

(** The fields [pd.read_csv] reads as missing, by default. *)
Definition na_values : list string :=
  [""; "#N/A"; "#N/A N/A"; "#NA"; "-1.#IND"; "-1.#QNAN"; "-NaN"; "-nan";
   "1.#IND"; "1.#QNAN"; "<NA>"; "N/A"; "NA"; "NULL"; "NaN"; "None"; "n/a";
   "nan"; "null"].

Definition is_na (s : string) : bool := existsb (String.eqb s) na_values.

Section Reading.
(** The numeric literals [pd.read_csv] recognises, with the number read;
    [None] for a field it leaves as text. *)
Variable to_numeric : string → option Z.

Definition numeric_cell (s : string) : option (option Z) :=
  if is_na s then Some None else Some <$> to_numeric s.

(** The dtype of a column is inferred from all of its fields: numeric if
    every field that is not missing is a number, text otherwise; a column
    without rows is of dtype object.  The numbers are the integers that a
    float holds exactly; a column of [True] and [False] only, which pandas
    reads as booleans, is kept as its text, and so is a field with a NUL,
    which pandas cuts there.  [uniform_table] below tells the tables on
    which none of this shows. *)
Definition infer_column (fields : list string) : column :=
  match fields with
  | [] => Object []
  | _ =>
      match mapM numeric_cell fields with
      | Some nums =>
          match mapM id nums with
          | Some ints => Int64 ints
          | None => Float64 nums
          end
      | None => Object (map (λ s, if is_na s then None else Some s) fields)
      end
  end.

(** The frame of a file: a row short of fields is filled with missing
    values, a row with more fields than the header is an error.  (When it
    is the first row that is longer, pandas takes its surplus fields for
    an index; no file that this script writes has such a row.) *)
Definition parse_csv (f : csv_file) : result frame :=
  match header f with
  | [] => Raise EmptyDataError
  | _ =>
      if existsb (λ r, (length (header f) <? length r)%nat) (records f)
      then Raise ParserError
      else Ok (Frame (length (records f))
                 (imap (λ j name,
                    (name, infer_column (map (λ r, nth j r "") (records f))))
                    (header f)))
  end.

Definition read_csv (fs : files) (name : string) : result frame :=
  match fs !! name with
  | None => Raise FileNotFoundError
  | Some f => parse_csv f
  end.
End Reading.

(** The decimal integer literals, which are what [str] gives for an [int]. *)
Definition int_literal (s : string) : option Z :=
  Z.of_int <$> NilZero.int_of_string s.

Definition column_length (c : column) : nat := length (column_cells c).

(** A string of digits and minus signs. *)
Definition numeral_char (a : ascii) : bool :=
  existsb (Ascii.eqb a) (list_ascii_of_string "-0123456789").

Definition numeral (s : string) : bool :=
  negb (String.eqb s "") && forallb numeral_char (list_ascii_of_string s).

(** ** A table and the frame read back from its file *)

(** A value written to a file and the value read back agree: a number is
    read back as that number, in an integer or in a float column; a text
    as itself; an absent or empty field as a missing value. *)
Definition agrees (v : value) (c : cell) : Prop :=
  match v, c with
  | VNone, NaN => True
  | VStr s, NaN => s = ""
  | VInt z, IntCell z' | VInt z, FloatCell z' => z = z'
  | VStr s, StrCell s' => s = s'
  | _, _ => False
  end.

(** The value in row [i] of the [j]-th column of a frame. *)
Definition frame_cell (df : frame) (j i : nat) : option cell :=
  nc ← columns df !! j; column_cells nc.2 !! i.

(** Every column of a frame has one value per row. *)
Definition frame_wf (df : frame) : Prop :=
  Forall (λ nc, column_length nc.2 = nrows df) (columns df).

Fixpoint lookup_column (name : string) (cols : list (string * column)) : option column :=
  match cols with
  | [] => None
  | (n, c) :: cols' => if String.eqb n name then Some c else lookup_column name cols'
  end.

(** [df[name]] *)
Definition df_col (df : frame) (name : string) : result column :=
  match lookup_column name (columns df) with
  | Some c => Ok c
  | None => Raise KeyError
  end.

(** [df.empty]: no row or no column. *)
Definition df_empty (df : frame) : bool :=
  (nrows df =? 0)%nat || match columns df with [] => true | _ => false end.

(** [series.notna()] *)
Definition notna (c : column) : list bool :=
  match c with
  | Int64 l => map (λ _, true) l
  | Float64 l => map (λ o, bool_decide (is_Some o)) l
  | Object l => map (λ o, bool_decide (is_Some o)) l
  end.

(** [series.sum()] of a boolean series. *)
Definition sum_true (l : list bool) : Z := Z.of_nat (length (filter (λ b, b = true) l)).

(* ================================================================= *)
(** ** The analysis *)

(** The arithmetic of the percentages.  The script computes in binary64;
    the same expressions over the rationals give the values that the
    floating-point results round. *)
Class Number (N : Type) := {
  of_Z : Z → N;
  num_div : N → N → N;
  num_mul : N → N → N;
  num_add : N → N → N;
}.

(** IEEE 754 binary64, the [float64] of numpy.  An integer count is
    converted before it is divided; a division by zero gives an infinity
    or a NaN (numpy warns, it does not raise). *)
Definition binary64 : Type := spec_float.

#[global] Instance binary64_number : Number binary64 := {
  of_Z z := binary_normalize 53 1024 z 0 false;
  num_div := SFdiv 53 1024;
  num_mul := SFmul 53 1024;
  num_add := SFadd 53 1024;
}.

#[global] Instance exact_number : Number Q := {
  of_Z := inject_Z;
  num_div := Qdiv;
  num_mul := Qmult;
  num_add := Qplus;
}.

Section LinkStatistics.
Context {N : Type} `{Number N}.

(** [(count / total) * 100] *)
Definition percentage (count total : Z) : N :=
  num_mul (num_div (of_Z count) (of_Z total)) (of_Z 100).

(** Lines 224-227: [external_links_percentage] and
    [self_posts_percentage].  [external_links] is the [numpy.int64] that
    [Series.sum()] returns, so both divisions are numpy's. *)
Definition link_statistics (stories_df : frame) : result (N * N) :=
  url ← df_col stories_df "url";
  let external_links := sum_true (notna url) in
  let self_posts := (Z.of_nat (nrows stories_df) - external_links)%Z in
  Ok (percentage external_links (Z.of_nat (nrows stories_df)),
      percentage self_posts (Z.of_nat (nrows stories_df))).
End LinkStatistics.

(** [str] of a float that holds an integer (below 1e16). *)
Definition float_str (z : Z) : string := str_of_Z z +:+ ".0".

(** [series.astype(str)]: every value becomes its [str], a missing value
    the string ['nan'] (pandas 1 and 2, where the result is of dtype
    object). *)
Definition astype_str (c : column) : list (option string) :=
  match c with
  | Int64 l => map (λ z, Some (str_of_Z z)) l
  | Float64 l => map (λ o, Some (match o with Some z => float_str z | None => "nan" end)) l
  | Object l => map (λ o, Some (default "nan" o)) l
  end.

(** [series.fillna(fill)] on a column of dtype object. *)
Definition fillna (fill : string) (l : list (option string)) : list (option string) :=
  map (λ o, Some (default fill o)) l.

(** [series.str.len()] *)
Definition str_len (l : list (option string)) : list (option Z) :=
  map (fmap (λ s, Z.of_nat (String.length s))) l.

(** Lines 250-253: the [comment_length] column. *)
Definition comment_length (text : column) : list (option Z) :=
  str_len (fillna "" (astype_str text)).

Inductive sentiment_label := Positive | Negative | Neutral.

Definition float_zero : binary64 := S754_zero false.

(** Line 271: ['Positive' if x > 0 else ('Negative' if x < 0 else 'Neutral')] *)
Definition label_of (x : binary64) : sentiment_label :=
  if SFltb float_zero x then Positive
  else if SFltb x float_zero then Negative
  else Neutral.

Definition is_nan (x : binary64) : bool :=
  match x with S754_nan => true | _ => false end.

(** [|x - 100| <= 2^-46], one unit in the last place of 100. *)
Definition near_hundred (x : binary64) : bool :=
  SFleb (SFabs (SFsub 53 1024 x (of_Z 100))) (binary_normalize 53 1024 1 (-46) false).

Section Sentiment.
(** [sia.polarity_scores(x)['compound']], the score of the lexicon. *)
Variable compound : string → binary64.

(** Line 270: [compound(x) if x else 0]; the analyzer takes strings only. *)
Definition sentiment_of (x : option string) : result binary64 :=
  match x with
  | Some s => Ok (if String.eqb s "" then float_zero else compound s)
  | None => Raise AttributeError
  end.

(** Lines 248-271: the columns added to the comment frame and the label
    of each comment; nothing when the frame is empty. *)
Definition comment_statistics (comments_df : frame)
  : result (option (list (option Z) * list binary64 * list sentiment_label)) :=
  if df_empty comments_df then Ok None
  else
    text_col ← df_col comments_df "text";
    let text := fillna "" (astype_str text_col) in
    sentiment ← traverse sentiment_of text;
    Ok (Some (str_len text, sentiment, map label_of sentiment)).
End Sentiment.

(* ================================================================= *)
(** ** The orchestrator *)

(** A step of the run: it may raise, and it leaves the files as they are
    at that point. *)
Definition io (A : Type) : Type := files → result A * files.

#[global] Instance io_ret : MRet io := λ A a fs, (Ok a, fs).
#[global] Instance io_bind : MBind io :=
  λ A B f m fs,
    match m fs with
    | (Ok a, fs') => f a fs'
    | (Raise e, fs') => (Raise e, fs')
    end.

Definition lift {A} (m : result A) : io A := λ fs, (m, fs).
Definition modify (f : files → files) : io unit := λ fs, (Ok (), f fs).

(** [array[:n]] needs a sequence: a list, or a string by its characters
    (slicing a dict fails with KeyError from Python 3.12 on). *)
Definition sliceable (v : value) : result (list value) :=
  match v with
  | VList l => Ok l
  | VStr s => Ok (chars s)
  | VNone | VBool _ | VInt _ | VDict _ => Raise TypeError
  end.

Section Orchestrator.
Variable hn : api.
Variable container_repr : value → string.
Variable to_numeric : string → option Z.
(** The analysis as a whole, with its charts and its metrics file. *)
Variable Data_analysis_and_statistics : frame → frame → io unit.

Definition pd_read_csv (name : string) : io frame :=
  λ fs, (read_csv to_numeric fs name, fs).

Definition Data_collection_and_analysis_from_Hacker_News (num_of_stories : Z) : io unit :=
  top_stories_ids_array ← lift (response ← requests_get (topstories hn);
                                v ← response_json response;
                                sliceable v);
  articles_data ← lift (Retrieving_data_about_articles hn top_stories_ids_array
                          num_of_stories);
  _ ← modify (Saving_data_in_a_csv_file container_repr articles_data "" "top_stories");
  comments_data ← lift (Fetching_responses_to_top_stories hn articles_data);
  _ ← match comments_data with
      | [] => (mret () : io unit)
      | _ => modify (Saving_comments_data_in_a_csv_file container_repr comments_data)
      end;
  stories_df ← pd_read_csv "top_stories.csv";
  comments_df ← pd_read_csv "comments.csv";
  Data_analysis_and_statistics stories_df comments_df.
End Orchestrator.

(* ================================================================= *)
(** ** Well-formed items *)

(** The shape the item endpoint documents: [null], or an object whose
    [kids], when present, is a list. *)
Definition item_shaped (v : value) : Prop :=
  v = VNone ∨
  ∃ d, v = VDict d ∧
       (dict_lookup "kids" d = None ∨ ∃ l, dict_lookup "kids" d = Some (VList l)).

(** The endpoint answers a request with the item that was asked for. *)
Definition echoes_id (hn : api) : Prop :=
  ∀ id d, item hn id = Response (Json (VDict d)) → d ≠ [] →
          dict_lookup "id" d = Some id.

(** An identifier for which the endpoint answers with a well-formed item. *)
Definition answers_well (hn : api) (id : value) : Prop :=
  ∃ v, fetch_story_details hn id = Ok v ∧ item_shaped v.

(** The same for a story and for each of its child identifiers. *)
Definition thread_answers_well (hn : api) (id : value) : Prop :=
  ∃ v, fetch_story_details hn id = Ok v ∧ item_shaped v ∧
       ∀ d l, v = VDict d → dict_lookup "kids" d = Some (VList l) →
              Forall (answers_well hn) l.

(** [c] is the record of a comment fetched from the [kids] of the details
    of story [st]. *)
Definition comment_of_story (hn : api) (st : story) (c : comment) : Prop :=
  ∃ d kids ids cid cd,
    fetch_story_details hn (s_id st) = Ok (VDict d) ∧
    dict_lookup "kids" d = Some kids ∧
    py_iter kids = Ok ids ∧
    cid ∈ ids ∧
    fetch_comment_details hn cid = Ok cd ∧
    truthy cd = true ∧
    comment_record (s_id st) cd = Ok c.

(* ================================================================= *)
(** ** Sample data *)

(** A small snapshot of the API and the variants of it used below to run
    the model. *)
Module Sample.
(** A link story with two comments. *)
Definition story1 : value :=
  VDict [("by", VStr "alice"); ("descendants", VInt 2); ("id", VInt 1);
         ("kids", VList [VInt 11; VInt 12]); ("score", VInt 10);
         ("time", VInt 1700000000); ("title", VStr "Show HN: a prover");
         ("type", VStr "story"); ("url", VStr "http://x")].

(** A self post: no [url], no [kids], no [descendants]. *)
Definition story3 : value :=
  VDict [("by", VStr "bob"); ("id", VInt 3); ("score", VInt 30);
         ("time", VInt 1699996400); ("title", VStr "Ask HN: NA");
         ("type", VStr "story")].

Definition comment11 : value :=
  VDict [("by", VStr "carol"); ("id", VInt 11); ("parent", VInt 1);
         ("text", VStr "check http://example.com"); ("time", VInt 1700000100);
         ("type", VStr "comment")].

(** A deleted comment: no [by], no [text]. *)
Definition comment12 : value :=
  VDict [("deleted", VBool true); ("id", VInt 12); ("parent", VInt 1);
         ("time", VInt 1700000200); ("type", VStr "comment")].

(** The endpoint answers [null] for an item it does not have. *)
Definition items (id : value) : reply :=
  match id with
  | VInt 1 => Response (Json story1)
  | VInt 3 => Response (Json story3)
  | VInt 11 => Response (Json comment11)
  | VInt 12 => Response (Json comment12)
  | _ => Response (Json VNone)
  end.

Definition top : value := VList [VInt 1; VInt 2; VInt 3].

Definition hn : api := {| item := items; topstories := Response (Json top) |}.

(** The same, with item 2 out of reach. *)
Definition hn_down : api :=
  {| item := λ id, match id with VInt 2 => Unreachable | _ => items id end;
     topstories := Response (Json top) |}.

(** The same, with a body for item 2 that is not JSON. *)
Definition hn_garbled : api :=
  {| item := λ id, match id with VInt 2 => Response Malformed | _ => items id end;
     topstories := Response (Json top) |}.

(** An endpoint that answers item 2 with the record of item 3. *)
Definition hn_redirect : api :=
  {| item := λ id, match id with VInt 2 => Response (Json story3) | _ => items id end;
     topstories := Response (Json top) |}.

Definition ids : list value := [VInt 1; VInt 2; VInt 3].

(** The records of the two stories. *)
Definition record1 : story :=
  Story (VInt 1) (VStr "Show HN: a prover") (VStr "http://x") (VInt 10)
        (VStr "alice") (VInt 1700000000) (VInt 2) (VStr "story") (VInt 2).

Definition record3 : story :=
  Story (VInt 3) (VStr "Ask HN: NA") VNone (VInt 30) (VStr "bob")
        (VInt 1699996400) (VInt 0) (VStr "story") (VInt 0).

Definition stories : list story := [record1; record3].

(** No field of the samples is a list or a dict. *)
Definition repr (v : value) : string := "".

(** The story file of a run that got no story, and its frame. *)
Definition no_stories : files := Saving_data_in_a_csv_file repr [] "" "top_stories" ∅.

Definition no_stories_df : frame :=
  Frame 0 (map (λ name, (name, Object [])) story_fieldnames).

(** The story file of the two stories, and its frame. *)
Definition two_stories : files :=
  Saving_data_in_a_csv_file repr stories "" "top_stories" ∅.

Definition two_stories_df : frame :=
  Frame 2
    [("id", Int64 [1; 3]%Z);
     ("title", Object [Some "Show HN: a prover"; Some "Ask HN: NA"]);
     ("url", Object [Some "http://x"; None]);
     ("score", Int64 [10; 30]%Z);
     ("author", Object [Some "alice"; Some "bob"]);
     ("time", Int64 [1700000000; 1699996400]%Z);
     ("comments_count", Int64 [2; 0]%Z);
     ("type", Object [Some "story"; Some "story"]);
     ("descendants", Int64 [2; 0]%Z)].

(** The comments of story 1; the deleted one has no author and no text. *)
Definition comments : list comment :=
  [Comment (VStr "carol") (VStr "check http://example.com") (VInt 1700000100) (VInt 1);
   Comment VNone VNone (VInt 1700000200) (VInt 1)].

(** A toy lexicon. *)
Definition compound (s : string) : binary64 :=
  if str_contains "great" s then binary_normalize 53 1024 3 (-2) false
  else if str_contains "awful" s then binary_normalize 53 1024 (-3) (-2) false
  else float_zero.

(** A snapshot whose only top story has no comments. *)
Definition hn_quiet : api :=
  {| item := items; topstories := Response (Json (VList [VInt 3])) |}.

(** An analysis that leaves the files alone. *)
Definition analysis (stories_df comments_df : frame) : io unit := mret ().

(** A comment by the user [null] whose text is [NA], and one whose text
    is a number with leading zeros. *)
Definition odd_comments : list comment :=
  [Comment (VStr "null") (VStr "NA") (VInt 1700000300) (VInt 1);
   Comment (VStr "dave") (VStr "007") (VInt 1700000400) (VInt 1)].

Definition odd_comments_df : frame :=
  Frame 2
    [("author", Object [None; Some "dave"]);
     ("text", Float64 [None; Some 7%Z]);
     ("time", Int64 [1700000300; 1700000400]%Z);
     ("parent_story", Int64 [1; 1]%Z)].

(** The comment file of these, and its frame. *)
Definition two_comments : files := Saving_comments_data_in_a_csv_file repr comments ∅.

Definition two_comments_df : frame :=
  Frame 2
    [("author", Object [Some "carol"; None]);
     ("text", Object [Some "check http://example.com"; None]);
     ("time", Int64 [1700000100; 1700000200]%Z);
     ("parent_story", Int64 [1; 1]%Z)].
End Sample.

(* ================================================================= *)
(** ** Title keywords (lines 201-206) *)

(** [str.isspace] on the characters below 256: the ASCII white space, the
    separators 28 to 31, NEL and the no-break space. *)
Definition is_space (a : ascii) : bool :=
  let n := nat_of_ascii a in
  ((9 <=? n) && (n <=? 13)) || ((28 <=? n) && (n <=? 32)) || (n =? 133) || (n =? 160).

(** The capital letters below 256: A to Z and the accented capitals. *)
Definition is_upper (a : ascii) : bool :=
  let n := nat_of_ascii a in
  ((65 <=? n) && (n <=? 90)) || ((192 <=? n) && (n <=? 214)) ||
  ((216 <=? n) && (n <=? 222)).

Definition lower_char (a : ascii) : ascii :=
  if is_upper a then ascii_of_nat (nat_of_ascii a + 32) else a.

(** [s.lower()] *)
Fixpoint str_lower (s : string) : string :=
  match s with
  | EmptyString => EmptyString
  | String a s' => String (lower_char a) (str_lower s')
  end.

(** [s.split()]: the maximal runs of characters that are not white space,
    in order.  A character that is not white space starts a word when the
    next one is white space or the end, and otherwise goes in front of the
    first word of the rest. *)
Fixpoint split (s : string) : list string :=
  match s with
  | EmptyString => []
  | String c s' =>
      if is_space c then split s'
      else
        match s' with
        | EmptyString => [String c EmptyString]
        | String c' _ =>
            if is_space c' then String c EmptyString :: split s'
            else
              match split s' with
              | w :: ws => String c w :: ws
              | [] => [String c EmptyString]
              end
        end
  end.

(** [[word.lower() for word in title.split() if len(word) > 3]] *)
Definition extract_keywords (title : string) : list string :=
  map str_lower (List.filter (λ word, 3 <? String.length word) (split title)).

(** Line 204: the keywords of all titles, in order.  A title that is
    missing is a float and a title of a numeric column a number: neither
    has a [split]. *)
Definition all_keywords (title : column) : result (list string) :=
  match title with
  | Object l =>
      kws ← traverse (λ o, match o with
                           | Some s => Ok (extract_keywords s)
                           | None => Raise AttributeError
                           end) l;
      Ok (concat kws)
  | Int64 [] | Float64 [] => Ok []
  | Int64 (_ :: _) | Float64 (_ :: _) => Raise AttributeError
  end.

(** [Counter.update] with one element: a count of 1 at the end for a new
    key, one more for a key that is there. *)
Fixpoint counter_add (k : string) (c : list (string * nat)) : list (string * nat) :=
  match c with
  | [] => [(k, 1)]
  | (k', n) :: c' =>
      if String.eqb k' k then (k', S n) :: c' else (k', n) :: counter_add k c'
  end.

(** [Counter(l)]: the counts, by key in the order of first occurrence. *)
Definition Counter (l : list string) : list (string * nat) :=
  foldl (λ c k, counter_add k c) [] l.

(** The stable sort by decreasing count that [most_common] documents:
    [sorted(items, key=itemgetter(1), reverse=True)]. *)
Fixpoint insert_by_count (x : string * nat) (l : list (string * nat))
  : list (string * nat) :=
  match l with
  | [] => [x]
  | y :: l' => if x.2 <? y.2 then y :: insert_by_count x l' else x :: y :: l'
  end.

Definition sort_by_count (l : list (string * nat)) : list (string * nat) :=
  foldr insert_by_count [] l.

(** [counter.most_common(n)] *)
Definition most_common (n : nat) (c : list (string * nat)) : list (string * nat) :=
  take n (sort_by_count c).

(** Lines 204-206: [stats_results['top_10_keywords']]. *)
Definition top_10_keywords (title : column) : result (list (string * nat)) :=
  all_keywords ← all_keywords title;
  Ok (most_common 10 (Counter all_keywords)).

(* ================================================================= *)
(** ** Posting hours (lines 235-237) *)

(** The seconds that fit a nanosecond timestamp of 64 bits: for these
    [pd.to_datetime(..., unit='s')] gives a timestamp in every version of
    pandas.  For a time out of them the outcome depends on the version and
    on the dtype of the column (an [OutOfBoundsDatetime], a [NaT], or a
    timestamp of a coarser unit). *)
Definition datetime_in_range (t : Z) : bool :=
  (-9223372036 <=? t)%Z && (t <=? 9223372036)%Z.

(** The hour of the day, UTC, of a time in seconds since the epoch. *)
Definition hour_of (t : Z) : Z := ((t / 3600) mod 24)%Z.

(** [pd.to_datetime(time, unit='s').dt.hour] on the values of a numeric
    column whose times are all in that range: a missing time has a missing
    hour.  [None] stands for a column with a time out of the range, of
    which nothing is said here. *)
Definition hour_posted (time : list (option Z)) : option (list (option Z)) :=
  if forallb (λ o, match o with Some t => datetime_in_range t | None => true end) time
  then Some (map (fmap hour_of) time)
  else None.

(** One more occurrence of [h] in counts that are kept in the order of
    their keys. *)
Fixpoint bump (h : Z) (c : list (Z * nat)) : list (Z * nat) :=
  match c with
  | [] => [(h, 1)]
  | (k, n) :: c' =>
      if (h <? k)%Z then (h, 1) :: c
      else if (h =? k)%Z then (k, S n) :: c'
      else (k, n) :: bump h c'
  end.

(** [series.value_counts().sort_index()]: the count of each value that
    occurs, missing values left out, by increasing value. *)
Definition value_counts_sort_index (l : list (option Z)) : list (Z * nat) :=
  foldr (λ o c, match o with Some h => bump h c | None => c end) [] l.

(** [stats_results['posting_time_distribution']] *)
Definition posting_time_distribution (time : list (option Z))
  : option (list (Z * nat)) :=
  value_counts_sort_index <$> hour_posted time.

(* ================================================================= *)
(** ** The metrics file (lines 290-299) *)

(** An entry of [stats_results]: a number, or a dict of numbers whose keys
    are given by their [str]. *)
Inductive stat (V : Type) :=
  | Scalar (v : V)
  | Nested (d : list (string * V)).
Arguments Scalar {V} v.
Arguments Nested {V} d.

Section Metrics.
Context {V : Type}.
(** [str] of a number of the statistics. *)
Variable str_value : V → string.

(** The rows of one entry: one for a number, one per key for a dict. *)
Definition stat_rows (key : string) (s : stat V) : list (list string) :=
  match s with
  | Scalar v => [[key; str_value v]]
  | Nested d => map (λ kv, [key +:+ " - " +:+ kv.1; str_value kv.2]) d
  end.

Definition statistics_file (stats_results : list (string * stat V)) : csv_file :=
  Csv ["Metric"; "Value"] (concat (map (λ e, stat_rows e.1 e.2) stats_results)).

Definition save_statistics (stats_results : list (string * stat V)) (fs : files) : files :=
  <["statistical_analysis.csv" := statistics_file stats_results]> fs.
End Metrics.

(** The number of rows an entry takes in the metrics file. *)
Definition stat_size {V} (s : stat V) : nat :=
  match s with
  | Scalar _ => 1
  | Nested d => length d
  end.

(* ================================================================= *)
(** ** More sample data *)

Module Cases.
(** Two titles and the column they make. *)
Definition titles : column :=
  Object [Some "Rust rust RUST news"; Some "News about Rust things news"].

(** Three posting times: 1700000000 is 22:13:20 UTC, 1699996400 an hour
    earlier, and one missing. *)
Definition times : list (option Z) :=
  [Some 1700000000%Z; Some 1699996400%Z; None; Some 1700000100%Z].

(** An item whose [kids] is a number, and an answer that is a string. *)
Definition bad_kids : value := VDict [("id", VInt 5); ("kids", VInt 7)].

Definition hn_text : api :=
  {| item := λ id, match id with
                   | VInt 2 => Response (Json (VStr "Too many requests"))
                   | _ => Sample.items id
                   end;
     topstories := Response (Json Sample.top) |}.

Definition hn_bad_kids : api :=
  {| item := λ id, match id with
                   | VInt 2 => Response (Json bad_kids)
                   | _ => Sample.items id
                   end;
     topstories := Response (Json Sample.top) |}.

(** A snapshot without a list of top stories. *)
Definition hn_no_top : api :=
  {| item := Sample.items; topstories := Unreachable |}.

(** A snapshot in which a comment is out of reach. *)
Definition hn_comment_down : api :=
  {| item := λ id, match id with VInt 12 => Unreachable | _ => Sample.items id end;
     topstories := Response (Json Sample.top) |}.

Definition statistics : list (string * stat Z) :=
  [("average_score", Scalar 20%Z);
   ("top_10_keywords", Nested []);
   ("posting_time_distribution", Nested [("21", 1%Z); ("22", 2%Z)])].
End Cases.

(* ================================================================= *)
(** ** Counts and their order *)

(** [counter[k]] for a key that is there. *)
Fixpoint counter_get (k : string) (c : list (string * nat)) : option nat :=
  match c with
  | [] => None
  | (k', n) :: c' => if String.eqb k' k then Some n else counter_get k c'
  end.

(** The number of occurrences of [k] in [l]. *)
Definition occurrences (k : string) (l : list string) : nat :=
  length (List.filter (String.eqb k) l).

(** Counts that do not increase along the list. *)
Fixpoint descending (l : list (string * nat)) : Prop :=
  match l with
  | [] => True
  | x :: l' => Forall (λ y, y.2 ≤ x.2) l' ∧ descending l'
  end.

(** Keys that increase along the list. *)
Fixpoint ascending_keys (l : list (Z * nat)) : Prop :=
  match l with
  | [] => True
  | x :: l' => Forall (λ y, (x.1 < y.1)%Z) l' ∧ ascending_keys l'
  end.

(** A word has a character and no white space. *)
Definition is_word (w : string) : Prop :=
  w ≠ "" ∧ Forall (λ c, is_space c = false) (list_ascii_of_string w).

(** The count kept for a value, and the number of its occurrences in a
    column. *)
Fixpoint counts_get (k : Z) (c : list (Z * nat)) : option nat :=
  match c with
  | [] => None
  | (k', n) :: c' => if (k' =? k)%Z then Some n else counts_get k c'
  end.

Definition count_value (k : Z) (l : list (option Z)) : nat :=
  length (List.filter (λ o, match o with Some x => (x =? k)%Z | None => false end) l).

(** The values of a column that are not missing. *)
Definition present_values (l : list (option Z)) : list Z :=
  omap id l.

(* ================================================================= *)
(** ** The chart of the link percentages (lines 228-232) *)

(** [np.float32], in which [plt.pie] takes the sizes of the wedges. *)
Definition float32_of_Z (z : Z) : spec_float := binary_normalize 24 128 z 0 false.

(** [plt.pie([external_links, self_posts], ...)] with its default
    [normalize=True], up to [plt.savefig]: a negative size is refused;
    each size is divided by the sum of the two, and a wedge whose fraction
    is not a number cannot be drawn (its arc needs [int] of a NaN). *)
Definition plt_pie (external_links self_posts : Z) : result unit :=
  let x := [float32_of_Z external_links; float32_of_Z self_posts] in
  if existsb (λ v, SFltb v (S754_zero false)) x then Raise ValueError
  else
    let sx := SFadd 24 128 (float32_of_Z external_links) (float32_of_Z self_posts) in
    if existsb (λ v, is_nan (SFdiv 24 128 v sx)) x then Raise ValueError
    else Ok ().

(** Lines 228-232, with the two counts of lines 224-225. *)
Definition link_distribution (stories_df : frame) : result unit :=
  url ← df_col stories_df "url";
  let external_links := sum_true (notna url) in
  let self_posts := (Z.of_nat (nrows stories_df) - external_links)%Z in
  plt_pie external_links self_posts.

Section Analysis.
Context {N : Type} `{Number N}.
(** What the analysis does before line 224, and after line 232 with the
    two percentages in [stats_results]; the metrics file is written there,
    by the last lines. *)
Variable before : io unit.
Variable after : N * N → io unit.

(** The analysis, by its steps around the link percentages. *)
Definition Data_analysis_and_statistics (stories_df : frame) : io unit :=
  _ ← before;
  stats ← lift (stats ← link_statistics stories_df;
                _ ← link_distribution stories_df;
                Ok stats);
  after stats.
End Analysis.

(* ================================================================= *)
(** ** Tables that are read back as they were written *)

(** The characters of the numeric literals of [pd.read_csv]: digits,
    signs, the point, the exponent mark, the letters of [inf] and
    [infinity] in either case, and white space. *)
Definition literal_char (a : ascii) : bool :=
  existsb (Ascii.eqb a) (list_ascii_of_string "0123456789+-.eEinftyINFTY") || is_space a.

(** A text with a character that no numeric literal has. *)
Definition wordy (s : string) : bool :=
  existsb (λ a, negb (literal_char a)) (list_ascii_of_string s).

Definition has_nul (s : string) : bool :=
  existsb (Ascii.eqb Ascii.zero) (list_ascii_of_string s).

(** [True] and [False] in any case: a column of these is read as
    booleans. *)
Definition bool_word (s : string) : bool :=
  String.eqb (str_lower s) "true" || String.eqb (str_lower s) "false".

(** A text that [pd.read_csv] reads as it is: no missing-value marker, no
    number, no boolean, and no NUL, at which the reader would cut it. *)
Definition clean_text (s : string) : bool :=
  negb (is_na s) && wordy s && negb (has_nul s) && negb (bool_word s).

(** A value that is written as the empty field. *)
Definition absent (v : value) : bool :=
  match v with
  | VNone => true
  | VStr s => String.eqb s ""
  | _ => false
  end.

(** An integer that a float holds exactly, so that it is read back as it
    is in an integer column and in a float column. *)
Definition exact_int (v : value) : bool :=
  match v with
  | VInt z => (Z.abs z <=? 2 ^ 53)%Z
  | _ => false
  end.

Definition text_value (v : value) : bool :=
  match v with
  | VStr s => clean_text s
  | _ => false
  end.

(** A column of integers or a column of texts, with absent values in
    either. *)
Definition uniform_column (vs : list value) : bool :=
  forallb (λ v, absent v || exact_int v) vs || forallb (λ v, absent v || text_value v) vs.

(** The values of the [j]-th field of the rows. *)
Definition table_column (j : nat) (rows : list (list value)) : list value :=
  map (λ r, nth j r VNone) rows.

Definition uniform_table (width : nat) (rows : list (list value)) : bool :=
  forallb (λ j, uniform_column (table_column j rows)) (seq 0 width).

(* ################################################################# *)
(** * Part II: properties *)

(* ================================================================= *)
(** ** Results *)

Lemma bind_Ok {A B} (m : result A) (f : A → result B) (b : B) :
  m ≫= f = Ok b ↔ ∃ a, m = Ok a ∧ f a = Ok b.
Proof.
  destruct m as [a|e]; simpl.
  - split; [eauto | by intros (a' & [= <-] & ?)].
  - split; [done | by intros (a' & ? & _)].
Qed.

Lemma bind_Raise {A B} (m : result A) (f : A → result B) (e : exn) :
  m ≫= f = Raise e ↔ m = Raise e ∨ ∃ a, m = Ok a ∧ f a = Raise e.
Proof.
  destruct m as [a|e']; simpl.
  - split; [eauto | by intros [?|(a' & [= <-] & ?)]].
  - split; [intros [= ->]; by left | by intros [[= ->]|(a' & ? & _)]].
Qed.

Lemma traverse_app {A B} (f : A → result B) (l1 l2 : list A) :
  traverse f (l1 ++ l2) =
  bs1 ← traverse f l1; bs2 ← traverse f l2; Ok (bs1 ++ bs2).
Proof.
  induction l1 as [|a l1 IH]; simpl.
  - by destruct (traverse f l2).
  - destruct (f a) as [b|e]; simpl; [|done].
    rewrite IH. destruct (traverse f l1) as [bs1|]; simpl; [|done].
    by destruct (traverse f l2).
Qed.

Lemma traverse_Ok {A B} (f : A → result B) (l : list A) (bs : list B) :
  traverse f l = Ok bs ↔ Forall2 (λ a b, f a = Ok b) l bs.
Proof.
  revert bs. induction l as [|a l IH]; intros bs; simpl.
  - split; [intros [= <-]; constructor | by inversion 1].
  - split.
    + intros (b & Hb & (bs' & Hbs & [= <-])%bind_Ok)%bind_Ok.
      constructor; [done | by apply IH].
    + inversion 1 as [|? b ? bs' Hb Hbs]; subst.
      rewrite Hb. simpl. apply IH in Hbs. by rewrite Hbs.
Qed.

Lemma traverse_length {A B} (f : A → result B) (l : list A) (bs : list B) :
  traverse f l = Ok bs → length bs = length l.
Proof. intros HF%traverse_Ok. symmetry. by eapply Forall2_length. Qed.

Lemma traverse_lookup {A B} (f : A → result B) (l : list A) (bs : list B) i a :
  traverse f l = Ok bs → l !! i = Some a → ∃ b, bs !! i = Some b ∧ f a = Ok b.
Proof.
  intros HF%traverse_Ok Ha.
  destruct (Forall2_lookup_l _ _ _ _ _ HF Ha) as (b & ? & ?). eauto.
Qed.

Lemma traverse_returns {A B} (f : A → result B) (l : list A) :
  Forall (λ a, returns (f a)) l → returns (traverse f l).
Proof.
  induction 1 as [|a l [b Hb] _ [bs Hbs]]; simpl.
  - by eexists.
  - rewrite Hb. simpl. rewrite Hbs. by eexists.
Qed.

(** The exception of a traversal is that of the first element, in list
    order, on which the function raises. *)
Lemma traverse_Raise {A B} (f : A → result B) (l : list A) (e : exn) :
  traverse f l = Raise e ↔
  ∃ i a, l !! i = Some a ∧ f a = Raise e ∧
         Forall (λ a', returns (f a')) (take i l).
Proof.
  induction l as [|a l IH]; simpl.
  - split; [done | by intros (i & a & ? & _)].
  - split.
    + intros [Ha | (b & Hb & [Hl | (bs & _ & ?)]%bind_Raise)]%bind_Raise; [| |done].
      * exists 0, a. by repeat split.
      * apply IH in Hl as (i & a' & Hi & He & Hpre).
        exists (S i), a'. repeat split; [done..|].
        simpl. constructor; [by exists b | done].
    + intros ([|i] & a' & Hi & He & Hpre); simpl in *.
      * injection Hi as ->. by rewrite He.
      * inversion Hpre as [|? ? [b Hb] Hpre']; subst. rewrite Hb. simpl.
        assert (traverse f l = Raise e) as -> by (apply IH; eauto). done.
Qed.

(* ================================================================= *)
(** ** The thread pool *)

Section PoolProperties.
Context {A B : Type} (fn : A → result B) (args : list A) (W : nat).
Import ThreadPool.

Local Abbreviation step := (ThreadPool.step fn args W).
Local Abbreviation run := (ThreadPool.run fn args W).
Local Abbreviation consistent := (ThreadPool.consistent fn args).
Local Abbreviation finished := (ThreadPool.finished args).
Local Abbreviation submit := (ThreadPool.submit (B:=B) args).

Lemma submit_consistent : consistent submit.
Proof.
  split; simpl.
  - by rewrite length_replicate.
  - intros i r [[=] _]%lookup_replicate.
  - done.
  - lia.
  - done.
  - intros i Hi%elem_of_seq. lia.
  - intros i Hi. by apply elem_of_nil in Hi.
  - intros _ i Hi. left. apply elem_of_seq. lia.
Qed.

Lemma step_consistent s s' : consistent s → step s s' → consistent s'.
Proof.
  intros [Hlen Hfut Hpre Hbound Hraised Hq Hr Hsub] Hstep.
  destruct Hstep as [i q r fs c x HW | i a q r fs c x Hi Ha | b q r fs c Hb
                    | e q r fs c He]; simpl in *.
  - split; simpl; try done.
    + intros j Hj. apply Hq. by right.
    + intros j [->|Hj]%elem_of_cons; [apply Hq; by left | by apply Hr].
    + intros Hx j Hj. destruct (Hsub Hx j Hj) as [[->|?]%elem_of_cons|[?|?]].
      * right; left. by left.
      * by left.
      * right; left. by right.
      * by right; right.
  - assert (i < length fs) as Hifs by (rewrite Hlen; by eapply lookup_lt_Some).
    split; simpl; try done.
    + by rewrite length_insert.
    + intros j r' Hj. destruct (decide (i = j)) as [<-|Hne].
      * rewrite list_lookup_insert_eq in Hj by done. injection Hj as <-. eauto.
      * rewrite list_lookup_insert_ne in Hj by done. eauto.
    + intros j [_ Hj]%list_elem_of_filter. by apply Hr.
    + intros Hx j Hj. destruct (decide (i = j)) as [<-|Hne].
      * right; right. exists (fn a). by rewrite list_lookup_insert_eq.
      * destruct (Hsub Hx j Hj) as [?|[?|[r' ?]]].
        -- by left.
        -- right; left. apply list_elem_of_filter. split; [congruence | done].
        -- right; right. exists r'. by rewrite list_lookup_insert_ne.
  - destruct (Hfut _ _ Hb) as (a & Ha & Hfa).
    split; simpl; try done.
    + rewrite length_app. simpl. rewrite Nat.add_1_r.
      rewrite (take_S_r _ _ a) by done.
      rewrite traverse_app, Hpre. simpl. by rewrite <- Hfa.
    + rewrite length_app. simpl. apply lookup_lt_Some in Ha. lia.
  - destruct (Hfut _ _ He) as (a & Ha & Hfa).
    split; simpl; try done.
    + intros e' [= <-]. eauto.
    + intros j Hj. by apply elem_of_nil in Hj.
Qed.

Lemma run_preserves s s' : consistent s → run s s' → consistent s'.
Proof. intros Hs Hrun. induction Hrun; eauto using step_consistent. Qed.

Lemma run_consistent s : run submit s → consistent s.
Proof. apply run_preserves, submit_consistent. Qed.

(** Safety: whatever the order in which the workers finish, what the
    caller gets is the result of the calls taken in input order. *)
Lemma finished_consistent s r :
  consistent s → finished s = Some r → r = executor_map fn args.
Proof.
  intros [Hlen Hfut Hpre Hbound Hraised _ _ _]. unfold finished, executor_map.
  destruct (raised s) as [e|] eqn:Hx.
  - destruct (running s); [|done]. intros [= <-].
    destruct (Hraised e eq_refl) as (a & Ha & Hfa).
    symmetry. apply traverse_Raise. exists (length (collected s)), a.
    repeat split; [done..|].
    apply traverse_Ok in Hpre. apply Forall_forall. intros a' Ha'.
    apply list_elem_of_lookup in Ha' as [j Hj].
    destruct (Forall2_lookup_l _ _ _ _ _ Hpre Hj) as (b & _ & ?). by exists b.
  - case_decide as Hc; [|done]. intros [= <-].
    by rewrite Hc, firstn_all in Hpre.
Qed.

(** The workers get through the calls that were submitted. *)
Lemma drain s :
  0 < W → consistent s →
  ∃ s', run s s' ∧ queue s' = [] ∧ running s' = [] ∧
        collected s' = collected s ∧ raised s' = raised s.
Proof.
  intros HW.
  remember (length (queue s) + length (queue s) + length (running s)) as n eqn:Hn.
  revert s Hn. induction n as [n IH] using lt_wf_ind. intros s Hn Hs.
  destruct s as [q r fs c x]. destruct r as [|i r].
  - destruct q as [|i q].
    + eexists. split; [apply rtc_refl | done].
    + assert (step (Pool (i :: q) [] fs c x) (Pool q [i] fs c x)) as Hstep
        by (apply step_start; simpl; lia).
      assert (∃ s', run (Pool q [i] fs c x) s' ∧ queue s' = [] ∧ running s' = [] ∧
                    collected s' = c ∧ raised s' = x) as (s' & Hrun & ?).
      { eapply IH; [| reflexivity | by eapply step_consistent].
        subst n. simpl. lia. }
      exists s'. split; [by eapply rtc_l | done].
  - assert (i < length args) as [a Ha]%lookup_lt_is_Some
      by (apply (running_bound _ _ _ Hs); simpl; by left).
    set (r' := filter (λ j, j ≠ i) (i :: r)).
    assert (step (Pool q (i :: r) fs c x) (Pool q r' (<[i := Some (fn a)]> fs) c x))
      as Hstep by (apply step_finish; [by left | done]).
    assert (length r' ≤ length r) as Hle.
    { unfold r'. rewrite filter_cons_False by (intros ?; done). apply length_filter. }
    assert (∃ s', run (Pool q r' (<[i := Some (fn a)]> fs) c x) s' ∧ queue s' = [] ∧
                  running s' = [] ∧ collected s' = c ∧ raised s' = x)
      as (s' & Hrun & ?).
    { eapply IH; [| reflexivity | by eapply step_consistent].
      subst n. simpl. lia. }
    exists s'. split; [by eapply rtc_l | done].
Qed.

(** With the workers idle, the caller reads the futures to the end or to
    the first exception. *)
Lemma consume s :
  consistent s → queue s = [] → running s = [] →
  ∃ s' r, run s s' ∧ finished s' = Some r.
Proof.
  remember (length args - length (collected s)) as n eqn:Hn.
  revert s Hn. induction n as [n IH] using lt_wf_ind. intros s Hn Hs Hq Hr.
  destruct (raised s) as [e|] eqn:Hx.
  { exists s, (Raise e). split; [apply rtc_refl|]. unfold finished. by rewrite Hx, Hr. }
  destruct (decide (length (collected s) = length args)) as [Hc|Hc].
  { exists s, (Ok (collected s)). split; [apply rtc_refl|].
    unfold finished. rewrite Hx. by case_decide. }
  pose proof (collected_bound _ _ _ Hs) as Hb.
  destruct (submitted _ _ _ Hs Hx (length (collected s))) as [Hi|[Hi|[r Hfut]]];
    [lia | rewrite Hq in Hi; by apply elem_of_nil in Hi
         | rewrite Hr in Hi; by apply elem_of_nil in Hi |].
  destruct s as [q rn fs c x]; simpl in *; subst q rn x.
  destruct r as [b|e].
  - assert (step (Pool [] [] fs c None) (Pool [] [] fs (c ++ [b]) None)) as Hstep
      by (by apply step_yield).
    assert (∃ s' r, run (Pool [] [] fs (c ++ [b]) None) s' ∧ finished s' = Some r)
      as (s' & r & Hrun & Hfin).
    { eapply IH; [| reflexivity | by eapply step_consistent | done | done].
      subst n. simpl. rewrite length_app. simpl. lia. }
    exists s', r. split; [by eapply rtc_l | done].
  - assert (step (Pool [] [] fs c None) (Pool [] [] fs c (Some e))) as Hstep
      by (by apply step_raise).
    exists (Pool [] [] fs c (Some e)), (Raise e).
    split; [by apply rtc_once | done].
Qed.

(** Liveness: with at least one worker, every run can be brought to its
    end; no state of the pool is stuck. *)
Lemma run_finishes s :
  0 < W → run submit s → ∃ s' r, run s s' ∧ finished s' = Some r.
Proof.
  intros HW Hs%run_consistent.
  destruct (drain s HW Hs) as (s1 & Hrun1 & Hq & Hr & _).
  destruct (consume s1) as (s2 & r & Hrun2 & Hfin);
    [by eapply run_preserves | done | done |].
  exists s2, r. split; [by etrans | done].
Qed.
End PoolProperties.

(* ================================================================= *)
(** ** The item fetchers *)

Lemma fetch_comment_details_eq hn id :
  fetch_comment_details hn id = fetch_story_details hn id.
Proof. reflexivity. Qed.

Lemma fetch_story_details_Ok hn id v :
  fetch_story_details hn id = Ok v ↔ item hn id = Response (Json v).
Proof.
  unfold fetch_story_details.
  destruct (item hn id) as [[v'|]|]; simpl; split; congruence.
Qed.

(** C2 (amended).  For every identifier, an item fetch returns what the
    body of the response decodes to, the absent value exactly when the body
    is JSON [null]; it raises, with nothing to catch the exception, when
    the endpoint cannot be reached and when the body is not JSON.  The
    two fetchers agree. *)
Theorem fetch_details_outcome (hn : api) (id : value) :
  (∀ v, fetch_story_details hn id = Ok v ↔ item hn id = Response (Json v)) ∧
  (fetch_story_details hn id = Ok VNone ↔ item hn id = Response (Json VNone)) ∧
  (∀ e, fetch_story_details hn id = Raise e ↔
        (item hn id = Unreachable ∧ e = RequestException) ∨
        (item hn id = Response Malformed ∧ e = JSONDecodeError)) ∧
  fetch_comment_details hn id = fetch_story_details hn id.
Proof.
  unfold fetch_comment_details, fetch_story_details.
  destruct (item hn id) as [[v|]|]; simpl.
  - split_and!; [intros v'; split; congruence | split; congruence | | done].
    intros e. split; [done | by intros [[? _]|[? _]]].
  - split_and!; [intros v'; split; congruence | split; congruence | | done].
    intros e. split; [intros [= <-]; by right | by intros [[? _]|[_ ->]]].
  - split_and!; [intros v'; split; congruence | split; congruence | | done].
    intros e. split; [intros [= <-]; by left | by intros [[_ ->]|[? _]]].
Qed.

(** C2, refuted as stated: on a body that is not JSON, and on an endpoint
    out of reach, the fetch raises; the exception passes through the
    story builder. *)
Lemma fetch_details_raises :
  fetch_story_details Sample.hn_garbled (VInt 2) = Raise JSONDecodeError ∧
  fetch_comment_details Sample.hn_down (VInt 2) = Raise RequestException ∧
  Retrieving_data_about_articles Sample.hn_garbled Sample.ids 3 = Raise JSONDecodeError.
Proof. repeat split; reflexivity. Qed.

(* ================================================================= *)
(** ** Bounded concurrent retrieval *)

(** C1 (amended).  For every list of identifiers [L] and every number of
    workers [W > 0]: every run of the pool that comes to its end gives the
    caller the same outcome, whatever the order in which the workers
    finish, and every run can be brought to its end.  When every fetch
    returns, that outcome is a list as long as [L] whose [i]-th element is
    what the fetch of [L[i]] returned, the absent value included.  When a
    fetch raises, the retrieval raises the exception of the first such
    identifier in input order and returns no list. *)
Theorem retrieval_in_input_order (hn : api) (L : list value) (W : nat) :
  0 < W →
  let fetch := fetch_story_details hn in
  let run := ThreadPool.run fetch L W in
  (∀ s r, run (ThreadPool.submit L) s → ThreadPool.finished L s = Some r →
          r = executor_map fetch L) ∧
  (∀ s, run (ThreadPool.submit L) s →
        ∃ s' r, run s s' ∧ ThreadPool.finished L s' = Some r) ∧
  (∀ out, executor_map fetch L = Ok out →
          length out = length L ∧
          ∀ i id, L !! i = Some id → ∃ v, out !! i = Some v ∧ fetch id = Ok v) ∧
  (Forall (λ id, returns (fetch id)) L → returns (executor_map fetch L)) ∧
  (∀ e, executor_map fetch L = Raise e ↔
        ∃ i id, L !! i = Some id ∧ fetch id = Raise e ∧
                Forall (λ id', returns (fetch id')) (take i L)).
Proof.
  intros HW fetch run. split_and!.
  - intros s r Hrun Hfin. eapply finished_consistent; [|done].
    by eapply run_consistent.
  - intros s Hrun. by eapply run_finishes.
  - intros out Hout. split; [by eapply traverse_length|].
    intros i id Hi. by eapply traverse_lookup.
  - apply traverse_returns.
  - intros e. apply traverse_Raise.
Qed.

Lemma retrieval_in_input_order_witness :
  0 < 2 ∧
  executor_map (fetch_story_details Sample.hn) Sample.ids
  = Ok [Sample.story1; VNone; Sample.story3] ∧
  ∀ s r,
    ThreadPool.run (fetch_story_details Sample.hn) Sample.ids 2
      (ThreadPool.submit Sample.ids) s →
    ThreadPool.finished Sample.ids s = Some r →
    r = Ok [Sample.story1; VNone; Sample.story3].
Proof.
  split; [lia|]. split; [reflexivity|]. intros s r Hrun Hfin.
  destruct (retrieval_in_input_order Sample.hn Sample.ids 2) as (Hsafe & _); [lia|].
  exact (Hsafe s r Hrun Hfin).
Defined.

(** C1, refuted as stated: with item 2 out of reach the retrieval over
    [1; 2; 3] raises, although the fetches of 1 and 3 return; it gives no
    list of length 3 with a placeholder at position 1. *)
Lemma retrieval_aborts_on_failed_fetch :
  executor_map (fetch_story_details Sample.hn_down) Sample.ids = Raise RequestException ∧
  fetch_story_details Sample.hn_down (VInt 1) = Ok Sample.story1 ∧
  fetch_story_details Sample.hn_down (VInt 3) = Ok Sample.story3 ∧
  ∃ s, ThreadPool.run (fetch_story_details Sample.hn_down) Sample.ids 2
         (ThreadPool.submit Sample.ids) s ∧
       ThreadPool.finished Sample.ids s = Some (Raise RequestException).
Proof.
  split_and!; [reflexivity..|].
  destruct (run_finishes (fetch_story_details Sample.hn_down) Sample.ids 2
              (ThreadPool.submit Sample.ids)) as (s & r & Hrun & Hfin);
    [lia | apply rtc_refl |].
  exists s. split; [done|]. rewrite Hfin. f_equal.
  apply (finished_consistent (fetch_story_details Sample.hn_down) Sample.ids s r);
    [by eapply run_consistent | done].
Qed.

(* ================================================================= *)
(** ** The story table *)

Lemma slice_to_length {A} (l : list A) (n : Z) :
  (0 ≤ n)%Z → (Z.of_nat (length (slice_to l n)) ≤ n)%Z.
Proof.
  intros Hn. unfold slice_to. rewrite (proj2 (Z.leb_le 0 n) Hn).
  rewrite length_take. lia.
Qed.

Section StoryTable.
Variable hn : api.

Lemma append_stories_spec (l : list value) (acc : list story) :
  append_stories l acc =
  recs ← traverse story_record (List.filter truthy l); Ok (acc ++ recs).
Proof.
  revert acc. induction l as [|v l IH]; intros acc; simpl.
  - by rewrite app_nil_r.
  - destruct (truthy v); simpl; [|apply IH].
    destruct (story_record v) as [r|e]; simpl; [|done].
    rewrite IH. destruct (traverse story_record (List.filter truthy l)); simpl; [|done].
    by rewrite <- app_assoc.
Qed.

(** The table is the records of the fetched details that are not falsy,
    in the order of the identifiers. *)
Lemma Retrieving_data_about_articles_Ok (array : list value) (n : Z) (out : list story) :
  Retrieving_data_about_articles hn array n = Ok out ↔
  ∃ details,
    Forall2 (λ id v, fetch_story_details hn id = Ok v) (slice_to array n) details ∧
    Forall2 (λ v r, story_record v = Ok r) (List.filter truthy details) out.
Proof.
  unfold Retrieving_data_about_articles, executor_map. rewrite bind_Ok. split.
  - intros (details & Hd%traverse_Ok & Hout). rewrite append_stories_spec in Hout.
    apply bind_Ok in Hout as (recs & Hr%traverse_Ok & [= <-]). eauto.
  - intros (details & Hd%traverse_Ok & Hr%traverse_Ok). exists details.
    split; [done|]. rewrite append_stories_spec, Hr. done.
Qed.

(** The fields of a record, from the dict of the item. *)
Lemma story_record_Ok (v : value) (r : story) :
  story_record v = Ok r →
  ∃ d n, v = VDict d ∧
    py_len (default (VList []) (dict_lookup "kids" d)) = Ok n ∧
    r = Story (default VNone (dict_lookup "id" d))
              (default VNone (dict_lookup "title" d))
              (default VNone (dict_lookup "url" d))
              (default VNone (dict_lookup "score" d))
              (default VNone (dict_lookup "by" d))
              (default VNone (dict_lookup "time" d))
              (VInt n)
              (default VNone (dict_lookup "type" d))
              (default (VInt 0) (dict_lookup "descendants" d)).
Proof.
  destruct v as [| | | | |d]; try done. unfold story_record. simpl.
  destruct (py_len _) as [n|] eqn:Hn; simpl; [|done].
  intros [= <-]. by exists d, n.
Qed.

Lemma story_record_shaped (v : value) :
  item_shaped v → truthy v = true → returns (story_record v).
Proof.
  intros [->|(d & -> & Hkids)]; [done|]. intros _.
  unfold story_record. simpl.
  destruct Hkids as [->|[l ->]]; simpl; by eexists.
Qed.
End StoryTable.

Lemma Retrieving_data_about_articles_returns (hn : api) (ids : list value) (limit : Z) :
  Forall (λ id, ∃ v, fetch_story_details hn id = Ok v ∧ item_shaped v)
         (slice_to ids limit) →
  returns (Retrieving_data_about_articles hn ids limit).
Proof.
  intros Hall.
  assert (∃ details,
    Forall2 (λ id v, fetch_story_details hn id = Ok v) (slice_to ids limit) details ∧
    Forall item_shaped details) as (details & Hd & Hshaped).
  { induction Hall as [|id l (v & Hv & Hs) _ (details & Hd & Hshaped)].
    - exists []. by split.
    - exists (v :: details). split; by constructor. }
  assert (returns (traverse story_record (List.filter truthy details))) as [out Hout].
  { apply traverse_returns, Forall_forall. intros v Hv%list_elem_of_In%filter_In.
    destruct Hv as [Hv%list_elem_of_In Ht].
    apply story_record_shaped; [|done]. by eapply Forall_forall in Hshaped. }
  exists out. apply Retrieving_data_about_articles_Ok. exists details.
  split; [done|]. by apply traverse_Ok.
Qed.

(** C5 (amended).  For every identifier list [ids] and every limit: on an
    API whose answers are well formed the builder returns; whenever it
    returns, the table holds, in the order of [ids[:limit]], the records of
    the fetched details that are not absent or empty, so it is no longer
    than [ids[:limit]] and, for a limit that is not negative, no longer
    than [limit].  Each record is made from the details fetched for an
    identifier of [ids[:limit]]: its identifier is the [id] field of those
    details (the identifier itself when the API echoes it), its
    descendants are 0 when the field is missing and its comment count is
    the length of the list of child identifiers, 0 without one. *)
Theorem story_table_bounds (hn : api) (ids : list value) (limit : Z) :
  (Forall (λ id, ∃ v, fetch_story_details hn id = Ok v ∧ item_shaped v)
          (slice_to ids limit) →
   returns (Retrieving_data_about_articles hn ids limit)) ∧
  ∀ out, Retrieving_data_about_articles hn ids limit = Ok out →
    (∃ details,
       Forall2 (λ id v, fetch_story_details hn id = Ok v) (slice_to ids limit) details ∧
       Forall2 (λ v r, story_record v = Ok r) (List.filter truthy details) out) ∧
    ((0 ≤ limit)%Z → (Z.of_nat (length out) ≤ limit)%Z) ∧
    length out ≤ length (slice_to ids limit) ∧
    (∀ r, r ∈ out → ∃ id d n,
       id ∈ slice_to ids limit ∧
       fetch_story_details hn id = Ok (VDict d) ∧ d ≠ [] ∧
       s_id r = default VNone (dict_lookup "id" d) ∧
       s_descendants r = default (VInt 0) (dict_lookup "descendants" d) ∧
       py_len (default (VList []) (dict_lookup "kids" d)) = Ok n ∧
       s_comments_count r = VInt n) ∧
    (echoes_id hn → ∀ r, r ∈ out → s_id r ∈ slice_to ids limit).
Proof.
  split; [apply Retrieving_data_about_articles_returns|].
  intros out Hout.
  pose proof Hout as (details & Hd & Hr)%Retrieving_data_about_articles_Ok.
  assert (length out ≤ length (slice_to ids limit)) as Hlen.
  { rewrite <- (Forall2_length _ _ _ Hr), (Forall2_length _ _ _ Hd).
    apply filter_length_le. }
  assert (∀ r, r ∈ out → ∃ id d n,
       id ∈ slice_to ids limit ∧
       fetch_story_details hn id = Ok (VDict d) ∧ d ≠ [] ∧
       s_id r = default VNone (dict_lookup "id" d) ∧
       s_descendants r = default (VInt 0) (dict_lookup "descendants" d) ∧
       py_len (default (VList []) (dict_lookup "kids" d)) = Ok n ∧
       s_comments_count r = VInt n) as Hrec.
  { intros r [j Hj]%list_elem_of_lookup.
    destruct (Forall2_lookup_r _ _ _ _ _ Hr Hj) as (v & Hv & Hrv).
    apply list_elem_of_lookup_2, list_elem_of_In, filter_In in Hv as [Hv Ht].
    apply list_elem_of_In, list_elem_of_lookup in Hv as [k Hk].
    destruct (Forall2_lookup_r _ _ _ _ _ Hd Hk) as (id & Hid & Hfetch).
    apply story_record_Ok in Hrv as (d & n & -> & Hn & ->).
    exists id, d, n. split_and!; try done.
    - by eapply list_elem_of_lookup_2.
    - by intros ->. }
  split_and!; [by exists details | | done | done |].
  - intros Hlimit. pose proof (slice_to_length ids limit Hlimit). lia.
  - intros Hecho r (id & d & n & Hid & Hfetch & Hd' & Hrid & _)%Hrec.
    apply fetch_story_details_Ok in Hfetch.
    by rewrite Hrid, (Hecho id d Hfetch Hd').
Qed.

Lemma Sample_hn_echoes_id : echoes_id Sample.hn.
Proof.
  intros id d Hid _. destruct id as [| |z| | |]; simpl in Hid; try discriminate.
  destruct z as [|p|p]; try discriminate.
  repeat (destruct p as [p|p|]; try discriminate);
    injection Hid as <-; reflexivity.
Defined.

Lemma Sample_hn_answers_well (id : value) : answers_well Sample.hn id.
Proof.
  assert (item_shaped VNone) as H0 by (by left).
  assert (∀ d, dict_lookup "kids" d = None → item_shaped (VDict d)) as Hleaf.
  { intros d Hd. right. exists d. split; [done | by left]. }
  assert (item_shaped Sample.story1) as H1.
  { right. eexists. split; [reflexivity|]. right. by eexists. }
  unfold answers_well, fetch_story_details. simpl.
  destruct id as [| |z| | |]; simpl; try (by exists VNone).
  destruct z as [|p|p]; try (by exists VNone).
  repeat (destruct p as [p|p|]; try (by exists VNone));
    (eexists; split; [reflexivity|]); first [exact H1 | by apply Hleaf].
Defined.

Lemma story_table_bounds_witness :
  (0 ≤ 3)%Z ∧
  echoes_id Sample.hn ∧
  returns (Retrieving_data_about_articles Sample.hn Sample.ids 3) ∧
  Retrieving_data_about_articles Sample.hn Sample.ids 3 = Ok Sample.stories ∧
  (Z.of_nat (length Sample.stories) ≤ 3)%Z ∧
  ∀ r, r ∈ Sample.stories → s_id r ∈ slice_to Sample.ids 3.
Proof.
  destruct (story_table_bounds Sample.hn Sample.ids 3) as [Hret H].
  destruct (H Sample.stories eq_refl) as (_ & Hlimit & _ & _ & Hecho).
  split; [lia|]. split; [apply Sample_hn_echoes_id|].
  split; [apply Hret, Forall_forall; intros id _; apply Sample_hn_answers_well|].
  split; [reflexivity|]. split; [apply Hlimit; lia|].
  apply Hecho, Sample_hn_echoes_id.
Defined.

(** C5, refuted as stated: a negative limit keeps all identifiers but the
    last ones, so the table is longer than the limit; and the identifier of
    a record is the one in the fetched details, which an endpoint that
    answers with another item puts outside [ids[:limit]]. *)
Lemma story_table_exceeds_limit :
  Retrieving_data_about_articles Sample.hn Sample.ids (-1) = Ok [Sample.record1] ∧
  ¬ (Z.of_nat (length [Sample.record1]) ≤ -1)%Z ∧
  Retrieving_data_about_articles Sample.hn_redirect Sample.ids 2
  = Ok [Sample.record1; Sample.record3] ∧
  s_id Sample.record3 = VInt 3 ∧
  slice_to Sample.ids 2 = [VInt 1; VInt 2].
Proof. split_and!; try reflexivity. simpl. lia. Qed.

(* ================================================================= *)
(** ** The comment table *)

Section CommentTable.
Variable hn : api.

Lemma append_comments_spec (story_id : value) (l : list value) (acc : list comment) :
  append_comments story_id l acc =
  recs ← traverse (comment_record story_id) (List.filter truthy l); Ok (acc ++ recs).
Proof.
  revert acc. induction l as [|v l IH]; intros acc; simpl.
  - by rewrite app_nil_r.
  - destruct (truthy v); simpl; [|apply IH].
    destruct (comment_record story_id v) as [r|e]; simpl; [|done].
    rewrite IH.
    destruct (traverse (comment_record story_id) (List.filter truthy l)); simpl; [|done].
    by rewrite <- app_assoc.
Qed.

Lemma comment_record_parent (story_id cd : value) (c : comment) :
  comment_record story_id cd = Ok c → c_parent_story c = story_id.
Proof.
  destruct cd; try done. unfold comment_record. simpl. by intros [= <-].
Qed.

(** A story whose details are absent, or have no [kids], adds nothing. *)
Lemma story_comments_no_kids (st : story) (acc : list comment) (v : value) :
  fetch_story_details hn (s_id st) = Ok v →
  truthy v = false ∨ py_contains "kids" v = Ok false →
  story_comments hn st acc = Ok acc.
Proof.
  unfold story_comments, fetch_story_details.
  destruct (item hn (s_id st)) as [[v'|]|]; simpl; try done.
  intros [= ->] [Ht|Hc].
  - by rewrite Ht.
  - destruct (truthy v); [|done]. by rewrite Hc.
Qed.

(** One turn of the loop appends records of comments of that story. *)
Lemma story_comments_Ok (st : story) (acc out : list comment) :
  story_comments hn st acc = Ok out →
  ∃ recs, out = acc ++ recs ∧ ∀ c, c ∈ recs → comment_of_story hn st c.
Proof.
  unfold story_comments.
  destruct (item hn (s_id st)) as [[v|]|] eqn:Hitem; simpl; try done.
  assert (fetch_story_details hn (s_id st) = Ok v) as Hfetch
    by (unfold fetch_story_details; by rewrite Hitem).
  destruct (truthy v) eqn:Ht; simpl;
    [|intros [= <-]; exists []; split; [by rewrite app_nil_r | by intros ? ?%elem_of_nil]].
  destruct (py_contains "kids" v) as [[|]|] eqn:Hc; simpl; try done;
    [|intros [= <-]; exists []; split; [by rewrite app_nil_r | by intros ? ?%elem_of_nil]].
  destruct v as [| | | | |d]; try done. simpl.
  destruct (dict_lookup "kids" d) as [kids|] eqn:Hkids; simpl; [|done].
  destruct (py_iter kids) as [ids|] eqn:Hids; simpl; [|done].
  unfold executor_map.
  destruct (traverse (fetch_comment_details hn) ids) as [cds|] eqn:Hcds; simpl; [|done].
  rewrite append_comments_spec.
  intros (recs & Hrecs%traverse_Ok & [= <-])%bind_Ok.
  exists recs. split; [done|].
  intros c [j Hj]%list_elem_of_lookup.
  destruct (Forall2_lookup_r _ _ _ _ _ Hrecs Hj) as (cd & Hcd & Hrec).
  apply list_elem_of_lookup_2, list_elem_of_In, filter_In in Hcd as [Hcd Htcd].
  apply list_elem_of_In, list_elem_of_lookup in Hcd as [k Hk].
  apply traverse_Ok in Hcds.
  destruct (Forall2_lookup_r _ _ _ _ _ Hcds Hk) as (cid & Hcid & Hfc).
  exists d, kids, ids, cid, cd. split_and!; try done.
  by eapply list_elem_of_lookup_2.
Qed.

Lemma fetch_all_comments_Ok (stories : list story) (acc out : list comment) :
  fetch_all_comments hn stories acc = Ok out →
  ∃ recs, out = acc ++ recs ∧
          ∀ c, c ∈ recs → ∃ st, st ∈ stories ∧ comment_of_story hn st c.
Proof.
  revert acc. induction stories as [|st stories IH]; intros acc; simpl.
  - intros [= <-]. exists []. split; [by rewrite app_nil_r | by intros ? ?%elem_of_nil].
  - intros (acc' & (recs1 & -> & H1)%story_comments_Ok
                 & (recs2 & -> & H2)%IH)%bind_Ok.
    exists (recs1 ++ recs2). split; [by rewrite app_assoc|].
    intros c [Hc|Hc]%elem_of_app.
    + exists st. split; [by left | by apply H1].
    + destruct (H2 c Hc) as (st' & ? & ?). exists st'. split; [by right | done].
Qed.

Lemma comment_record_shaped (story_id v : value) :
  item_shaped v → truthy v = true → returns (comment_record story_id v).
Proof. intros [->|(d & -> & _)]; [done|]. intros _. by eexists. Qed.

Lemma story_comments_returns (st : story) (acc : list comment) :
  thread_answers_well hn (s_id st) → returns (story_comments hn st acc).
Proof.
  intros (v & Hfetch & Hshaped & Hkids).
  destruct (truthy v) eqn:Ht;
    [|exists acc; eapply story_comments_no_kids; eauto].
  destruct Hshaped as [->|(d & -> & Hk)]; [done|].
  destruct Hk as [Hnone|[l Hl]].
  { exists acc. eapply story_comments_no_kids; [done|]. right. simpl.
    by rewrite Hnone. }
  apply fetch_story_details_Ok in Hfetch. unfold story_comments.
  rewrite Hfetch. cbn [requests_get response_json mbind result_bind]. rewrite Ht.
  assert (py_contains "kids" (VDict d) = Ok true) as ->.
  { simpl. rewrite Hl. by rewrite bool_decide_true by (by eexists). }
  assert (py_getitem (VDict d) "kids" = Ok (VList l)) as ->
    by (simpl; by rewrite Hl).
  cbn [mbind result_bind py_iter].
  specialize (Hkids d l eq_refl Hl).
  assert (∃ cds, traverse (fetch_comment_details hn) l = Ok cds ∧
                 Forall item_shaped cds) as (cds & Hcds & Hshaped).
  { clear Hl. induction Hkids as [|cid l (cd & Hcd & Hs) _ (cds & Hcds & Hshaped)].
    - exists []. by split.
    - exists (cd :: cds). simpl. rewrite fetch_comment_details_eq, Hcd. simpl.
      rewrite Hcds. split; [done | by constructor]. }
  unfold executor_map. rewrite Hcds. simpl. rewrite append_comments_spec.
  assert (returns (traverse (comment_record (s_id st)) (List.filter truthy cds)))
    as [recs Hrecs].
  { apply traverse_returns, Forall_forall. intros cd Hcd%list_elem_of_In%filter_In.
    destruct Hcd as [Hcd%list_elem_of_In Htcd].
    apply comment_record_shaped; [|done]. by eapply Forall_forall in Hshaped. }
  rewrite Hrecs. by eexists.
Qed.

Lemma Fetching_responses_to_top_stories_returns (stories : list story) :
  Forall (λ st, thread_answers_well hn (s_id st)) stories →
  returns (Fetching_responses_to_top_stories hn stories).
Proof.
  unfold Fetching_responses_to_top_stories. intros Hall. generalize (@nil comment).
  induction Hall as [|st stories Hst _ IH]; intros acc; simpl; [by eexists|].
  destruct (story_comments_returns st acc Hst) as [acc' ->]. simpl. apply IH.
Qed.
End CommentTable.

(** C6.  The comment builder returns on an API whose answers are well
    formed.  Whenever it returns, every comment record comes from the
    child-comment list of the details of one of the stories passed in and
    its parent-story field is the identifier of that story, hence one of
    the identifiers of the story table; and a story whose details are
    absent or have no list of child identifiers adds no record. *)
Theorem comment_parent_in_story_table (hn : api) (stories : list story) :
  (Forall (λ st, thread_answers_well hn (s_id st)) stories →
   returns (Fetching_responses_to_top_stories hn stories)) ∧
  (∀ out, Fetching_responses_to_top_stories hn stories = Ok out →
     ∀ c, c ∈ out →
       c_parent_story c ∈ map s_id stories ∧
       ∃ st, st ∈ stories ∧ c_parent_story c = s_id st ∧ comment_of_story hn st c) ∧
  (∀ st acc v,
     fetch_story_details hn (s_id st) = Ok v →
     truthy v = false ∨ py_contains "kids" v = Ok false →
     story_comments hn st acc = Ok acc).
Proof.
  split_and!.
  - apply Fetching_responses_to_top_stories_returns.
  - intros out (recs & -> & Hrecs)%fetch_all_comments_Ok c Hc.
    destruct (Hrecs c Hc) as (st & Hst & Hof).
    assert (c_parent_story c = s_id st) as Hparent.
    { destruct Hof as (? & ? & ? & ? & cd & _ & _ & _ & _ & _ & _ & Hrec).
      by eapply comment_record_parent. }
    split; [|by exists st].
    rewrite Hparent. apply list_elem_of_fmap. by exists st.
  - apply story_comments_no_kids.
Qed.

Lemma Sample_stories_answer_well :
  Forall (λ st, thread_answers_well Sample.hn (s_id st)) Sample.stories.
Proof.
  apply Forall_forall. intros st _.
  destruct (Sample_hn_answers_well (s_id st)) as (v & Hv & Hs).
  exists v. split_and!; [done..|]. intros d l _ _.
  apply Forall_forall. intros id _. apply Sample_hn_answers_well.
Defined.

Lemma comment_parent_in_story_table_witness :
  Forall (λ st, thread_answers_well Sample.hn (s_id st)) Sample.stories ∧
  returns (Fetching_responses_to_top_stories Sample.hn Sample.stories) ∧
  Fetching_responses_to_top_stories Sample.hn Sample.stories = Ok Sample.comments ∧
  (∀ c, c ∈ Sample.comments → c_parent_story c ∈ map s_id Sample.stories) ∧
  story_comments Sample.hn Sample.record3 [] = Ok [].
Proof.
  destruct (comment_parent_in_story_table Sample.hn Sample.stories)
    as (Hret & Hparent & Hnone).
  split; [apply Sample_stories_answer_well|].
  split; [apply Hret, Sample_stories_answer_well|].
  split; [reflexivity|]. split.
  - intros c Hc. by apply (Hparent Sample.comments eq_refl c Hc).
  - apply (Hnone Sample.record3 [] Sample.story3); [reflexivity | by right].
Defined.

(* ================================================================= *)
(** ** The link statistics *)

Lemma lookup_column_elem (name : string) (cols : list (string * column)) (c : column) :
  lookup_column name cols = Some c → ∃ n, (n, c) ∈ cols.
Proof.
  induction cols as [|[n c'] cols IH]; simpl; [done|].
  destruct (String.eqb n name).
  - intros [= ->]. exists n. by left.
  - intros [n' ?]%IH. exists n'. by right.
Qed.

Lemma notna_length (c : column) : length (notna c) = column_length c.
Proof. destruct c; unfold column_length; simpl; by rewrite !length_map. Qed.

Lemma sum_true_bounds (l : list bool) : (0 ≤ sum_true l ≤ Z.of_nat (length l))%Z.
Proof. unfold sum_true. pose proof (length_filter (λ b, b = true) l). lia. Qed.

(** The count of external links of a well-formed frame is at most its
    number of rows. *)
Lemma external_links_bounds (df : frame) (url : column) :
  frame_wf df → df_col df "url" = Ok url →
  (0 ≤ sum_true (notna url) ≤ Z.of_nat (nrows df))%Z.
Proof.
  intros Hwf Hurl. unfold df_col in Hurl.
  destruct (lookup_column "url" (columns df)) as [c|] eqn:Hc; [|done].
  injection Hurl as ->. apply lookup_column_elem in Hc as [n Hn].
  pose proof (proj1 (Forall_forall _ _) Hwf _ Hn) as Hlen. simpl in Hlen.
  pose proof (sum_true_bounds (notna url)) as Hb.
  rewrite notna_length, Hlen in Hb. done.
Qed.

(** C3 (amended).  On a story table without rows the analysis fails, but
    not at the percentage computations: those of lines 224-227 return, the
    division of the count 0 by the length 0 being a floating-point
    division, and both percentages are NaN.  The failure is that of the
    pie chart of lines 228-232, which gets the two counts 0 and has no
    wedge to draw: whatever the analysis does before, it ends there, or
    earlier, with an exception, and nothing of what follows is run, the
    writing of the metrics file included.  The code has no check of the
    precondition. *)
Theorem link_statistics_no_rows (stories_df : frame) :
  frame_wf stories_df →
  nrows stories_df = 0 →
  returns (df_col stories_df "url") →
  link_statistics (N:=binary64) stories_df = Ok (S754_nan, S754_nan) ∧
  link_distribution stories_df = Raise ValueError ∧
  ∀ (before : io unit) (after : binary64 * binary64 → io unit) (fs : files),
    Data_analysis_and_statistics before after stories_df fs =
    match before fs with
    | (Ok _, fs') => (Raise ValueError, fs')
    | (Raise e, fs') => (Raise e, fs')
    end.
Proof.
  intros Hwf Hn [url Hurl].
  pose proof (external_links_bounds _ _ Hwf Hurl) as Hb.
  assert (sum_true (notna url) = 0%Z) as Hzero by (rewrite Hn in Hb; lia).
  assert (link_statistics (N:=binary64) stories_df = Ok (S754_nan, S754_nan)) as Hstats.
  { unfold link_statistics. rewrite Hurl. simpl. by rewrite Hn, Hzero. }
  assert (link_distribution stories_df = Raise ValueError) as Hchart.
  { unfold link_distribution. rewrite Hurl. simpl. by rewrite Hn, Hzero. }
  split_and!; [done..|].
  intros before after fs. unfold Data_analysis_and_statistics, lift.
  unfold mbind at 1 2, io_bind. destruct (before fs) as [[[]|e] fs']; [|done].
  by rewrite Hstats, Hchart.
Qed.

Lemma Sample_no_stories_df_wf : frame_wf Sample.no_stories_df.
Proof. repeat constructor. Defined.

Lemma link_statistics_no_rows_witness :
  frame_wf Sample.no_stories_df ∧
  nrows Sample.no_stories_df = 0 ∧
  df_col Sample.no_stories_df "url" = Ok (Object []) ∧
  link_statistics (N:=binary64) Sample.no_stories_df = Ok (S754_nan, S754_nan) ∧
  link_distribution Sample.no_stories_df = Raise ValueError ∧
  link_distribution Sample.two_stories_df = Ok () ∧
  ∀ (after : binary64 * binary64 → io unit) (fs : files),
    Data_analysis_and_statistics (mret ()) after Sample.no_stories_df fs
    = (Raise ValueError, fs).
Proof.
  destruct (link_statistics_no_rows Sample.no_stories_df Sample_no_stories_df_wf
              eq_refl (ex_intro _ (Object []) eq_refl)) as (Hstats & Hchart & Hrun).
  split; [apply Sample_no_stories_df_wf|]. split; [reflexivity|].
  split; [reflexivity|]. split; [exact Hstats|]. split; [exact Hchart|].
  split; [reflexivity|]. intros after fs. exact (Hrun (mret ()) after fs).
Defined.

(** C3, refuted as stated: for an empty list of identifiers the story
    table, its file and the frame read from it have no rows, and the
    percentage computations, where the claim has the failure, return,
    with NaN for both percentages. *)
Lemma link_statistics_no_rows_returns :
  Retrieving_data_about_articles Sample.hn [] 20 = Ok [] ∧
  read_csv int_literal Sample.no_stories "top_stories.csv" = Ok Sample.no_stories_df ∧
  link_statistics (N:=binary64) Sample.no_stories_df = Ok (S754_nan, S754_nan).
Proof. split_and!; [reflexivity | vm_compute; reflexivity | reflexivity]. Qed.

(** On tables of up to 100 rows the binary64 percentages add up to 100
    within one unit in the last place. *)
Lemma percentages_binary64_near_hundred (n k : nat) :
  1 ≤ n ≤ 100 → k ≤ n →
  near_hundred
    (num_add (percentage (Z.of_nat k) (Z.of_nat n))
             (percentage (Z.of_nat n - Z.of_nat k) (Z.of_nat n))) = true.
Proof.
  intros Hn Hk.
  assert (forallb (λ n, forallb (λ k,
            near_hundred
              (num_add (percentage (Z.of_nat k) (Z.of_nat n))
                       (percentage (Z.of_nat n - Z.of_nat k) (Z.of_nat n))))
            (seq 0 (S n))) (seq 1 100) = true) as Hall
    by (vm_compute; reflexivity).
  rewrite forallb_forall in Hall.
  assert (In n (seq 1 100)) as Hin by (apply in_seq; lia).
  specialize (Hall n Hin). rewrite forallb_forall in Hall.
  apply Hall, in_seq. lia.
Qed.

(** C7.  For every story table with at least one row, the external-link
    percentage and the self-post percentage are computed whenever the
    table has a [url] column, and their exact values add up to 100; so do
    the binary64 values, within one unit in the last place, on the
    well-formed tables of up to 100 rows. *)
Theorem link_percentages_sum_to_100 (stories_df : frame) :
  0 < nrows stories_df →
  (returns (df_col stories_df "url") → returns (link_statistics (N:=Q) stories_df)) ∧
  (∀ e s : Q, link_statistics stories_df = Ok (e, s) → (e + s == 100)%Q) ∧
  (frame_wf stories_df → nrows stories_df ≤ 100 →
   ∀ e s : binary64, link_statistics stories_df = Ok (e, s) →
                     near_hundred (num_add e s) = true).
Proof.
  intros Hn. unfold link_statistics. split_and!.
  - intros [url ->]. by eexists.
  - intros e s. destruct (df_col stories_df "url") as [url|]; simpl; [|done].
    intros [= <- <-]. unfold percentage. simpl.
    unfold Z.sub. rewrite inject_Z_plus, inject_Z_opp.
    assert (¬ (inject_Z (Z.of_nat (nrows stories_df)) == 0)%Q) as Hne.
    { change 0%Q with (inject_Z 0). rewrite inject_Z_injective. lia. }
    change (inject_Z 100) with 100%Q. field. exact Hne.
  - intros Hwf Hle e s.
    destruct (df_col stories_df "url") as [url|] eqn:Hurl; simpl; [|done].
    intros [= <- <-].
    pose proof (external_links_bounds _ _ Hwf Hurl) as Hb.
    rewrite <- (Z2Nat.id (sum_true (notna url))) by lia.
    apply percentages_binary64_near_hundred; lia.
Qed.

Lemma Sample_two_stories_df_wf : frame_wf Sample.two_stories_df.
Proof. repeat constructor. Defined.

Lemma link_percentages_sum_to_100_witness :
  0 < nrows Sample.two_stories_df ∧
  link_statistics (N:=Q) Sample.two_stories_df = Ok ((100 # 2)%Q, (100 # 2)%Q) ∧
  ((100 # 2) + (100 # 2) == 100)%Q ∧
  link_statistics (N:=binary64) Sample.two_stories_df = Ok (of_Z 50, of_Z 50) ∧
  near_hundred (num_add (of_Z 50) (of_Z 50)) = true.
Proof.
  destruct (link_percentages_sum_to_100 Sample.two_stories_df) as (_ & Hq & Hf);
    [simpl; lia|].
  split; [simpl; lia|]. split; [reflexivity|].
  split; [apply Hq; reflexivity|]. split; [reflexivity|].
  apply Hf; [apply Sample_two_stories_df_wf | simpl; lia | reflexivity].
Defined.

(* ================================================================= *)
(** ** The comment statistics *)

(** [astype(str)] leaves no missing value behind: the [fillna] that
    follows it finds nothing to fill. *)
Lemma fillna_astype_str (fill : string) (text : column) :
  fillna fill (astype_str text) = astype_str text.
Proof.
  unfold fillna. destruct text as [l|l|l]; simpl; rewrite map_map; by apply map_ext.
Qed.

(** The length of a comment that has a text is the length of the text; a
    comment without text is measured by the three letters of ['nan']. *)
Lemma comment_length_Object (texts : list (option string)) :
  comment_length (Object texts) =
  map (λ o, Some (match o with
                  | Some s => Z.of_nat (String.length s)
                  | None => 3%Z
                  end)) texts.
Proof.
  unfold comment_length, str_len, fillna. simpl. rewrite !map_map.
  apply map_ext. by intros [s|].
Qed.

(** C4, on the comments of the sample: the deleted comment has no text, its
    field in the file is empty and is read back as missing, and its
    [comment_length] is 3, not 0. *)
Theorem comment_length_absent_text :
  Fetching_responses_to_top_stories Sample.hn Sample.stories = Ok Sample.comments ∧
  read_csv int_literal Sample.two_comments "comments.csv" = Ok Sample.two_comments_df ∧
  df_col Sample.two_comments_df "text"
  = Ok (Object [Some "check http://example.com"; None]) ∧
  comment_length (Object [Some "check http://example.com"; None])
  = [Some 24%Z; Some 3%Z] ∧
  comment_statistics Sample.compound Sample.two_comments_df
  = Ok (Some ([Some 24%Z; Some 3%Z], [float_zero; float_zero], [Neutral; Neutral])).
Proof. split_and!; [reflexivity | vm_compute; reflexivity | reflexivity..]. Qed.

(** ** Sentiment labels *)

Lemma label_of_Positive (x : binary64) :
  label_of x = Positive ↔ SFltb float_zero x = true.
Proof.
  unfold label_of. destruct (SFltb float_zero x); [done|].
  split; [|done]. by destruct (SFltb x float_zero).
Qed.

Lemma label_of_Negative (x : binary64) :
  label_of x = Negative ↔ SFltb x float_zero = true.
Proof.
  unfold label_of. destruct x as [[|]|[|]| |[|] m e]; by compute.
Qed.

Lemma label_of_Neutral (x : binary64) :
  is_nan x = false → label_of x = Neutral ↔ SFeqb x float_zero = true.
Proof.
  unfold label_of. destruct x as [[|]|[|]| |[|] m e]; by compute.
Qed.

(** A NaN is neither above, below nor equal to zero, and is labelled
    Neutral; the scores of the lexicon are in [-1, 1], so none is a NaN. *)
Lemma label_of_nan :
  label_of S754_nan = Neutral ∧ SFeqb S754_nan float_zero = false.
Proof. by compute. Qed.

Lemma in_range_not_nan (x : binary64) :
  SFleb (of_Z (-1)) x = true → SFleb x (of_Z 1) = true → is_nan x = false.
Proof. by destruct x. Qed.

(** C8.  With a lexicon whose compound score is a number, which those in
    [-1, 1] are, every comment has a score, and its label is Positive
    exactly when the score is above zero, Negative exactly when it is
    below and Neutral exactly when it equals zero; the label is a function
    of the score. *)
Theorem sentiment_label_by_sign (compound : string → binary64) (text : string) :
  (∀ s, is_nan (compound s) = false) →
  ∃ x, sentiment_of compound (Some text) = Ok x ∧
       (label_of x = Positive ↔ SFltb float_zero x = true) ∧
       (label_of x = Negative ↔ SFltb x float_zero = true) ∧
       (label_of x = Neutral ↔ SFeqb x float_zero = true).
Proof.
  intros Hc. eexists. split; [reflexivity|].
  split_and!; [apply label_of_Positive | apply label_of_Negative |].
  apply label_of_Neutral. destruct (String.eqb text ""); [done | apply Hc].
Qed.

Lemma Sample_compound_not_nan (s : string) : is_nan (Sample.compound s) = false.
Proof.
  unfold Sample.compound.
  destruct (str_contains "great" s); [done|]. by destruct (str_contains "awful" s).
Defined.

Lemma sentiment_label_by_sign_witness :
  (∀ s, is_nan (Sample.compound s) = false) ∧
  ∃ x, sentiment_of Sample.compound (Some "a great read") = Ok x ∧
       (label_of x = Positive ↔ SFltb float_zero x = true) ∧
       (label_of x = Negative ↔ SFltb x float_zero = true) ∧
       (label_of x = Neutral ↔ SFeqb x float_zero = true).
Proof.
  split; [apply Sample_compound_not_nan|].
  apply (sentiment_label_by_sign Sample.compound "a great read"),
    Sample_compound_not_nan.
Defined.

Example sentiment_labels_of_sample :
  comment_statistics Sample.compound
    (Frame 3 [("text", Object [Some "a great read"; Some "awful"; Some "ok"])])
  = Ok (Some ([Some 12%Z; Some 5%Z; Some 2%Z],
              [binary_normalize 53 1024 3 (-2) false;
               binary_normalize 53 1024 (-3) (-2) false; float_zero],
              [Positive; Negative; Neutral])).
Proof. reflexivity. Qed.

(* ================================================================= *)
(** ** Files written and read back *)

Section ReadingBack.
Variable container_repr : value → string.
Variable to_numeric : string → option Z.

(** The frame of a file that [write_rows] wrote, when every row has a
    value for every field name. *)
Lemma parse_csv_write_rows (fieldnames : list string) (rows : list (list value)) :
  fieldnames ≠ [] →
  Forall (λ r, length r = length fieldnames) rows →
  parse_csv to_numeric (write_rows container_repr fieldnames rows) =
  Ok (Frame (length rows)
        (imap (λ j name,
           (name, infer_column to_numeric
                    (map (λ r, nth j r "") (map (map (csv_field container_repr)) rows))))
           fieldnames)).
Proof.
  intros Hne Hrows. unfold parse_csv, write_rows. simpl.
  destruct fieldnames as [|name fieldnames]; [done|].
  rewrite length_map.
  destruct (existsb _ _) eqn:Hlong; [|done].
  apply existsb_exists in Hlong as (r & Hr & Hlt).
  apply in_map_iff in Hr as (r' & <- & Hr'%list_elem_of_In).
  apply (proj1 (Forall_forall _ _) Hrows) in Hr'.
  rewrite length_map, Hr', Nat.ltb_irrefl in Hlt. done.
Qed.

Lemma read_csv_top_stories (articles : list story) (fs : files) :
  returns (read_csv to_numeric
             (Saving_data_in_a_csv_file container_repr articles "" "top_stories" fs)
             "top_stories.csv").
Proof.
  unfold read_csv, Saving_data_in_a_csv_file.
  change ("" +:+ "top_stories" +:+ ".csv") with "top_stories.csv".
  rewrite lookup_insert_eq, parse_csv_write_rows; [by eexists | done |].
  apply Forall_forall. by intros r (st & -> & _)%list_elem_of_fmap.
Qed.
End ReadingBack.

(* ================================================================= *)
(** ** The orchestrator *)

(** C10.  In a run whose comment builder returns the empty list, the
    comment file is not written: at the reload it is what it was before the
    run.  The reload is unconditional: it fails when there is no such
    file, and otherwise the analysis gets the frame of the file that an
    earlier run left. *)
Theorem stale_comment_file_is_analysed
    (hn : api) (container_repr : value → string) (to_numeric : string → option Z)
    (analysis : frame → frame → io unit) (n : Z) (fs : files)
    (ids : list value) (articles : list story) :
  (response ← requests_get (topstories hn); v ← response_json response; sliceable v)
  = Ok ids →
  Retrieving_data_about_articles hn ids n = Ok articles →
  Fetching_responses_to_top_stories hn articles = Ok [] →
  let fs' := Saving_data_in_a_csv_file container_repr articles "" "top_stories" fs in
  fs' !! "comments.csv" = fs !! "comments.csv" ∧
  ∃ stories_df,
    read_csv to_numeric fs' "top_stories.csv" = Ok stories_df ∧
    Data_collection_and_analysis_from_Hacker_News hn container_repr to_numeric analysis n fs
    = match fs !! "comments.csv" with
      | None => (Raise FileNotFoundError, fs')
      | Some stale =>
          match parse_csv to_numeric stale with
          | Ok comments_df => analysis stories_df comments_df fs'
          | Raise e => (Raise e, fs')
          end
      end.
Proof.
  intros Hids Harticles Hcomments fs'.
  assert (fs' !! "comments.csv" = fs !! "comments.csv") as Hsame.
  { unfold fs', Saving_data_in_a_csv_file.
    change ("" +:+ "top_stories" +:+ ".csv") with "top_stories.csv".
    by rewrite lookup_insert_ne. }
  split; [done|].
  destruct (read_csv_top_stories container_repr to_numeric articles fs)
    as [stories_df Hdf].
  exists stories_df. split; [done|].
  unfold Data_collection_and_analysis_from_Hacker_News, pd_read_csv, lift, modify.
  unfold mbind at 1 2 3 4 5 6 7, io_bind.
  rewrite Hids, Harticles, Hcomments. fold fs'. unfold mret, io_ret.
  fold fs' in Hdf. rewrite Hdf. unfold read_csv at 1. rewrite Hsame.
  destruct (fs !! "comments.csv") as [stale|]; [|done].
  by destruct (parse_csv to_numeric stale).
Qed.

Lemma stale_comment_file_is_analysed_witness :
  Fetching_responses_to_top_stories Sample.hn_quiet [Sample.record3] = Ok [] ∧
  (Data_collection_and_analysis_from_Hacker_News
     Sample.hn_quiet Sample.repr int_literal Sample.analysis 20 ∅).1
  = Raise FileNotFoundError ∧
  ∃ stories_df,
    Data_collection_and_analysis_from_Hacker_News
      Sample.hn_quiet Sample.repr int_literal Sample.analysis 20 Sample.two_comments
    = Sample.analysis stories_df Sample.two_comments_df
        (Saving_data_in_a_csv_file Sample.repr [Sample.record3] "" "top_stories"
           Sample.two_comments).
Proof.
  split; [reflexivity|]. split.
  - destruct (stale_comment_file_is_analysed Sample.hn_quiet Sample.repr int_literal
                Sample.analysis 20 ∅ [VInt 3] [Sample.record3]
                eq_refl eq_refl eq_refl) as (_ & stories_df & _ & ->).
    reflexivity.
  - destruct (stale_comment_file_is_analysed Sample.hn_quiet Sample.repr int_literal
                Sample.analysis 20 Sample.two_comments [VInt 3] [Sample.record3]
                eq_refl eq_refl eq_refl) as (_ & stories_df & _ & ->).
    exists stories_df. reflexivity.
Defined.

(* ================================================================= *)
(** ** The round trip through a file *)

Lemma string_of_uint_digits (d : Decimal.uint) :
  forallb numeral_char (list_ascii_of_string (NilEmpty.string_of_uint d)) = true.
Proof. induction d; simpl; by rewrite ?IHd. Qed.

Lemma numeral_string_of_uint (d : Decimal.uint) :
  numeral (NilZero.string_of_uint d) = true.
Proof.
  unfold numeral. apply andb_true_iff. split.
  - by destruct d.
  - destruct d; try apply (string_of_uint_digits (_ _)). reflexivity.
Qed.

Lemma numeral_str_of_Z (z : Z) : numeral (str_of_Z z) = true.
Proof.
  unfold str_of_Z. destruct (Z.to_int z) as [d|d]; simpl.
  - apply numeral_string_of_uint.
  - pose proof (numeral_string_of_uint d) as [_ Hd]%andb_true_iff.
    unfold numeral. simpl. by rewrite Hd.
Qed.

(** No missing-value marker is a string of digits and minus signs. *)
Lemma numeral_not_na (s : string) : numeral s = true → is_na s = false.
Proof.
  intros Hs. destruct (is_na s) eqn:Hna; [|done].
  apply existsb_exists in Hna as (x & Hx & ->%String.eqb_eq).
  simpl in Hx. repeat (destruct Hx as [<-|Hx]; [by vm_compute in Hs|]). done.
Qed.

Lemma str_of_Z_not_na (z : Z) : is_na (str_of_Z z) = false.
Proof. apply numeral_not_na, numeral_str_of_Z. Qed.

Lemma int_literal_str_of_Z (z : Z) : int_literal (str_of_Z z) = Some z.
Proof.
  unfold int_literal, str_of_Z. rewrite NilZero.isi.
  - simpl. by rewrite DecimalZ.of_to.
  - destruct z as [|p|p]; try done. simpl. intros [= Hp].
    by apply DecimalPos.Unsigned.to_uint_nonnil in Hp.
  - destruct z as [|p|p]; try done. simpl. intros [= Hp].
    by apply DecimalPos.Unsigned.to_uint_nonnil in Hp.
Qed.

Lemma lookup_map {A B} (f : A → B) (l : list A) (i : nat) :
  map f l !! i = f <$> l !! i.
Proof. exact (list_lookup_fmap f l i). Qed.

Lemma imap_fst {A B} (g : nat → A → B) (l : list A) :
  map fst (imap (λ j a, (a, g j a)) l) = l.
Proof.
  revert g. induction l as [|a l IH]; intros g; simpl; [done|].
  f_equal. apply (IH (λ j, g (S j))).
Qed.

(** The decimal literals have no character but digits and the minus
    sign, so a text with another character is none. *)
Lemma numeral_string_of_int (d : Decimal.int) :
  forallb numeral_char (list_ascii_of_string (NilZero.string_of_int d)) = true.
Proof.
  destruct d as [d|d]; simpl.
  - by pose proof (numeral_string_of_uint d) as [_ Hd]%andb_true_iff.
  - by pose proof (numeral_string_of_uint d) as [_ Hd]%andb_true_iff.
Qed.

Lemma numeral_char_literal (a : ascii) : numeral_char a = true → literal_char a = true.
Proof.
  unfold numeral_char. intros (x & Hx & ->%Ascii.eqb_eq)%existsb_exists.
  simpl in Hx. repeat (destruct Hx as [<-|Hx]; [reflexivity|]). done.
Qed.

Lemma int_literal_wordy (s : string) : wordy s = true → int_literal s = None.
Proof.
  intros (a & Ha & Hlit)%existsb_exists. unfold int_literal.
  destruct (NilZero.int_of_string s) as [d|] eqn:Hd; [|done].
  apply NilZero.sis in Hd. subst s.
  pose proof (numeral_string_of_int d) as Hall.
  rewrite forallb_forall in Hall. apply Hall, numeral_char_literal in Ha.
  by rewrite Ha in Hlit.
Qed.

Section RoundTrip.
Variable container_repr : value → string.
Variable to_numeric : string → option Z.
(** What is used of the reader's numeric literals: the integers that
    [str] prints are read as they are, and a text with a character that
    no literal has is not read as a number. *)
Hypothesis to_numeric_int :
  ∀ z, (Z.abs z ≤ 2 ^ 53)%Z → to_numeric (str_of_Z z) = Some z.
Hypothesis to_numeric_wordy : ∀ s, wordy s = true → to_numeric s = None.

Local Abbreviation field := (csv_field container_repr).
Local Abbreviation infer := (infer_column to_numeric).

(** How [pd.read_csv] takes the field written for a value. *)
Lemma numeric_cell_absent (v : value) :
  absent v = true →
  (v = VNone ∨ v = VStr "") ∧ numeric_cell to_numeric (field v) = Some None ∧
  is_na (field v) = true.
Proof.
  destruct v as [| | |s| |]; simpl; try done.
  - intros _. split_and!; [by left | done..].
  - intros ->%String.eqb_eq. split_and!; [by right | done..].
Qed.

Lemma numeric_cell_int (v : value) :
  exact_int v = true →
  ∃ z, v = VInt z ∧ numeric_cell to_numeric (field v) = Some (Some z).
Proof.
  destruct v as [| |z| | |]; simpl; try done.
  intros Hz%Z.leb_le. exists z. split; [done|]. unfold numeric_cell.
  by rewrite str_of_Z_not_na, to_numeric_int.
Qed.

Lemma numeric_cell_text (v : value) :
  text_value v = true →
  ∃ s, v = VStr s ∧ numeric_cell to_numeric (field v) = None ∧ is_na s = false.
Proof.
  destruct v as [| | |s| |]; simpl; try done. unfold clean_text.
  intros [[[Hna%negb_true_iff Hw]%andb_true_iff _]%andb_true_iff _]%andb_true_iff.
  exists s. split_and!; [done | | done]. unfold numeric_cell.
  by rewrite Hna, to_numeric_wordy.
Qed.

Lemma infer_column_cons (f : string) (fs : list string) :
  infer (f :: fs) =
  match mapM (numeric_cell to_numeric) (f :: fs) with
  | Some nums =>
      match mapM id nums with
      | Some ints => Int64 ints
      | None => Float64 nums
      end
  | None => Object (map (λ s, if is_na s then None else Some s) (f :: fs))
  end.
Proof. reflexivity. Qed.

(** Every field of a column of integers is a number or missing. *)
Lemma int_column_numeric (vs : list value) :
  forallb (λ v, absent v || exact_int v) vs = true →
  is_Some (mapM (numeric_cell to_numeric) (map field vs)).
Proof.
  induction vs as [|v vs IH]; simpl; [by eexists|].
  intros [Hv [nums Hnums]%IH]%andb_true_iff. rewrite Hnums.
  apply orb_true_iff in Hv as [(_ & -> & _)%numeric_cell_absent
                              |(z & _ & ->)%numeric_cell_int]; by eexists.
Qed.

(** Every value of a column of integers, or of texts, is read back as a
    cell that agrees with it. *)
Lemma infer_column_agrees (vs : list value) (i : nat) (v : value) :
  uniform_column vs = true →
  vs !! i = Some v →
  ∃ c, column_cells (infer (map field vs)) !! i = Some c ∧ agrees v c.
Proof.
  intros Huni Hv.
  assert (absent v = true ∨ exact_int v = true ∨ text_value v = true) as Hcase.
  { apply orb_true_iff in Huni as [Hall|Hall]; rewrite forallb_forall in Hall;
      specialize (Hall v (proj1 (list_elem_of_In _ _) (list_elem_of_lookup_2 _ _ _ Hv)));
      apply orb_true_iff in Hall; tauto. }
  assert (map field vs !! i = Some (field v)) as Hf
    by (by rewrite lookup_map, Hv).
  destruct (map field vs) as [|f fs] eqn:Hfs; [done|].
  rewrite infer_column_cons. rewrite <- Hfs in *. clear Hfs f fs.
  destruct (mapM (numeric_cell to_numeric) (map field vs)) as [nums|] eqn:Hnums.
  - apply mapM_Some in Hnums.
    destruct (Forall2_lookup_l _ _ _ _ _ Hnums Hf) as (o & Ho & Hcell).
    destruct (mapM id nums) as [ints|] eqn:Hints.
    + apply mapM_Some in Hints.
      destruct (Forall2_lookup_l _ _ _ _ _ Hints Ho) as (z & Hz & Hoz).
      simpl in Hoz. subst o. exists (IntCell z). split.
      { unfold column_cells. by rewrite lookup_map, Hz. }
      destruct Hcase as [(_ & Hn & _)%numeric_cell_absent
                        |[(z' & -> & Hn)%numeric_cell_int
                         |(s & -> & Hn & _)%numeric_cell_text]];
        rewrite Hn in Hcell; by simplify_eq.
    + exists (match o with Some z => FloatCell z | None => NaN end). split.
      { unfold column_cells. by rewrite lookup_map, Ho. }
      destruct Hcase as [([->| ->] & Hn & _)%numeric_cell_absent
                        |[(z' & -> & Hn)%numeric_cell_int
                         |(s & -> & Hn & _)%numeric_cell_text]];
        rewrite Hn in Hcell; by simplify_eq.
  - exists (if is_na (field v) then NaN else StrCell (field v)). split.
    { unfold column_cells. rewrite 2!lookup_map, Hf. simpl.
      by destruct (is_na (field v)). }
    destruct Hcase as [([->| ->] & _ & Hna)%numeric_cell_absent
                      |[Hint|(s & -> & _ & Hna)%numeric_cell_text]].
    + by rewrite Hna.
    + by rewrite Hna.
    + exfalso. apply orb_true_iff in Huni as [Hall|Hall].
      * apply int_column_numeric in Hall as [nums Hall]. congruence.
      * rewrite forallb_forall in Hall.
        specialize (Hall v (proj1 (list_elem_of_In _ _)
                              (list_elem_of_lookup_2 _ _ _ Hv))).
        by destruct v.
    + simpl. by rewrite Hna.
Qed.

(** The round trip of a table of such columns: the frame read from the
    file has the rows of the table, the columns of the header, and in
    every place a cell that agrees with the value that was written. *)
Lemma write_rows_round_trip (fieldnames : list string) (rows : list (list value)) :
  fieldnames ≠ [] →
  Forall (λ r, length r = length fieldnames) rows →
  uniform_table (length fieldnames) rows = true →
  ∃ df, parse_csv to_numeric (write_rows container_repr fieldnames rows) = Ok df ∧
        nrows df = length rows ∧
        map fst (columns df) = fieldnames ∧
        ∀ i j row v, rows !! i = Some row → row !! j = Some v →
                     ∃ c, frame_cell df j i = Some c ∧ agrees v c.
Proof.
  intros Hne Hwidth Huni. eexists. split; [by apply parse_csv_write_rows|].
  split; [done|]. split.
  { simpl. apply imap_fst. }
  intros i j row v Hrow Hv. unfold frame_cell. simpl.
  pose proof (proj1 (Forall_forall _ _) Hwidth row (list_elem_of_lookup_2 _ _ _ Hrow))
    as Hlen.
  assert (j < length fieldnames) as Hj
    by (rewrite <- Hlen; by eapply lookup_lt_Some).
  destruct (proj2 (lookup_lt_is_Some fieldnames j) Hj) as [name Hname].
  rewrite list_lookup_imap, Hname. simpl.
  assert (map (λ r, nth j r "") (map (map field) rows) = map field (table_column j rows))
    as ->.
  { unfold table_column. rewrite !map_map. apply map_ext_in.
    intros r Hr%list_elem_of_In.
    apply (proj1 (Forall_forall _ _) Hwidth) in Hr.
    rewrite <- (length_map field) in Hr.
    rewrite (nth_indep _ "" (field VNone)) by (rewrite Hr; by eapply lookup_lt_Some).
    apply map_nth. }
  apply infer_column_agrees.
  - unfold uniform_table in Huni. rewrite forallb_forall in Huni.
    apply Huni, in_seq. lia.
  - unfold table_column. rewrite lookup_map, Hrow. simpl. f_equal.
    by apply nth_lookup_Some with (d := VNone) in Hv.
Qed.
End RoundTrip.

(** C9 (amended).  For every story table and every comment table in which
    each column holds integers that a float holds exactly, or holds texts
    that [pd.read_csv] reads as they are (no missing-value marker, no
    numeric literal, no boolean, no NUL), with absent values in either:
    the file written by the persistence operation is read back as a frame
    with the row count of the table and the columns of the header, in
    which every value agrees with the one written (a number as that
    number, a text as itself, an absent or empty field as a missing
    value). *)
Theorem tables_round_trip
    (container_repr : value → string) (to_numeric : string → option Z)
    (stories : list story) (comments : list comment) (fs : files) :
  (∀ z, (Z.abs z ≤ 2 ^ 53)%Z → to_numeric (str_of_Z z) = Some z) →
  (∀ s, wordy s = true → to_numeric s = None) →
  uniform_table (length story_fieldnames) (map story_values stories) = true →
  uniform_table (length comment_fieldnames) (map comment_values comments) = true →
  (∃ df,
     read_csv to_numeric
       (Saving_data_in_a_csv_file container_repr stories "" "top_stories" fs)
       "top_stories.csv" = Ok df ∧
     nrows df = length stories ∧
     map fst (columns df) = story_fieldnames ∧
     ∀ i j st v, stories !! i = Some st → story_values st !! j = Some v →
                 ∃ c, frame_cell df j i = Some c ∧ agrees v c) ∧
  (∃ df,
     read_csv to_numeric
       (Saving_comments_data_in_a_csv_file container_repr comments fs)
       "comments.csv" = Ok df ∧
     nrows df = length comments ∧
     map fst (columns df) = comment_fieldnames ∧
     ∀ i j cm v, comments !! i = Some cm → comment_values cm !! j = Some v →
                 ∃ c, frame_cell df j i = Some c ∧ agrees v c).
Proof.
  intros Hint Hwordy Hstories Hcomments. split.
  - destruct (write_rows_round_trip container_repr to_numeric Hint Hwordy
                story_fieldnames (map story_values stories))
      as (df & Hdf & Hrows & Hcols & Hcells); [done | | done |].
    { apply Forall_forall. by intros r (st & -> & _)%list_elem_of_fmap. }
    exists df. unfold read_csv, Saving_data_in_a_csv_file.
    rewrite lookup_insert_eq. split_and!; [done | by rewrite Hrows, length_map | done |].
    intros i j st v Hst Hv. apply (Hcells i j (story_values st) v); [|done].
    by rewrite lookup_map, Hst.
  - destruct (write_rows_round_trip container_repr to_numeric Hint Hwordy
                comment_fieldnames (map comment_values comments))
      as (df & Hdf & Hrows & Hcols & Hcells); [done | | done |].
    { apply Forall_forall. by intros r (cm & -> & _)%list_elem_of_fmap. }
    exists df. unfold read_csv, Saving_comments_data_in_a_csv_file.
    rewrite lookup_insert_eq. split_and!; [done | by rewrite Hrows, length_map | done |].
    intros i j cm v Hcm Hv. apply (Hcells i j (comment_values cm) v); [|done].
    by rewrite lookup_map, Hcm.
Qed.

Lemma tables_round_trip_witness :
  (∀ z, (Z.abs z ≤ 2 ^ 53)%Z → int_literal (str_of_Z z) = Some z) ∧
  (∀ s, wordy s = true → int_literal s = None) ∧
  uniform_table (length story_fieldnames) (map story_values Sample.stories) = true ∧
  uniform_table (length comment_fieldnames) (map comment_values Sample.comments) = true ∧
  read_csv int_literal Sample.two_stories "top_stories.csv" = Ok Sample.two_stories_df ∧
  read_csv int_literal Sample.two_comments "comments.csv" = Ok Sample.two_comments_df ∧
  (∀ i j st v, Sample.stories !! i = Some st → story_values st !! j = Some v →
               ∃ c, frame_cell Sample.two_stories_df j i = Some c ∧ agrees v c) ∧
  (∀ i j cm v, Sample.comments !! i = Some cm → comment_values cm !! j = Some v →
               ∃ c, frame_cell Sample.two_comments_df j i = Some c ∧ agrees v c).
Proof.
  destruct (tables_round_trip Sample.repr int_literal Sample.stories Sample.comments ∅
              (λ z _, int_literal_str_of_Z z) int_literal_wordy eq_refl eq_refl)
    as [(df1 & Hdf1 & _ & _ & H1) (df2 & Hdf2 & _ & _ & H2)].
  assert (read_csv int_literal Sample.two_stories "top_stories.csv"
          = Ok Sample.two_stories_df) as Hs by (vm_compute; reflexivity).
  assert (read_csv int_literal Sample.two_comments "comments.csv"
          = Ok Sample.two_comments_df) as Hc by (vm_compute; reflexivity).
  split_and!; [intros z _; apply int_literal_str_of_Z | apply int_literal_wordy
              | reflexivity | reflexivity | done | done | |].
  - change (read_csv int_literal Sample.two_stories "top_stories.csv" = Ok df1) in Hdf1.
    rewrite Hs in Hdf1. injection Hdf1 as <-. exact H1.
  - change (read_csv int_literal Sample.two_comments "comments.csv" = Ok df2) in Hdf2.
    rewrite Hc in Hdf2. injection Hdf2 as <-. exact H2.
Defined.

(** C9, refuted as stated: the author [null] and the text [NA] are read
    back as missing values, and the text [007] as the number 7. *)
Lemma round_trip_loses_marker_texts :
  read_csv int_literal (Saving_comments_data_in_a_csv_file Sample.repr Sample.odd_comments ∅)
    "comments.csv" = Ok Sample.odd_comments_df ∧
  frame_cell Sample.odd_comments_df 0 0 = Some NaN ∧ ¬ agrees (VStr "null") NaN ∧
  frame_cell Sample.odd_comments_df 1 0 = Some NaN ∧ ¬ agrees (VStr "NA") NaN ∧
  frame_cell Sample.odd_comments_df 1 1 = Some (FloatCell 7) ∧
  ¬ agrees (VStr "007") (FloatCell 7).
Proof. split_and!; try reflexivity; try (vm_compute; reflexivity); by vm_compute. Qed.

(* ################################################################# *)
(** * Part II, continued: further properties of the code *)

(* ================================================================= *)
(** ** The story table: order, edges and failures *)

Lemma slice_to_sublist {A} (l : list A) (n : Z) : slice_to l n `sublist_of` l.
Proof. unfold slice_to. destruct (0 <=? n)%Z; apply sublist_take. Qed.

Lemma story_record_echo (hn : api) (id v : value) (r : story) :
  echoes_id hn → fetch_story_details hn id = Ok v → truthy v = true →
  story_record v = Ok r → s_id r = id.
Proof.
  intros Hecho Hfetch%fetch_story_details_Ok Ht (d & n & -> & _ & ->)%story_record_Ok.
  simpl. rewrite (Hecho id d Hfetch); [done|]. by intros ->.
Qed.

(** X1.  On an API that echoes identifiers, the identifiers of the story
    table are those of [ids[:limit]] in their order, some left out: the
    table is never re-sorted, and it has no identifier twice when [ids]
    has none. *)
Theorem story_ids_keep_order (hn : api) (ids : list value) (limit : Z)
    (out : list story) :
  echoes_id hn →
  Retrieving_data_about_articles hn ids limit = Ok out →
  map s_id out `sublist_of` slice_to ids limit ∧
  map s_id out `sublist_of` ids ∧
  (NoDup ids → NoDup (map s_id out)).
Proof.
  intros Hecho (details & Hd & Hr)%Retrieving_data_about_articles_Ok.
  assert (map s_id out `sublist_of` slice_to ids limit) as Hsub.
  { revert out Hr. induction Hd as [|id v l details Hfetch _ IH]; intros out Hr.
    - inversion Hr; subst. constructor.
    - simpl in Hr. destruct (truthy v) eqn:Ht.
      + inversion Hr as [|? r ? out' Hrec Hrest]; subst. simpl.
        rewrite (story_record_echo hn id v r Hecho Hfetch Ht Hrec).
        apply sublist_skip, IH, Hrest.
      + apply sublist_cons, IH, Hr. }
  assert (map s_id out `sublist_of` ids) as Hsub'
    by (etrans; [apply Hsub | apply slice_to_sublist]).
  split_and!; [done..|]. intros Hnd. by eapply sublist_NoDup.
Qed.

Lemma story_ids_keep_order_witness :
  echoes_id Sample.hn ∧
  Retrieving_data_about_articles Sample.hn Sample.ids 3 = Ok Sample.stories ∧
  map s_id Sample.stories `sublist_of` Sample.ids ∧
  NoDup (map s_id Sample.stories).
Proof.
  destruct (story_ids_keep_order Sample.hn Sample.ids 3 Sample.stories
              Sample_hn_echoes_id eq_refl) as (_ & Hsub & Hnd).
  split_and!; [apply Sample_hn_echoes_id | reflexivity | exact Hsub |].
  apply Hnd. unfold Sample.ids.
  repeat (apply NoDup_cons; split;
          [rewrite ?not_elem_of_cons; repeat split; (discriminate || apply not_elem_of_nil)|]).
  apply NoDup_nil_2.
Defined.

(** The two ways in which the dict literal of a record fails. *)
Lemma story_record_Raise (v : value) (e : exn) :
  story_record v = Raise e ↔
  ((∀ d, v ≠ VDict d) ∧ e = AttributeError) ∨
  (∃ d, v = VDict d ∧ e = TypeError ∧
        py_len (default (VList []) (dict_lookup "kids" d)) = Raise TypeError).
Proof.
  assert (∀ d, story_record (VDict d) = Raise e ↔
               e = TypeError ∧
               py_len (default (VList []) (dict_lookup "kids" d)) = Raise TypeError)
    as Hdict.
  { intros d. unfold story_record. simpl.
    destruct (default (VList []) (dict_lookup "kids" d)) as [|b|z|s|l|d'];
      simpl; split; try done; try (by intros [= <-]); by intros [-> ?]. }
  destruct v as [|b|z|s|l|d];
    try (split; [intros [= <-]; left; by split
                | by intros [[_ ->]|(d & ? & _)]]).
  rewrite Hdict. split.
  - intros [-> Hlen]. right. by exists d.
  - intros [[Hd _]|(d0 & [= <-] & -> & Hlen)]; [by destruct (Hd d) | done].
Qed.

(** X2.  The story builder fails in three ways only, and with the
    exception of the first failure in the order of [ids[:limit]]: a fetch
    raises; or all fetches return and the first detail that is neither
    absent nor empty and has no record is not a dict ([AttributeError]) or
    has [kids] without a length ([TypeError]). *)
Theorem story_table_failures (hn : api) (ids : list value) (limit : Z) (e : exn) :
  Retrieving_data_about_articles hn ids limit = Raise e ↔
  (∃ i id, slice_to ids limit !! i = Some id ∧
           fetch_story_details hn id = Raise e ∧
           Forall (λ id', returns (fetch_story_details hn id'))
                  (take i (slice_to ids limit))) ∨
  (∃ details i v,
     Forall2 (λ id v, fetch_story_details hn id = Ok v) (slice_to ids limit) details ∧
     List.filter truthy details !! i = Some v ∧
     Forall (λ v', returns (story_record v')) (take i (List.filter truthy details)) ∧
     (((∀ d, v ≠ VDict d) ∧ e = AttributeError) ∨
      (∃ d, v = VDict d ∧ e = TypeError ∧
            py_len (default (VList []) (dict_lookup "kids" d)) = Raise TypeError))).
Proof.
  unfold Retrieving_data_about_articles, executor_map.
  rewrite bind_Raise, traverse_Raise. apply or_iff_compat_l. split.
  - intros (details & Hd%traverse_Ok & Hr). rewrite append_stories_spec in Hr.
    apply bind_Raise in Hr as [Hr|(? & _ & ?)]; [|done].
    apply traverse_Raise in Hr as (i & v & Hi & Hv%story_record_Raise & Hpre).
    by exists details, i, v.
  - intros (details & i & v & Hd%traverse_Ok & Hi & Hpre & Hv%story_record_Raise).
    exists details. split; [done|]. rewrite append_stories_spec.
    apply bind_Raise. left. apply traverse_Raise. by exists i, v.
Qed.

Example story_table_failures_sample :
  Retrieving_data_about_articles Cases.hn_text Sample.ids 3 = Raise AttributeError ∧
  Retrieving_data_about_articles Cases.hn_bad_kids Sample.ids 3 = Raise TypeError ∧
  Retrieving_data_about_articles Sample.hn_down Sample.ids 3 = Raise RequestException.
Proof. split_and!; reflexivity. Qed.

(** X3.  The story builder asks the network for nothing when
    [ids[:limit]] is empty: for a limit of 0, for an empty list and for a
    negative limit that reaches the front of the list it returns the empty
    table, whatever the state of the API.  A limit beyond the end of the
    list is the same as the length of the list. *)
Theorem story_table_without_fetch (hn : api) (ids : list value) (limit : Z) :
  (limit = 0%Z ∨ ids = [] ∨ (limit ≤ - Z.of_nat (length ids))%Z →
   Retrieving_data_about_articles hn ids limit = Ok []) ∧
  ((Z.of_nat (length ids) ≤ limit)%Z →
   Retrieving_data_about_articles hn ids limit =
   Retrieving_data_about_articles hn ids (Z.of_nat (length ids))).
Proof.
  split.
  - intros Hcase.
    assert (slice_to ids limit = []) as Hnil.
    { unfold slice_to. destruct Hcase as [->|[->|Hneg]].
      - done.
      - by destruct (0 <=? limit)%Z; rewrite take_nil.
      - destruct (0 <=? limit)%Z eqn:Hpos.
        + apply Z.leb_le in Hpos.
          replace (Z.to_nat limit) with 0 by lia. done.
        + replace (length ids - Z.to_nat (- limit)) with 0 by lia. done. }
    unfold Retrieving_data_about_articles. by rewrite Hnil.
  - intros Hbig. unfold Retrieving_data_about_articles, slice_to.
    rewrite (proj2 (Z.leb_le 0 limit)) by lia.
    rewrite (proj2 (Z.leb_le 0 (Z.of_nat (length ids)))) by lia.
    by rewrite !take_ge by lia.
Qed.

Lemma story_table_without_fetch_witness :
  Retrieving_data_about_articles Sample.hn_down Sample.ids 0 = Ok [] ∧
  Retrieving_data_about_articles Sample.hn_down Sample.ids (-3) = Ok [] ∧
  Retrieving_data_about_articles Sample.hn Sample.ids 20 =
  Retrieving_data_about_articles Sample.hn Sample.ids 3.
Proof.
  destruct (story_table_without_fetch Sample.hn_down Sample.ids 0) as [H0 _].
  destruct (story_table_without_fetch Sample.hn_down Sample.ids (-3)) as [H3 _].
  destruct (story_table_without_fetch Sample.hn Sample.ids 20) as [_ H20].
  split_and!; [apply H0; by left | apply H3; right; right; simpl; lia
              | apply H20; simpl; lia].
Defined.

(* ================================================================= *)
(** ** The comment table: order and inputs *)

Section CommentOrder.
Variable hn : api.

(** What a turn of the loop appends does not depend on what was collected
    before it. *)
Lemma story_comments_acc (st : story) (acc : list comment) :
  story_comments hn st acc = recs ← story_comments hn st []; Ok (acc ++ recs).
Proof.
  unfold story_comments.
  destruct (item hn (s_id st)) as [[v|]|]; simpl; try done.
  destruct (truthy v); simpl; [|by rewrite app_nil_r].
  destruct (py_contains "kids" v) as [[|]|]; simpl; try done; [|by rewrite app_nil_r].
  destruct (py_getitem v "kids") as [kids|]; simpl; [|done].
  destruct (py_iter kids) as [ids|]; simpl; [|done].
  destruct (executor_map (fetch_comment_details hn) ids) as [cds|]; simpl; [|done].
  rewrite !append_comments_spec.
  by destruct (traverse (comment_record (s_id st)) (List.filter truthy cds)).
Qed.

Lemma fetch_all_comments_acc (stories : list story) (acc : list comment) :
  fetch_all_comments hn stories acc =
  recs ← fetch_all_comments hn stories []; Ok (acc ++ recs).
Proof.
  revert acc. induction stories as [|st stories IH]; intros acc; simpl.
  - by rewrite app_nil_r.
  - rewrite story_comments_acc.
    destruct (story_comments hn st []) as [recs|]; simpl; [|done].
    rewrite (IH (acc ++ recs)), (IH recs).
    destruct (fetch_all_comments hn stories []) as [recs'|]; simpl; [|done].
    by rewrite app_assoc.
Qed.

Lemma fetch_all_comments_app (l1 l2 : list story) (acc : list comment) :
  fetch_all_comments hn (l1 ++ l2) acc =
  acc' ← fetch_all_comments hn l1 acc; fetch_all_comments hn l2 acc'.
Proof.
  revert acc. induction l1 as [|st l1 IH]; intros acc; simpl; [done|].
  destruct (story_comments hn st acc) as [acc'|]; simpl; [apply IH | done].
Qed.

(** The turn of a story reads nothing of it but its identifier. *)
Lemma story_comments_by_id (st st' : story) (acc : list comment) :
  s_id st = s_id st' → story_comments hn st acc = story_comments hn st' acc.
Proof. unfold story_comments. by intros ->. Qed.
End CommentOrder.

(** X4.  The comment table of two story tables put end to end is the
    comment table of the first followed by that of the second, and it
    fails when one of them fails: the comments come in the order of the
    stories, each story by itself. *)
Theorem comments_follow_story_order (hn : api) (l1 l2 : list story) :
  Fetching_responses_to_top_stories hn (l1 ++ l2) =
  c1 ← Fetching_responses_to_top_stories hn l1;
  c2 ← Fetching_responses_to_top_stories hn l2;
  Ok (c1 ++ c2).
Proof.
  unfold Fetching_responses_to_top_stories. rewrite fetch_all_comments_app.
  destruct (fetch_all_comments hn l1 []) as [c1|]; simpl; [|done].
  apply fetch_all_comments_acc.
Qed.

(** X5.  The comment builder uses the story table for its identifiers
    only: two tables with the same identifiers in the same order give the
    same comment table, whatever their other fields. *)
Theorem comments_depend_on_ids_only (hn : api) (l1 l2 : list story) :
  map s_id l1 = map s_id l2 →
  Fetching_responses_to_top_stories hn l1 = Fetching_responses_to_top_stories hn l2.
Proof.
  unfold Fetching_responses_to_top_stories. generalize (@nil comment).
  revert l2. induction l1 as [|st l1 IH]; intros [|st' l2] acc; simpl; try done.
  intros [= Hid Hrest]. rewrite (story_comments_by_id hn st st' acc Hid).
  destruct (story_comments hn st' acc) as [acc'|]; simpl; [by apply IH | done].
Qed.

Lemma comments_depend_on_ids_only_witness :
  map s_id [Story (VInt 1) VNone VNone VNone VNone VNone VNone VNone VNone]
  = map s_id [Sample.record1] ∧
  Fetching_responses_to_top_stories Sample.hn
    [Story (VInt 1) VNone VNone VNone VNone VNone VNone VNone VNone]
  = Ok Sample.comments.
Proof.
  split; [reflexivity|].
  rewrite (comments_depend_on_ids_only Sample.hn
             [Story (VInt 1) VNone VNone VNone VNone VNone VNone VNone VNone]
             [Sample.record1] eq_refl).
  reflexivity.
Defined.

(* ================================================================= *)
(** ** Files: what a table writes and what is read back *)

Section Reload.
Variable container_repr : value → string.
Variable to_numeric : string → option Z.

Local Abbreviation field := (csv_field container_repr).
Local Abbreviation infer := (infer_column to_numeric).
Local Abbreviation numeric := (numeric_cell to_numeric).

Lemma infer_column_unfold (f : string) (fs : list string) :
  infer (f :: fs) =
  match mapM numeric (f :: fs) with
  | Some nums =>
      match mapM id nums with
      | Some ints => Int64 ints
      | None => Float64 nums
      end
  | None => Object (map (λ s, if is_na s then None else Some s) (f :: fs))
  end.
Proof. reflexivity. Qed.

(** A column has one cell per field. *)
Lemma infer_column_length (fields : list string) :
  column_length (infer fields) = length fields.
Proof.
  destruct fields as [|f fs]; [done|]. rewrite infer_column_unfold.
  destruct (mapM numeric (f :: fs)) as [nums|] eqn:Hnums.
  - apply length_mapM in Hnums.
    destruct (mapM id nums) as [ints|] eqn:Hints.
    + apply length_mapM in Hints. unfold column_length, column_cells.
      rewrite length_map. congruence.
    + unfold column_length, column_cells. rewrite length_map. congruence.
  - unfold column_length, column_cells. by rewrite !length_map.
Qed.


(** Every frame read from a file is well formed, with a row per record and
    a column per field of the header. *)
Lemma parse_csv_wf (f : csv_file) (df : frame) :
  parse_csv to_numeric f = Ok df →
  frame_wf df ∧ nrows df = length (records f) ∧ map fst (columns df) = header f.
Proof.
  unfold parse_csv. destruct (header f) as [|name names] eqn:Hh; [done|].
  rewrite <- Hh. clear Hh name names.
  destruct (existsb _ _); [done|]. intros [= <-]. split_and!; [|done|].
  - apply Forall_forall. intros [n c] [j Hj]%list_elem_of_lookup.
    cbn [columns] in Hj. rewrite list_lookup_imap in Hj.
    destruct (header f !! j) as [n'|]; [|done]. injection Hj as <- <-.
    cbn [snd nrows]. by rewrite infer_column_length, length_map.
  - apply imap_fst.
Qed.

End Reload.

(** X6.  Whatever the values of a story table or a comment table, the file
    that the persistence operation writes can be read back: the reload does
    not fail, the frame has one row per record and the columns of the
    header, the header being written for an empty table too, and every
    column has a value for every row. *)
Theorem saved_tables_reload
    (container_repr : value → string) (to_numeric : string → option Z)
    (stories : list story) (comments : list comment) (fs : files) :
  (∃ df,
     read_csv to_numeric
       (Saving_data_in_a_csv_file container_repr stories "" "top_stories" fs)
       "top_stories.csv" = Ok df ∧
     nrows df = length stories ∧
     map fst (columns df) = story_fieldnames ∧
     frame_wf df) ∧
  (∃ df,
     read_csv to_numeric
       (Saving_comments_data_in_a_csv_file container_repr comments fs)
       "comments.csv" = Ok df ∧
     nrows df = length comments ∧
     map fst (columns df) = comment_fieldnames ∧
     frame_wf df).
Proof.
  split.
  - unfold read_csv, Saving_data_in_a_csv_file. rewrite lookup_insert_eq.
    destruct (parse_csv to_numeric
                (write_rows container_repr story_fieldnames (map story_values stories)))
      as [df|e] eqn:Hdf.
    + exists df. apply parse_csv_wf in Hdf as (Hwf & Hrows & Hcols).
      split_and!; [done | | done..]. rewrite Hrows. simpl. by rewrite !length_map.
    + rewrite parse_csv_write_rows in Hdf; [done..|].
      apply Forall_forall. by intros r (st & -> & _)%list_elem_of_fmap.
  - unfold read_csv, Saving_comments_data_in_a_csv_file. rewrite lookup_insert_eq.
    destruct (parse_csv to_numeric
                (write_rows container_repr comment_fieldnames
                   (map comment_values comments)))
      as [df|e] eqn:Hdf.
    + exists df. apply parse_csv_wf in Hdf as (Hwf & Hrows & Hcols).
      split_and!; [done | | done..]. rewrite Hrows. simpl. by rewrite !length_map.
    + rewrite parse_csv_write_rows in Hdf; [done..|].
      apply Forall_forall. by intros r (cm & -> & _)%list_elem_of_fmap.
Qed.



(* ================================================================= *)
(** ** Title keywords *)

Lemma split_cons (c : ascii) (s' : string) :
  split (String c s') =
  if is_space c then split s'
  else
    match s' with
    | EmptyString => [String c EmptyString]
    | String c' _ =>
        if is_space c' then String c EmptyString :: split s'
        else
          match split s' with
          | w :: ws => String c w :: ws
          | [] => [String c EmptyString]
          end
    end.
Proof. by destruct s'. Qed.

Lemma split_words (s : string) : Forall is_word (split s).
Proof.
  induction s as [|c s' IH]; [constructor|]. rewrite split_cons.
  destruct (is_space c) eqn:Hc; [done|].
  assert (is_word (String c "")) as Hone by (split; [done | by repeat constructor]).
  destruct s' as [|c' s'']; [by repeat constructor|].
  destruct (is_space c'); [by constructor|].
  destruct (split (String c' s'')) as [|w ws]; [by repeat constructor|].
  inversion IH as [|? ? [_ Hw] Hws]; subst. constructor; [|done].
  split; [done|]. simpl. by constructor.
Qed.

(** A string that starts with a character that is not white space has a
    first word. *)
Lemma split_starts (c : ascii) (s : string) :
  is_space c = false → split (String c s) ≠ [].
Proof.
  intros Hc. rewrite split_cons, Hc. destruct s as [|c' s']; [done|].
  destruct (is_space c'); [done|]. by destruct (split (String c' s')).
Qed.

(** Splitting loses the white space and nothing else. *)
Lemma split_concat (s : string) :
  concat (map list_ascii_of_string (split s)) =
  List.filter (λ c, negb (is_space c)) (list_ascii_of_string s).
Proof.
  induction s as [|c s' IH]; [done|]. rewrite split_cons.
  change (list_ascii_of_string (String c s')) with (c :: list_ascii_of_string s').
  cbn [List.filter]. destruct (is_space c) eqn:Hc; cbn [negb]; [done|].
  destruct s' as [|c' s''] eqn:Hs'; [done|]. rewrite <- Hs' in *.
  destruct (is_space c') eqn:Hc'.
  - simpl. by rewrite IH.
  - pose proof (split_starts c' s'' Hc') as Hne. rewrite <- Hs' in Hne.
    destruct (split s') as [|w ws]; [done|]. simpl in *. by rewrite IH.
Qed.

(** Words on both sides of a white space are found apart. *)
Lemma split_app (a b : string) (c : ascii) :
  is_space c = true → split (a +:+ String c b) = split a ++ split b.
Proof.
  intros Hc. induction a as [|x a' IH].
  - change ("" +:+ String c b) with (String c b). by rewrite split_cons, Hc.
  - change (String x a' +:+ String c b) with (String x (a' +:+ String c b)).
    rewrite (split_cons x a'), (split_cons x (a' +:+ String c b)).
    destruct (is_space x); [done|].
    destruct a' as [|x' a''] eqn:Ha'.
    + change ("" +:+ String c b) with (String c b). cbv beta iota.
      by rewrite Hc, split_cons, Hc.
    + change (String x' a'' +:+ String c b) with (String x' (a'' +:+ String c b))
        in *.
      cbv beta iota. destruct (is_space x') eqn:Hx'; [by rewrite IH|].
      rewrite IH. pose proof (split_starts x' a'' Hx') as Hne.
      by destruct (split (String x' a'')).
Qed.

Lemma str_lower_length (s : string) : String.length (str_lower s) = String.length s.
Proof. induction s; simpl; congruence. Qed.

Lemma lower_char_not_upper (c : ascii) : is_upper (lower_char c) = false.
Proof. destruct c as [[|] [|] [|] [|] [|] [|] [|] [|]]; reflexivity. Qed.

Lemma lower_char_space (c : ascii) : is_space (lower_char c) = is_space c.
Proof. destruct c as [[|] [|] [|] [|] [|] [|] [|] [|]]; reflexivity. Qed.

Lemma str_lower_chars (s : string) :
  list_ascii_of_string (str_lower s) = map lower_char (list_ascii_of_string s).
Proof. induction s; simpl; congruence. Qed.

Lemma str_lower_idemp (s : string) : str_lower (str_lower s) = str_lower s.
Proof.
  induction s as [|c s IH]; simpl; [done|]. rewrite IH. f_equal.
  unfold lower_char at 1. by rewrite lower_char_not_upper.
Qed.

(** X9.  Every keyword of a title is the lower-case form of one of its
    words, has more than 3 characters, no capital letter and no white
    space; lowering it again changes nothing. *)
Theorem keywords_are_long_lower_words (title k : string) :
  k ∈ extract_keywords title →
  (∃ w, w ∈ split title ∧ k = str_lower w) ∧
  3 < String.length k ∧
  Forall (λ c, is_upper c = false ∧ is_space c = false) (list_ascii_of_string k) ∧
  str_lower k = k.
Proof.
  unfold extract_keywords.
  intros (w & -> & [Hw Hlen]%list_elem_of_In%filter_In)%list_elem_of_fmap.
  apply Nat.ltb_lt in Hlen. apply list_elem_of_In in Hw.
  split_and!.
  - by exists w.
  - by rewrite str_lower_length.
  - pose proof (proj1 (Forall_forall _ _) (split_words title) w Hw) as [_ Hsp].
    rewrite str_lower_chars. apply Forall_forall.
    intros c (c' & -> & Hc')%list_elem_of_fmap. split.
    + apply lower_char_not_upper.
    + rewrite lower_char_space. by apply (proj1 (Forall_forall _ _) Hsp).
  - apply str_lower_idemp.
Qed.

Lemma keywords_are_long_lower_words_witness :
  extract_keywords "The Rust Programming Language is great"
  = ["rust"; "programming"; "language"; "great"] ∧
  3 < String.length "rust" ∧ str_lower "rust" = "rust".
Proof.
  destruct (keywords_are_long_lower_words
              "The Rust Programming Language is great" "rust") as (_ & Hlen & _ & Hlow).
  { vm_compute. apply list_elem_of_here. }
  split_and!; [reflexivity | exact Hlen | exact Hlow].
Defined.

(** X10.  The keywords of two texts joined by a white space are the
    keywords of the first followed by those of the second: no keyword
    spans the white space, and none is lost or made at the joint. *)
Theorem keywords_of_joined_titles (a b : string) (c : ascii) :
  is_space c = true →
  extract_keywords (a +:+ String c b) = extract_keywords a ++ extract_keywords b.
Proof.
  intros Hc. unfold extract_keywords.
  by rewrite (split_app a b c Hc), List.filter_app, map_app.
Qed.

Lemma keywords_of_joined_titles_witness :
  is_space " " = true ∧
  extract_keywords ("Show HN" +:+ String " " "a tiny prover") = ["show"; "tiny"; "prover"].
Proof.
  split; [reflexivity|].
  rewrite (keywords_of_joined_titles "Show HN" "a tiny prover" " " eq_refl).
  reflexivity.
Defined.

(* ================================================================= *)
(** ** The most common keywords *)

Lemma counter_get_add (k k' : string) (c : list (string * nat)) :
  counter_get k' (counter_add k c) =
  if String.eqb k k' then Some (S (default 0 (counter_get k c)))
  else counter_get k' c.
Proof.
  induction c as [|[k0 n] c IH]; simpl; [done|].
  destruct (String.eqb_spec k0 k) as [->|Hne]; simpl.
  - by destruct (String.eqb k k').
  - rewrite IH. destruct (String.eqb_spec k0 k') as [->|Hne']; [|done].
    by destruct (String.eqb_spec k k').
Qed.

Lemma counter_get_None (k : string) (c : list (string * nat)) :
  counter_get k c = None ↔ k ∉ map fst c.
Proof.
  induction c as [|[k0 n] c IH]; simpl.
  - split; [intros _; apply not_elem_of_nil | done].
  - rewrite not_elem_of_cons. destruct (String.eqb_spec k0 k) as [->|Hne].
    + split; [done | by intros [? _]].
    + rewrite IH. split; [by split | by intros [_ ?]].
Qed.

Lemma counter_add_keys (k : string) (c : list (string * nat)) :
  map fst (counter_add k c) =
  match counter_get k c with
  | Some _ => map fst c
  | None => map fst c ++ [k]
  end.
Proof.
  induction c as [|[k0 n] c IH]; simpl; [done|].
  destruct (String.eqb k0 k); simpl; [done|].
  rewrite IH. by destruct (counter_get k c).
Qed.

Lemma counter_add_NoDup (k : string) (c : list (string * nat)) :
  NoDup (map fst c) → NoDup (map fst (counter_add k c)).
Proof.
  intros Hnd. rewrite counter_add_keys.
  destruct (counter_get k c) eqn:Hk; [done|].
  apply counter_get_None in Hk. apply NoDup_app. split_and!; [done | | ].
  - intros x Hx ->%list_elem_of_singleton. done.
  - apply NoDup_singleton.
Qed.

Lemma counter_get_elem (k : string) (n : nat) (c : list (string * nat)) :
  NoDup (map fst c) → (k, n) ∈ c ↔ counter_get k c = Some n.
Proof.
  induction c as [|[k0 n0] c IH]; simpl.
  - intros _. split; [by intros ?%elem_of_nil | done].
  - intros [Hk0 Hnd]%NoDup_cons. rewrite elem_of_cons.
    destruct (String.eqb_spec k0 k) as [->|Hne].
    + split; [|intros [= ->]; by left].
      intros [[= ->]|Hin]; [done|]. destruct Hk0.
      apply list_elem_of_fmap. by exists (k, n).
    + rewrite <- (IH Hnd). split; [intros [[= ? ?]|?]; by subst | by right].
Qed.

Lemma Counter_snoc (l : list string) (k : string) :
  Counter (l ++ [k]) = counter_add k (Counter l).
Proof. unfold Counter. by rewrite foldl_snoc. Qed.

Lemma Counter_NoDup (l : list string) : NoDup (map fst (Counter l)).
Proof.
  induction l as [|k l IH] using rev_ind; [apply NoDup_nil_2|].
  rewrite Counter_snoc. by apply counter_add_NoDup.
Qed.

Lemma occurrences_snoc (k k' : string) (l : list string) :
  occurrences k (l ++ [k']) =
  if String.eqb k' k then S (occurrences k l) else occurrences k l.
Proof.
  unfold occurrences. rewrite List.filter_app, length_app. simpl.
  rewrite (String.eqb_sym k k'). destruct (String.eqb k' k); simpl; lia.
Qed.

(** The count kept for a key is the number of its occurrences. *)
Lemma Counter_get (l : list string) (k : string) :
  counter_get k (Counter l) =
  match occurrences k l with 0 => None | S n => Some (S n) end.
Proof.
  induction l as [|k' l IH] using rev_ind; [done|].
  rewrite Counter_snoc, counter_get_add, occurrences_snoc.
  destruct (String.eqb_spec k' k) as [->|Hne]; [|done].
  rewrite IH. by destruct (occurrences k l).
Qed.

Lemma occurrences_pos (k : string) (l : list string) :
  0 < occurrences k l ↔ k ∈ l.
Proof.
  unfold occurrences. induction l as [|x l IH]; simpl.
  - split; [lia | by intros ?%elem_of_nil].
  - rewrite elem_of_cons. destruct (String.eqb_spec k x) as [->|Hne]; simpl.
    + split; [by left | lia].
    + rewrite IH. split; [by right | by intros [?|?]].
Qed.

(** The keys of the counter are in the order of their first occurrence. *)
Lemma Counter_keys_snoc (l : list string) (k : string) :
  map fst (Counter (l ++ [k])) =
  if bool_decide (k ∈ l) then map fst (Counter l) else map fst (Counter l) ++ [k].
Proof.
  rewrite Counter_snoc, counter_add_keys, Counter_get.
  pose proof (occurrences_pos k l) as Hpos.
  destruct (occurrences k l) as [|n].
  - rewrite bool_decide_false; [done|]. intros Hin%Hpos. lia.
  - rewrite bool_decide_true; [done|]. apply Hpos. lia.
Qed.

Lemma insert_by_count_perm (x : string * nat) (l : list (string * nat)) :
  insert_by_count x l ≡ₚ x :: l.
Proof.
  induction l as [|y l IH]; simpl; [done|].
  destruct (x.2 <? y.2); [|done]. rewrite IH. apply Permutation_swap.
Qed.

Lemma sort_by_count_perm (l : list (string * nat)) : sort_by_count l ≡ₚ l.
Proof.
  induction l as [|x l IH]; simpl; [done|].
  by rewrite insert_by_count_perm, IH.
Qed.

Lemma insert_by_count_descending (x : string * nat) (l : list (string * nat)) :
  descending l → descending (insert_by_count x l).
Proof.
  induction l as [|y l IH]; simpl; [by split|].
  intros [Hy Hl]. destruct (x.2 <? y.2) eqn:Hlt; simpl.
  - apply Nat.ltb_lt in Hlt. split; [|by apply IH].
    rewrite insert_by_count_perm. constructor; [lia | done].
  - apply Nat.ltb_ge in Hlt. split_and!; [|done..].
    constructor; [done|]. eapply Forall_impl; [done|]. simpl. lia.
Qed.

Lemma sort_by_count_descending (l : list (string * nat)) :
  descending (sort_by_count l).
Proof.
  induction l as [|x l IH]; simpl; [done|]. by apply insert_by_count_descending.
Qed.

(** The sort is stable: entries with the same count stay in their order. *)
Lemma insert_by_count_stable (m : nat) (x : string * nat) (l : list (string * nat)) :
  List.filter (λ z, z.2 =? m) (insert_by_count x l) =
  List.filter (λ z, z.2 =? m) (x :: l).
Proof.
  induction l as [|y l IH]; [done|]. simpl insert_by_count.
  destruct (x.2 <? y.2) eqn:Hlt; [|done]. apply Nat.ltb_lt in Hlt.
  simpl in *. rewrite IH.
  destruct (Nat.eqb_spec x.2 m), (Nat.eqb_spec y.2 m); try done. lia.
Qed.

Lemma sort_by_count_stable (m : nat) (l : list (string * nat)) :
  List.filter (λ z, z.2 =? m) (sort_by_count l) = List.filter (λ z, z.2 =? m) l.
Proof.
  induction l as [|x l IH]; [done|]. simpl sort_by_count.
  rewrite insert_by_count_stable. simpl. by rewrite IH.
Qed.

Lemma descending_app (l1 l2 : list (string * nat)) :
  descending (l1 ++ l2) →
  descending l1 ∧ ∀ y x, y ∈ l1 → x ∈ l2 → x.2 ≤ y.2.
Proof.
  induction l1 as [|z l1 IH]; simpl.
  - intros _. split; [done | by intros ? ? ?%elem_of_nil].
  - intros [[H1 H2]%Forall_app [Hd Hcross]%IH]. split_and!; [done..|].
    intros y x [->|Hy]%elem_of_cons Hx.
    + by apply (proj1 (Forall_forall _ _) H2).
    + by apply Hcross.
Qed.

(** X11.  The most common keywords: at most [n] entries with distinct
    keys, each with the number of occurrences of its keyword, which is
    positive; the counts do not increase along the list; and a keyword
    that is left out has no more occurrences than any that is kept, which
    are [n] then. *)
Theorem most_common_counts (kws : list string) (n : nat) :
  let top := most_common n (Counter kws) in
  length top ≤ n ∧
  NoDup (map fst top) ∧
  (∀ k m, (k, m) ∈ top → k ∈ kws ∧ m = occurrences k kws ∧ 0 < m) ∧
  descending top ∧
  (∀ k, k ∈ kws → k ∉ map fst top →
        length top = n ∧ ∀ y, y ∈ top → occurrences k kws ≤ y.2).
Proof.
  intros top. unfold top, most_common.
  set (sorted := sort_by_count (Counter kws)).
  assert (sorted ≡ₚ Counter kws) as Hperm by apply sort_by_count_perm.
  assert (NoDup (map fst sorted)) as Hnd.
  { change (map fst sorted) with (fst <$> sorted). rewrite Hperm. apply Counter_NoDup. }
  assert (descending (take n sorted) ∧
          ∀ y x, y ∈ take n sorted → x ∈ drop n sorted → x.2 ≤ y.2) as [Hdesc Hcross].
  { apply descending_app. rewrite take_drop. apply sort_by_count_descending. }
  assert (∀ k m, (k, m) ∈ sorted ↔
                 match occurrences k kws with 0 => None | S j => Some (S j) end = Some m)
    as Hcount.
  { intros k m. rewrite Hperm, <- Counter_get. apply counter_get_elem, Counter_NoDup. }
  split_and!.
  - rewrite length_take. lia.
  - eapply sublist_NoDup; [exact Hnd|].
    change (map fst ?l) with (fst <$> l). apply fmap_sublist, sublist_take.
  - intros k m Hin.
    assert ((k, m) ∈ sorted) as Hs
      by (rewrite <- (take_drop n sorted); apply elem_of_app; by left).
    apply Hcount in Hs. destruct (occurrences k kws) as [|j] eqn:Hocc; [done|].
    injection Hs as <-. split_and!; [|done|lia].
    apply occurrences_pos. lia.
  - done.
  - intros k Hk Hout. apply occurrences_pos in Hk.
    destruct (occurrences k kws) as [|j] eqn:Hocc; [lia|].
    assert ((k, S j) ∈ sorted) as Hs by (apply Hcount; by rewrite Hocc).
    rewrite <- (take_drop n sorted) in Hs. apply elem_of_app in Hs as [Hs|Hs].
    { destruct Hout. apply list_elem_of_fmap. by exists (k, S j). }
    split.
    + rewrite length_take. apply list_elem_of_lookup in Hs as [i Hi].
      apply lookup_lt_Some in Hi. rewrite length_drop in Hi. lia.
    + intros y Hy. apply (Hcross y (k, S j) Hy Hs).
Qed.

(** X12.  Ties are kept in the order in which the keywords were first met:
    a keyword enters the counter behind all earlier ones, and among the
    entries with one count the most common ones are the first of them in
    the order of the counter. *)
Theorem most_common_ties_first_met (kws : list string) (k : string) (n m : nat) :
  map fst (Counter (kws ++ [k])) =
    (if bool_decide (k ∈ kws) then map fst (Counter kws)
     else map fst (Counter kws) ++ [k]) ∧
  List.filter (λ z, z.2 =? m) (most_common n (Counter kws))
    `prefix_of` List.filter (λ z, z.2 =? m) (Counter kws).
Proof.
  split; [apply Counter_keys_snoc|].
  rewrite <- (sort_by_count_stable m (Counter kws)). unfold most_common.
  rewrite <- (take_drop n (sort_by_count (Counter kws))) at 2.
  rewrite List.filter_app. by apply prefix_app_r.
Qed.

Example most_common_sample :
  most_common 2 (Counter ["b"; "a"; "b"; "c"; "a"; "d"]) = [("b", 2); ("a", 2)] ∧
  top_10_keywords Cases.titles
  = Ok [("rust", 4); ("news", 3); ("about", 1); ("things", 1)].
Proof. split; reflexivity. Qed.

(** X13.  The keywords of a column of titles are those of its titles, in
    order, when every title is there; one story without a title makes the
    keyword step fail with [AttributeError], so that no keyword is
    counted. *)
Theorem keywords_need_every_title (titles : list (option string)) :
  (None ∉ titles →
   ∃ present, titles = map Some present ∧
     all_keywords (Object titles) = Ok (concat (map extract_keywords present))) ∧
  (None ∈ titles →
   all_keywords (Object titles) = Raise AttributeError ∧
   top_10_keywords (Object titles) = Raise AttributeError).
Proof.
  split.
  - intros Hall.
    assert (∃ present, titles = map Some present) as [present ->].
    { induction titles as [|[s|] titles IH].
      - by exists [].
      - destruct IH as [present ->]; [by intros ?; apply Hall; right|].
        by exists (s :: present).
      - destruct Hall. by left. }
    exists present. split; [done|]. unfold all_keywords.
    assert (traverse (λ o : option string,
               match o with
               | Some s => Ok (extract_keywords s)
               | None => Raise AttributeError
               end) (map Some present) = Ok (map extract_keywords present)) as ->; [|done].
    clear Hall. induction present as [|s present IH]; simpl; [done|]. by rewrite IH.
  - intros Hin.
    assert (all_keywords (Object titles) = Raise AttributeError) as Hraise.
    { unfold all_keywords.
      induction titles as [|[s|] titles IH]; simpl.
      - by apply elem_of_nil in Hin.
      - apply elem_of_cons in Hin as [?|Hin]; [done|].
        specialize (IH Hin). by destruct (traverse _ titles).
      - done. }
    split; [done|]. unfold top_10_keywords. by rewrite Hraise.
Qed.

Lemma keywords_need_every_title_witness :
  (None ∉ [Some "Show HN: a prover"; Some "Ask HN: NA"]) ∧
  all_keywords (Object [Some "Show HN: a prover"; Some "Ask HN: NA"])
  = Ok ["show"; "prover"] ∧
  None ∈ [Some "Show HN: a prover"; None] ∧
  top_10_keywords (Object [Some "Show HN: a prover"; None]) = Raise AttributeError.
Proof.
  assert (None ∉ [Some "Show HN: a prover"; Some "Ask HN: NA"]) as H1.
  { rewrite !not_elem_of_cons. split_and!; [done..|]. apply not_elem_of_nil. }
  assert (None ∈ [Some "Show HN: a prover"; None]) as H2
    by (right; left).
  destruct (keywords_need_every_title [Some "Show HN: a prover"; Some "Ask HN: NA"])
    as [Hok _].
  destruct (keywords_need_every_title [Some "Show HN: a prover"; None]) as [_ Hbad].
  split_and!; [exact H1 | | exact H2 | by apply Hbad].
  destruct (Hok H1) as (present & Hp & ->).
  assert (present = ["Show HN: a prover"; "Ask HN: NA"]) as ->.
  { destruct present as [|a [|b [|? ?]]]; simpl in Hp; congruence. }
  reflexivity.
Defined.

(* ================================================================= *)
(** ** Posting hours *)

Lemma counts_get_above (h : Z) (c : list (Z * nat)) :
  Forall (λ y, (h < y.1)%Z) c → counts_get h c = None.
Proof.
  induction 1 as [|[k n] c Hk _ IH]; simpl; [done|].
  simpl in Hk. destruct (Z.eqb_spec k h); [lia | done].
Qed.

Lemma counts_get_elem (k : Z) (n : nat) (c : list (Z * nat)) :
  ascending_keys c → (k, n) ∈ c ↔ counts_get k c = Some n.
Proof.
  induction c as [|[k0 n0] c IH]; simpl.
  - intros _. split; [by intros ?%elem_of_nil | done].
  - intros [Hk0 Hasc]. rewrite elem_of_cons.
    destruct (Z.eqb_spec k0 k) as [->|Hne].
    + split; [|intros [= ->]; by left].
      intros [[= ->]|Hin]; [done|].
      apply (proj1 (Forall_forall _ _) Hk0) in Hin. simpl in Hin. lia.
    + rewrite <- (IH Hasc). split; [intros [[= ? ?]|?]; by subst | by right].
Qed.

Lemma bump_keys (h k : Z) (c : list (Z * nat)) :
  k ∈ map fst (bump h c) ↔ k = h ∨ k ∈ map fst c.
Proof.
  induction c as [|[k0 n] c IH]; simpl.
  - rewrite elem_of_cons, elem_of_nil. tauto.
  - destruct (Z.ltb_spec h k0); simpl; [by rewrite !elem_of_cons|].
    destruct (Z.eqb_spec h k0) as [->|Hne]; simpl.
    + rewrite !elem_of_cons. split; [by right | intros [->|?]; [by left | done]].
    + rewrite !elem_of_cons, IH. tauto.
Qed.

Lemma bump_ascending (h : Z) (c : list (Z * nat)) :
  ascending_keys c → ascending_keys (bump h c).
Proof.
  induction c as [|[k0 n] c IH]; simpl; [by split|].
  intros [Hk0 Hasc]. destruct (Z.ltb_spec h k0); simpl.
  - split_and!; [|done..]. constructor; [done|].
    eapply Forall_impl; [done|]. simpl. lia.
  - destruct (Z.eqb_spec h k0) as [->|Hne]; simpl; [by split|].
    split; [|by apply IH]. apply Forall_forall. intros [k m] Hin. simpl.
    assert (k ∈ map fst (bump h c)) as [->|Hk]%bump_keys
      by (apply list_elem_of_fmap; by exists (k, m)); [lia|].
    apply list_elem_of_fmap in Hk as ([k' m'] & -> & Hin').
    by apply (proj1 (Forall_forall _ _) Hk0) in Hin'.
Qed.

Lemma counts_get_bump (h k : Z) (c : list (Z * nat)) :
  ascending_keys c →
  counts_get k (bump h c) =
  if (h =? k)%Z then Some (S (default 0 (counts_get h c))) else counts_get k c.
Proof.
  induction c as [|[k0 n] c IH]; simpl; [done|].
  intros [Hk0 Hasc]. destruct (Z.ltb_spec h k0); simpl.
  - destruct (Z.eqb_spec k0 h); [lia|].
    rewrite (counts_get_above h c); [done|].
    eapply Forall_impl; [done|]. simpl. lia.
  - destruct (Z.eqb_spec h k0) as [->|Hne]; simpl.
    + rewrite Z.eqb_refl. simpl. by destruct (Z.eqb_spec k0 k).
    + rewrite (IH Hasc). destruct (Z.eqb_spec k0 h); [lia|].
      destruct (Z.eqb_spec k0 k) as [->|?]; [|done].
      by destruct (Z.eqb_spec h k); [lia|].
Qed.

Lemma bump_sum (h : Z) (c : list (Z * nat)) :
  list_sum (map snd (bump h c)) = S (list_sum (map snd c)).
Proof.
  induction c as [|[k0 n] c IH]; simpl; [done|].
  destruct (h <? k0)%Z; simpl; [done|].
  destruct (h =? k0)%Z; simpl; [done|]. rewrite IH. lia.
Qed.

Lemma value_counts_ascending (l : list (option Z)) :
  ascending_keys (value_counts_sort_index l).
Proof.
  induction l as [|[h|] l IH]; simpl; [done| |done]. by apply bump_ascending.
Qed.

Lemma value_counts_get (l : list (option Z)) (k : Z) :
  counts_get k (value_counts_sort_index l) =
  match count_value k l with 0 => None | S n => Some (S n) end.
Proof.
  unfold count_value. induction l as [|[h|] l IH]; simpl; [done| |done].
  rewrite counts_get_bump by apply value_counts_ascending.
  destruct (Z.eqb_spec h k) as [->|Hne]; simpl; [|done].
  rewrite IH. by destruct (length _).
Qed.

Lemma value_counts_sum (l : list (option Z)) :
  list_sum (map snd (value_counts_sort_index l)) = length (present_values l).
Proof.
  unfold present_values.
  induction l as [|[h|] l IH]; simpl; [done| |done]. by rewrite bump_sum, IH.
Qed.

Lemma hour_of_range (t : Z) : (0 ≤ hour_of t < 24)%Z.
Proof. unfold hour_of. apply Z.mod_pos_bound. lia. Qed.

Lemma count_value_hours (h : Z) (time : list (option Z)) :
  count_value h (map (fmap hour_of) time) =
  length (List.filter (λ o, match o with
                            | Some t => (hour_of t =? h)%Z
                            | None => false
                            end) time).
Proof.
  unfold count_value. induction time as [|[t|] time IH]; simpl; [done| |done].
  destruct (hour_of t =? h)%Z; simpl; by rewrite IH.
Qed.

Lemma present_values_hours (time : list (option Z)) :
  length (present_values (map (fmap hour_of) time)) = length (present_values time).
Proof.
  unfold present_values. induction time as [|[t|] time IH]; [done| |done].
  change (S (length (omap id (map (fmap hour_of) time)))
          = S (length (omap id time))). by rewrite IH.
Qed.

(** X14.  When every posting time is in the range of a nanosecond
    timestamp, the distribution of posting hours is computed.  Its hours
    are in increasing order without repetition and lie between 0 and 23;
    the count of an hour is the number of stories posted in it, which is
    positive; hours without a story are not listed; and the counts add up
    to the number of stories that have a time. *)
Theorem posting_hours_distribution (time : list (option Z)) :
  (∀ t, Some t ∈ time → datetime_in_range t = true) →
  ∃ dist, posting_time_distribution time = Some dist ∧
    ascending_keys dist ∧
    (∀ h n, (h, n) ∈ dist ↔
       0 < n ∧
       n = length (List.filter (λ o, match o with
                                     | Some t => (hour_of t =? h)%Z
                                     | None => false
                                     end) time)) ∧
    (∀ h, h ∈ map fst dist → (0 ≤ h < 24)%Z) ∧
    list_sum (map snd dist) = length (present_values time).
Proof.
  intros Hrange. unfold posting_time_distribution, hour_posted.
  assert (forallb (λ o, match o with
                        | Some t => datetime_in_range t
                        | None => true
                        end) time = true) as ->.
  { apply forallb_forall. intros [t|] Hin%list_elem_of_In; [by apply Hrange | done]. }
  eexists. split; [reflexivity|].
  set (hours := map (fmap hour_of) time).
  assert (∀ h n, (h, n) ∈ value_counts_sort_index hours ↔
            0 < n ∧
            n = length (List.filter (λ o, match o with
                                          | Some t => (hour_of t =? h)%Z
                                          | None => false
                                          end) time)) as Hcount.
  { intros h n.
    rewrite (counts_get_elem h n _ (value_counts_ascending hours)).
    rewrite value_counts_get. unfold hours. rewrite count_value_hours.
    destruct (length _) as [|m]; split; try done; try lia.
    - intros [= <-]. split; [lia | done].
    - by intros [_ ->]. }
  split_and!; [apply value_counts_ascending | exact Hcount | |].
  - intros h ([h' n] & -> & Hin%Hcount)%list_elem_of_fmap. simpl.
    destruct Hin as [Hpos Hn]. rewrite Hn in Hpos.
    destruct (List.filter _ time) as [|[t|] rest] eqn:Hf; simpl in Hpos; [lia| |].
    + assert (In (Some t) (List.filter (λ o, match o with
                                              | Some t => (hour_of t =? h')%Z
                                              | None => false
                                              end) time)) as Hin
        by (rewrite Hf; by left).
      apply filter_In in Hin as [_ <-%Z.eqb_eq]. apply hour_of_range.
    + assert (In None (List.filter (λ o : option Z, match o with
                                              | Some t => (hour_of t =? h')%Z
                                              | None => false
                                              end) time)) as Hin
        by (rewrite Hf; by left).
      by apply filter_In in Hin as [_ ?].
  - rewrite value_counts_sum. apply present_values_hours.
Qed.

Lemma posting_hours_distribution_witness :
  (∀ t, Some t ∈ Cases.times → datetime_in_range t = true) ∧
  posting_time_distribution Cases.times = Some [(21%Z, 1); (22%Z, 2)] ∧
  ascending_keys [(21%Z, 1); (22%Z, 2)] ∧
  list_sum (map snd [(21%Z, 1); (22%Z, 2)]) = length (present_values Cases.times).
Proof.
  assert (∀ t, Some t ∈ Cases.times → datetime_in_range t = true) as Hrange.
  { intros t Ht. unfold Cases.times in Ht.
    repeat (apply elem_of_cons in Ht as [Ht|Ht]; [by simplify_eq|]).
    by apply elem_of_nil in Ht. }
  destruct (posting_hours_distribution Cases.times Hrange)
    as (dist & Hdist & Hasc & _ & _ & Hsum).
  assert (dist = [(21%Z, 1); (22%Z, 2)]) as -> by (vm_compute in Hdist; congruence).
  split_and!; [exact Hrange | reflexivity | exact Hasc | exact Hsum].
Defined.

(* ================================================================= *)
(** ** The comment statistics, on any frame and on a frame read from a file *)

Lemma astype_str_length (c : column) : length (astype_str c) = column_length c.
Proof. destruct c; unfold column_length; simpl; by rewrite !length_map. Qed.

(** After [astype(str)] every text is a string: the scores and the labels
    are computed for all of them. *)
Lemma sentiment_of_astype (compound : string → binary64) (c : column) :
  ∃ texts, astype_str c = map Some texts ∧
           traverse (sentiment_of compound) (astype_str c) =
           Ok (map (λ s, if String.eqb s "" then float_zero else compound s) texts).
Proof.
  assert (∀ (A : Type) (g : A → string) (l : list A),
            traverse (sentiment_of compound) (map (λ a, Some (g a)) l) =
            Ok (map (λ s, if String.eqb s "" then float_zero else compound s)
                    (map g l))) as Htr.
  { intros A g l. induction l as [|a l IH]; simpl; [done|]. by rewrite IH. }
  destruct c as [l|l|l]; simpl.
  - exists (map str_of_Z l). by rewrite map_map, Htr.
  - exists (map (λ o, match o with Some z => float_str z | None => "nan" end) l).
    by rewrite map_map, Htr.
  - exists (map (default "nan") l). by rewrite map_map, Htr.
Qed.

(** X15.  The comment statistics are skipped for a comment frame without
    rows or without columns; on any other frame they fail only when it has
    no [text] column, with [KeyError]; otherwise they give a length, a
    score and a label for every value of the column, the label being that
    of the score: a missing text does not stop them. *)
Theorem comment_statistics_total (compound : string → binary64) (comments_df : frame) :
  (df_empty comments_df = true → comment_statistics compound comments_df = Ok None) ∧
  (df_empty comments_df = false →
   df_col comments_df "text" = Raise KeyError →
   comment_statistics compound comments_df = Raise KeyError) ∧
  (df_empty comments_df = false →
   ∀ text, df_col comments_df "text" = Ok text →
     ∃ lengths scores,
       comment_statistics compound comments_df
       = Ok (Some (lengths, scores, map label_of scores)) ∧
       lengths = comment_length text ∧
       length lengths = column_length text ∧
       length scores = column_length text).
Proof.
  unfold comment_statistics. split_and!.
  - by intros ->.
  - intros -> Htext. by rewrite Htext.
  - intros -> text ->. simpl.
    destruct (sentiment_of_astype compound text) as (texts & Htexts & Hscores).
    rewrite fillna_astype_str, Hscores. simpl. eexists _, _. split; [done|].
    unfold comment_length. rewrite fillna_astype_str. split_and!; [done | |].
    + unfold str_len. by rewrite length_map, astype_str_length.
    + rewrite length_map. rewrite <- (astype_str_length text), Htexts.
      by rewrite length_map.
Qed.

Lemma comment_statistics_total_witness :
  df_empty Sample.two_comments_df = false ∧
  df_col Sample.two_comments_df "text"
  = Ok (Object [Some "check http://example.com"; None]) ∧
  df_empty Sample.no_stories_df = true ∧
  comment_statistics Sample.compound Sample.no_stories_df = Ok None ∧
  df_col Sample.two_stories_df "text" = Raise KeyError ∧
  comment_statistics Sample.compound Sample.two_stories_df = Raise KeyError ∧
  ∃ lengths scores,
    comment_statistics Sample.compound Sample.two_comments_df
    = Ok (Some (lengths, scores, map label_of scores)) ∧
    length lengths = 2.
Proof.
  destruct (comment_statistics_total Sample.compound Sample.two_comments_df)
    as (_ & _ & Hsome).
  destruct (comment_statistics_total Sample.compound Sample.no_stories_df)
    as (Hnone & _ & _).
  destruct (comment_statistics_total Sample.compound Sample.two_stories_df)
    as (_ & Hkey & _).
  split_and!; [reflexivity | reflexivity | reflexivity | by apply Hnone
              | reflexivity | by apply Hkey |].
  destruct (Hsome eq_refl _ eq_refl) as (lengths & scores & Hstat & _ & Hlen & _).
  by exists lengths, scores.
Defined.

(** A text of a column of texts read from a file is not empty: an empty
    field is read as a missing value. *)
Lemma infer_object_present (to_numeric : string → option Z) (fields : list string)
    (l : list (option string)) (i : nat) (s : string) :
  infer_column to_numeric fields = Object l → l !! i = Some (Some s) → s ≠ "".
Proof.
  destruct fields as [|f fs]; [by intros [= <-]|]. rewrite infer_column_unfold.
  destruct (mapM _ _) as [nums|]; [by destruct (mapM id nums)|].
  generalize (f :: fs). intros fields [= <-]. rewrite lookup_map.
  destruct (fields !! i) as [s'|]; [|done]. simpl.
  destruct (is_na s') eqn:Hna; [done|]. intros [= ->] ->. done.
Qed.

Lemma parse_csv_column (to_numeric : string → option Z) (f : csv_file) (df : frame)
    (name : string) (c : column) :
  parse_csv to_numeric f = Ok df → df_col df name = Ok c →
  ∃ fields, c = infer_column to_numeric fields.
Proof.
  unfold parse_csv, df_col. destruct (header f) as [|h hs] eqn:Hh; [done|].
  rewrite <- Hh. clear Hh h hs. destruct (existsb _ _); [done|]. intros [= <-].
  cbn [columns]. destruct (lookup_column name _) as [c'|] eqn:Hc; [|done].
  intros [= <-]. apply lookup_column_elem in Hc as [n [j Hj]%list_elem_of_lookup].
  rewrite list_lookup_imap in Hj. destruct (header f !! j); [|done].
  injection Hj as _ <-. by eexists.
Qed.

(** X16.  On a comment frame read from a file, in a [text] column of
    texts, every comment that has a text has one that is not empty: its
    [comment_length] is the number of its characters, at least 1, and its
    score is the score that the lexicon gives to the text, so that the
    default score 0 of line 270 is not used for it.  (What a missing text
    becomes is the matter of C4.) *)
Theorem reloaded_comments_have_text
    (to_numeric : string → option Z) (compound : string → binary64)
    (f : csv_file) (comments_df : frame) (text : list (option string)) :
  parse_csv to_numeric f = Ok comments_df →
  df_empty comments_df = false →
  df_col comments_df "text" = Ok (Object text) →
  ∃ lengths scores,
    comment_statistics compound comments_df
    = Ok (Some (lengths, scores, map label_of scores)) ∧
    ∀ i s, text !! i = Some (Some s) →
      s ≠ "" ∧ 0 < String.length s ∧
      lengths !! i = Some (Some (Z.of_nat (String.length s))) ∧
      scores !! i = Some (compound s).
Proof.
  intros Hdf Hempty Htext.
  destruct (parse_csv_column to_numeric f comments_df "text" _ Hdf Htext)
    as [fields Hfields].
  assert (∀ i s, text !! i = Some (Some s) →
                 astype_str (Object text) !! i = Some (Some s)) as Hpresent.
  { intros i s Hi. simpl. by rewrite lookup_map, Hi. }
  assert (∀ i s, text !! i = Some (Some s) → s ≠ "") as Hfull
    by (intros i s Hi; by eapply infer_object_present).
  revert Htext Hpresent. generalize (Object text). intros c Htext Hpresent.
  destruct (sentiment_of_astype compound c) as (texts & Htexts & Hscores).
  unfold comment_statistics. rewrite Hempty, Htext. simpl.
  rewrite fillna_astype_str, Hscores. simpl. eexists _, _. split; [done|].
  intros i s Hi. pose proof (Hfull i s Hi) as Hne.
  pose proof (Hpresent i s Hi) as Ha.
  assert (texts !! i = Some s) as Hs.
  { rewrite Htexts, lookup_map in Ha.
    destruct (texts !! i) as [s'|]; simpl in Ha; [|done]. by injection Ha as ->. }
  split_and!; [done | destruct s; [done|simpl; lia] | |].
  - unfold comment_length, str_len. rewrite ?fillna_astype_str, lookup_map, Ha. done.
  - rewrite lookup_map, Hs. simpl. by destruct (String.eqb_spec s "").
Qed.

Lemma reloaded_comments_have_text_witness :
  parse_csv int_literal
    (write_rows Sample.repr comment_fieldnames (map comment_values Sample.comments))
  = Ok Sample.two_comments_df ∧
  df_empty Sample.two_comments_df = false ∧
  df_col Sample.two_comments_df "text"
  = Ok (Object [Some "check http://example.com"; None]) ∧
  ∃ lengths scores,
    comment_statistics Sample.compound Sample.two_comments_df
    = Ok (Some (lengths, scores, map label_of scores)) ∧
    lengths !! 0 = Some (Some 24%Z) ∧
    scores !! 0 = Some (Sample.compound "check http://example.com").
Proof.
  assert (parse_csv int_literal
            (write_rows Sample.repr comment_fieldnames
               (map comment_values Sample.comments)) = Ok Sample.two_comments_df)
    as Hdf by (vm_compute; reflexivity).
  destruct (reloaded_comments_have_text int_literal Sample.compound _
              Sample.two_comments_df _ Hdf eq_refl eq_refl)
    as (lengths & scores & Hstat & Hrows).
  destruct (Hrows 0 "check http://example.com" eq_refl) as (_ & _ & Hlen & Hscore).
  split_and!; [exact Hdf | reflexivity | reflexivity |].
  by exists lengths, scores.
Defined.

(* ================================================================= *)
(** ** The range of the link percentages *)

Lemma percentage_exact_range (count total : Z) :
  (0 ≤ count ≤ total)%Z → (0 < total)%Z →
  (0 <= percentage (N:=Q) count total)%Q ∧ (percentage (N:=Q) count total <= 100)%Q.
Proof.
  intros Hc Ht. unfold percentage. simpl.
  assert (0 < inject_Z total)%Q as Hpos
    by (change 0%Q with (inject_Z 0); rewrite <- Zlt_Qlt; lia).
  assert (0 <= inject_Z count / inject_Z total)%Q as H0.
  { apply Qle_shift_div_l; [done|]. rewrite Qmult_0_l.
    change 0%Q with (inject_Z 0). rewrite <- Zle_Qle. lia. }
  assert (inject_Z count / inject_Z total <= 1)%Q as H1.
  { apply Qle_shift_div_r; [done|]. rewrite Qmult_1_l. rewrite <- Zle_Qle. lia. }
  split.
  - apply Qmult_le_0_compat; [done|]. by change (0 <= 100)%Q.
  - apply Qle_trans with (1 * inject_Z 100)%Q; [|done].
    apply Qmult_le_compat_r; [done|]. by change (0 <= 100)%Q.
Qed.

Lemma sum_true_all (l : list bool) :
  sum_true l = Z.of_nat (length l) ↔ Forall (λ b, b = true) l.
Proof.
  unfold sum_true. induction l as [|b l IH].
  - split; [constructor | done].
  - pose proof (length_filter (λ b, b = true) l) as Hle.
    rewrite filter_cons. destruct b.
    + rewrite decide_True by done. cbn [length]. rewrite Forall_cons_iff.
      split; [intros Hl; split; [done|]; apply IH; lia
             | intros [_ Hl%IH]; lia].
    + rewrite decide_False by done. cbn [length]. split; [lia|].
      by intros [? _]%Forall_cons_iff.
Qed.

(** X17.  On a well-formed story table with at least one row (every table
    read from a file is well formed) the exact values of both percentages
    lie between 0 and 100; the external-link percentage is 100, and the
    self-post percentage 0, exactly when no [url] is missing. *)
Theorem link_percentages_in_range (stories_df : frame) (url : column) (e s : Q) :
  frame_wf stories_df → 0 < nrows stories_df →
  df_col stories_df "url" = Ok url →
  link_statistics stories_df = Ok (e, s) →
  (0 <= e)%Q ∧ (e <= 100)%Q ∧ (0 <= s)%Q ∧ (s <= 100)%Q ∧
  ((e == 100)%Q ↔ Forall (λ b, b = true) (notna url)) ∧
  ((s == 0)%Q ↔ Forall (λ b, b = true) (notna url)).
Proof.
  intros Hwf Hn Hurl. pose proof (external_links_bounds _ _ Hwf Hurl) as Hb.
  unfold link_statistics. rewrite Hurl. simpl. intros [= <- <-].
  assert (column_length url = nrows stories_df) as Hlen.
  { unfold df_col in Hurl.
    destruct (lookup_column "url" (columns stories_df)) as [c|] eqn:Hc; [|done].
    injection Hurl as ->. apply lookup_column_elem in Hc as [n Hc].
    exact (proj1 (Forall_forall _ _) Hwf _ Hc). }
  set (k := sum_true (notna url)) in *. set (n := Z.of_nat (nrows stories_df)) in *.
  assert (0 < n)%Z as Hpos by (subst n; lia).
  destruct (percentage_exact_range k n) as [He0 He1]; [lia | lia |].
  destruct (percentage_exact_range (n - k) n) as [Hs0 Hs1]; [lia | lia |].
  assert (¬ (inject_Z n == 0)%Q) as Hne
    by (change 0%Q with (inject_Z 0); rewrite inject_Z_injective; lia).
  assert (k = n ↔ Forall (λ b, b = true) (notna url)) as Hall.
  { subst k n. rewrite <- Hlen, <- notna_length. apply sum_true_all. }
  split_and!; try done.
  - rewrite <- Hall. unfold percentage. simpl. split.
    + intros Heq. apply inject_Z_injective.
      assert (inject_Z k == inject_Z k / inject_Z n * inject_Z n)%Q as ->
        by (field; exact Hne).
      apply (Qmult_inj_r _ _ (inject_Z 100)); [done|].
      rewrite <- Qmult_assoc, (Qmult_comm (inject_Z n)), Qmult_assoc, Heq.
      change (inject_Z 100) with 100%Q. ring.
    + intros ->. change (inject_Z 100) with 100%Q. field. exact Hne.
  - rewrite <- Hall. unfold percentage. simpl. split.
    + intros Heq.
      assert (inject_Z (n - k) == 0)%Q as Hz.
      { assert (inject_Z (n - k)
                == inject_Z (n - k) / inject_Z n * inject_Z 100
                   * (inject_Z n / 100))%Q as ->
          by (change (inject_Z 100) with 100%Q; field; exact Hne).
        rewrite Heq. ring. }
      change 0%Q with (inject_Z 0) in Hz. rewrite inject_Z_injective in Hz. lia.
    + intros ->. rewrite Z.sub_diag. change (inject_Z 0) with 0%Q.
      change (inject_Z 100) with 100%Q. field. exact Hne.
Qed.

Lemma link_percentages_in_range_witness :
  frame_wf Sample.two_stories_df ∧ 0 < nrows Sample.two_stories_df ∧
  link_statistics (N:=Q) Sample.two_stories_df = Ok ((100 # 2)%Q, (100 # 2)%Q) ∧
  (0 <= 100 # 2)%Q ∧ (100 # 2 <= 100)%Q.
Proof.
  split; [apply Sample_two_stories_df_wf|]. split; [simpl; lia|].
  split; [reflexivity|].
  destruct (link_percentages_in_range Sample.two_stories_df _ (100 # 2) (100 # 2)
              Sample_two_stories_df_wf ltac:(simpl; lia) eq_refl eq_refl)
    as (H0 & H1 & _).
  by split.
Defined.

(* ================================================================= *)
(** ** The stages of a run and the files *)

Section Run.
Variable hn : api.
Variable container_repr : value → string.
Variable to_numeric : string → option Z.
Variable analysis : frame → frame → io unit.

Local Abbreviation run :=
  (Data_collection_and_analysis_from_Hacker_News hn container_repr to_numeric analysis).
Local Abbreviation top_stories_ids :=
  (response ← requests_get (topstories hn); v ← response_json response; sliceable v).
Local Abbreviation save_stories articles :=
  (Saving_data_in_a_csv_file container_repr articles "" "top_stories").
Local Abbreviation save_comments comments :=
  (Saving_comments_data_in_a_csv_file container_repr comments).

Lemma run_unfold (n : Z) (fs : files) :
  run n fs =
  match top_stories_ids with
  | Raise e => (Raise e, fs)
  | Ok ids =>
      match Retrieving_data_about_articles hn ids n with
      | Raise e => (Raise e, fs)
      | Ok articles =>
          let fs1 := save_stories articles fs in
          match Fetching_responses_to_top_stories hn articles with
          | Raise e => (Raise e, fs1)
          | Ok comments =>
              let fs2 := match comments with
                         | [] => fs1
                         | _ => save_comments comments fs1
                         end in
              match read_csv to_numeric fs2 "top_stories.csv" with
              | Raise e => (Raise e, fs2)
              | Ok stories_df =>
                  match read_csv to_numeric fs2 "comments.csv" with
                  | Raise e => (Raise e, fs2)
                  | Ok comments_df => analysis stories_df comments_df fs2
                  end
              end
          end
      end
  end.
Proof.
  unfold Data_collection_and_analysis_from_Hacker_News, pd_read_csv, lift, modify.
  unfold mbind at 1 2 3 4 5 6 7, io_bind.
  destruct top_stories_ids as [ids|e]; [|done].
  destruct (Retrieving_data_about_articles hn ids n) as [articles|e]; [|done].
  destruct (Fetching_responses_to_top_stories hn articles) as [[|c comments]|e];
    [| |done]; cbv zeta; unfold mret, io_ret;
    by repeat match goal with |- context [read_csv ?a ?b ?c] =>
                destruct (read_csv a b c) end.
Qed.

Lemma reload_written (fieldnames : list string) (rows : list (list value))
    (name : string) (fs : files) :
  fieldnames ≠ [] → Forall (λ r, length r = length fieldnames) rows →
  ∃ df, parse_csv to_numeric (write_rows container_repr fieldnames rows) = Ok df ∧
        read_csv to_numeric
          (<[name := write_rows container_repr fieldnames rows]> fs) name = Ok df ∧
        nrows df = length rows.
Proof.
  intros Hne Hrows. eexists. split; [by apply parse_csv_write_rows|].
  unfold read_csv. rewrite lookup_insert_eq, parse_csv_write_rows by done. done.
Qed.

(** X18.  A run that fails while it collects leaves the files as they
    were when the list of top stories or a story could not be fetched; when
    the comment builder fails, the story file of this run is already
    written and the comment file is still the one of before.  In none of
    these runs is a file read back or the analysis started. *)
Theorem failed_run_and_the_files (n : Z) (fs : files) (e : exn) :
  (top_stories_ids = Raise e → run n fs = (Raise e, fs)) ∧
  (∀ ids, top_stories_ids = Ok ids →
          Retrieving_data_about_articles hn ids n = Raise e →
          run n fs = (Raise e, fs)) ∧
  (∀ ids articles,
     top_stories_ids = Ok ids →
     Retrieving_data_about_articles hn ids n = Ok articles →
     Fetching_responses_to_top_stories hn articles = Raise e →
     run n fs = (Raise e, save_stories articles fs) ∧
     save_stories articles fs !! "top_stories.csv"
     = Some (write_rows container_repr story_fieldnames (map story_values articles)) ∧
     save_stories articles fs !! "comments.csv" = fs !! "comments.csv").
Proof.
  split_and!.
  - intros Htop. by rewrite run_unfold, Htop.
  - intros ids Htop Hstories. by rewrite run_unfold, Htop, Hstories.
  - intros ids articles Htop Hstories Hcomments.
    rewrite run_unfold, Htop, Hstories. cbv zeta. rewrite Hcomments.
    split_and!; [done | |]; unfold Saving_data_in_a_csv_file;
      change ("" +:+ "top_stories" +:+ ".csv") with "top_stories.csv".
    + by rewrite lookup_insert_eq.
    + by rewrite lookup_insert_ne.
Qed.

(** X19.  A run that collected at least one comment writes both files and
    reads both back without failure: the analysis is started on a story
    frame with one row per collected story and a comment frame with one row
    per collected comment.  The two frames are those of the tables of this
    run, whatever the files held before, and no other file is touched
    before the analysis. *)
Theorem run_analyses_collected_tables (n : Z) (fs : files)
    (ids : list value) (articles : list story) (comments : list comment) :
  top_stories_ids = Ok ids →
  Retrieving_data_about_articles hn ids n = Ok articles →
  Fetching_responses_to_top_stories hn articles = Ok comments →
  comments ≠ [] →
  ∃ stories_df comments_df,
    run n fs = analysis stories_df comments_df
                 (save_comments comments (save_stories articles fs)) ∧
    parse_csv to_numeric
      (write_rows container_repr story_fieldnames (map story_values articles))
    = Ok stories_df ∧
    parse_csv to_numeric
      (write_rows container_repr comment_fieldnames (map comment_values comments))
    = Ok comments_df ∧
    nrows stories_df = length articles ∧
    nrows comments_df = length comments ∧
    df_empty comments_df = false ∧
    ∀ name, name ≠ "top_stories.csv" → name ≠ "comments.csv" →
            save_comments comments (save_stories articles fs) !! name = fs !! name.
Proof.
  intros Htop Hstories Hcomments Hne.
  destruct (reload_written story_fieldnames (map story_values articles)
              "top_stories.csv" fs) as (sdf & Hsp & Hsr & Hsn); [done | |].
  { apply Forall_forall. by intros r (st & -> & _)%list_elem_of_fmap. }
  destruct (reload_written comment_fieldnames (map comment_values comments)
              "comments.csv" (save_stories articles fs))
    as (cdf & Hcp & Hcr & Hcn); [done | |].
  { apply Forall_forall. by intros r (cm & -> & _)%list_elem_of_fmap. }
  rewrite length_map in Hsn, Hcn.
  exists sdf, cdf. split_and!; [| done | done | done | done | |].
  - rewrite run_unfold, Htop, Hstories. cbv zeta. rewrite Hcomments.
    destruct comments as [|c comments]; [done|].
    unfold Saving_comments_data_in_a_csv_file at 1.
    unfold read_csv at 1. rewrite lookup_insert_ne by done.
    unfold Saving_data_in_a_csv_file at 1.
    change ("" +:+ "top_stories" +:+ ".csv") with "top_stories.csv".
    rewrite lookup_insert_eq, Hsp.
    fold (Saving_data_in_a_csv_file container_repr articles "" "top_stories" fs).
    unfold Saving_comments_data_in_a_csv_file at 1. by rewrite Hcr.
  - unfold df_empty. rewrite Hcn.
    apply parse_csv_wf in Hcp as (_ & _ & Hcols).
    destruct comments; [done|]. simpl.
    by destruct (columns cdf).
  - intros name Hn1 Hn2.
    unfold Saving_comments_data_in_a_csv_file, Saving_data_in_a_csv_file.
    change ("" +:+ "top_stories" +:+ ".csv") with "top_stories.csv".
    by rewrite !lookup_insert_ne.
Qed.
End Run.

Lemma failed_run_and_the_files_witness :
  (Data_collection_and_analysis_from_Hacker_News
     Cases.hn_no_top Sample.repr int_literal Sample.analysis 20 Sample.two_comments
   = (Raise RequestException, Sample.two_comments)) ∧
  (Data_collection_and_analysis_from_Hacker_News
     Sample.hn_down Sample.repr int_literal Sample.analysis 20 Sample.two_comments
   = (Raise RequestException, Sample.two_comments)) ∧
  Retrieving_data_about_articles Cases.hn_comment_down Sample.ids 20
  = Ok Sample.stories ∧
  Fetching_responses_to_top_stories Cases.hn_comment_down Sample.stories
  = Raise RequestException ∧
  (Data_collection_and_analysis_from_Hacker_News
     Cases.hn_comment_down Sample.repr int_literal Sample.analysis 20 ∅
   = (Raise RequestException,
      Saving_data_in_a_csv_file Sample.repr Sample.stories "" "top_stories" ∅)).
Proof.
  split_and!; [| | reflexivity | reflexivity |].
  - by apply (failed_run_and_the_files Cases.hn_no_top).
  - by apply (failed_run_and_the_files Sample.hn_down Sample.repr int_literal
                Sample.analysis 20 Sample.two_comments RequestException)
      with (ids := Sample.ids).
  - by apply (failed_run_and_the_files Cases.hn_comment_down Sample.repr int_literal
                Sample.analysis 20 ∅ RequestException)
      with (ids := Sample.ids).
Defined.

Lemma run_analyses_collected_tables_witness :
  Fetching_responses_to_top_stories Sample.hn Sample.stories = Ok Sample.comments ∧
  Sample.comments ≠ [] ∧
  ∃ stories_df comments_df,
    Data_collection_and_analysis_from_Hacker_News
      Sample.hn Sample.repr int_literal Sample.analysis 20 ∅
    = Sample.analysis stories_df comments_df
        (Saving_comments_data_in_a_csv_file Sample.repr Sample.comments
           (Saving_data_in_a_csv_file Sample.repr Sample.stories "" "top_stories" ∅)) ∧
    nrows stories_df = 2 ∧ nrows comments_df = 2.
Proof.
  split; [reflexivity|]. split; [done|].
  destruct (run_analyses_collected_tables Sample.hn Sample.repr int_literal
              Sample.analysis 20 ∅ Sample.ids Sample.stories Sample.comments)
    as (sdf & cdf & Hrun & _ & _ & Hs & Hc & _); [reflexivity.. | done |].
  by exists sdf, cdf.
Defined.

(* ================================================================= *)
(** ** The worker threads *)

Section Workers.
Context {A B : Type}.
Variable fn : A → result B.
Variable args : list A.
Variable W : nat.

Local Abbreviation pool_step := (ThreadPool.step fn args W).
Local Abbreviation pool_run := (ThreadPool.run fn args W).
Local Abbreviation pool_submit := (ThreadPool.submit (B:=B) args).

Lemma step_waiting_once (s s' : ThreadPool.pool) :
  length (ThreadPool.running s) ≤ W ∧
  NoDup (ThreadPool.queue s ++ ThreadPool.running s) ∧
  (∀ i, i ∈ ThreadPool.queue s ++ ThreadPool.running s →
        ThreadPool.futures s !! i = Some None) →
  pool_step s s' →
  length (ThreadPool.running s') ≤ W ∧
  NoDup (ThreadPool.queue s' ++ ThreadPool.running s') ∧
  (∀ i, i ∈ ThreadPool.queue s' ++ ThreadPool.running s' →
        ThreadPool.futures s' !! i = Some None).
Proof.
  intros (HW & Hnd & Hnone) Hstep.
  destruct Hstep as [i q r fs c x Hfree | i a q r fs c x Hi Ha | b q r fs c Hb
                    | e q r fs c He];
    cbn [ThreadPool.running ThreadPool.queue ThreadPool.futures] in *.
  - split_and!; [simpl; lia | |].
    + apply NoDup_app in Hnd as (Hq & Hqr & Hr).
      apply NoDup_cons in Hq as [Hiq Hq].
      apply NoDup_app. split_and!; [done | |].
      * intros j Hj [->|Hjr]%elem_of_cons; [done|].
        apply (Hqr j); [by right | done].
      * apply NoDup_cons. split; [|done]. apply Hqr. by left.
    + intros j Hj. apply Hnone.
      apply elem_of_app in Hj as [Hj|[->|Hj]%elem_of_cons].
      * apply elem_of_app. left. by right.
      * apply elem_of_app. left. by left.
      * apply elem_of_app. by right.
  - split_and!.
    + pose proof (length_filter (λ j, j ≠ i) r). lia.
    + apply NoDup_app in Hnd as (Hq & Hqr & Hr).
      apply NoDup_app. split_and!; [done | | by apply NoDup_filter].
      intros j Hj [_ Hjr]%list_elem_of_filter. by apply (Hqr j).
    + intros j Hj.
      assert (j ≠ i ∧ j ∈ q ++ r) as [Hne Hin].
      { apply elem_of_app in Hj as [Hj|[Hne Hj]%list_elem_of_filter].
        - split; [|apply elem_of_app; by left]. intros ->.
          apply NoDup_app in Hnd as (_ & Hqr & _). by apply (Hqr i).
        - split; [done|]. apply elem_of_app. by right. }
      rewrite list_lookup_insert_ne by done. by apply Hnone.
  - done.
  - split_and!; [done | |].
    + by apply NoDup_app in Hnd as (_ & _ & Hr).
    + intros j Hj. apply Hnone, elem_of_app. by right.
Qed.

Lemma run_waiting_once (s : ThreadPool.pool) :
  pool_run pool_submit s →
  length (ThreadPool.running s) ≤ W ∧
  NoDup (ThreadPool.queue s ++ ThreadPool.running s) ∧
  (∀ i, i ∈ ThreadPool.queue s ++ ThreadPool.running s →
        ThreadPool.futures s !! i = Some None).
Proof.
  intros Hrun.
  assert (∀ s0 s1 : ThreadPool.pool,
            pool_run s0 s1 →
            length (ThreadPool.running s0) ≤ W ∧
            NoDup (ThreadPool.queue s0 ++ ThreadPool.running s0) ∧
            (∀ i, i ∈ ThreadPool.queue s0 ++ ThreadPool.running s0 →
                  ThreadPool.futures s0 !! i = Some None) →
            length (ThreadPool.running s1) ≤ W ∧
            NoDup (ThreadPool.queue s1 ++ ThreadPool.running s1) ∧
            (∀ i, i ∈ ThreadPool.queue s1 ++ ThreadPool.running s1 →
                  ThreadPool.futures s1 !! i = Some None)) as Hpres.
  { intros s0 s1 H01. induction H01 as [|s0 s1 s2 Hstep _ IH]; [done|].
    intros H0. apply IH. by eapply step_waiting_once. }
  apply (Hpres _ _ Hrun). simpl. split_and!; [lia | |].
  - rewrite app_nil_r. apply NoDup_seq.
  - intros i. rewrite app_nil_r. intros Hi%elem_of_seq.
    apply lookup_replicate_2. lia.
Qed.

(** X20.  At every point of one [executor.map] call, at most
    [max_workers] calls are running, no call waits or runs twice, and a
    call that waits or runs has no result yet: once a call has stored its
    result it is not made again, and its result is not replaced by a later
    step. *)
Theorem pool_calls_once_within_workers (s : ThreadPool.pool) :
  pool_run pool_submit s →
  length (ThreadPool.running s) ≤ W ∧
  NoDup (ThreadPool.queue s ++ ThreadPool.running s) ∧
  (∀ i r, ThreadPool.futures s !! i = Some (Some r) →
          (i ∉ ThreadPool.queue s ++ ThreadPool.running s) ∧
          ∀ s', pool_step s s' → ThreadPool.futures s' !! i = Some (Some r)).
Proof.
  intros Hrun. destruct (run_waiting_once s Hrun) as (HW & Hnd & Hnone).
  split_and!; [done..|]. intros i r Hi.
  assert (i ∉ ThreadPool.queue s ++ ThreadPool.running s) as Hout.
  { intros Hin. apply Hnone in Hin. congruence. }
  split; [done|]. intros s' Hstep.
  destruct Hstep as [j q r' fs c x Hfree | j a q r' fs c x Hj Ha | b q r' fs c Hb
                    | e q r' fs c He];
    cbn [ThreadPool.running ThreadPool.queue ThreadPool.futures] in *; try done.
  rewrite list_lookup_insert_ne; [done|]. intros ->.
  apply Hout, elem_of_app. by right.
Qed.
End Workers.

Lemma pool_calls_once_within_workers_witness :
  ThreadPool.run (fetch_story_details Sample.hn) Sample.ids 10
    (ThreadPool.submit Sample.ids)
    (ThreadPool.Pool [1; 2] [] [Some (fetch_story_details Sample.hn (VInt 1)); None; None]
       [] None) ∧
  length (ThreadPool.running
            (ThreadPool.Pool [1; 2] []
               [Some (fetch_story_details Sample.hn (VInt 1)); None; None] [] None))
  ≤ 10.
Proof.
  assert (ThreadPool.run (fetch_story_details Sample.hn) Sample.ids 10
            (ThreadPool.submit Sample.ids)
            (ThreadPool.Pool [1; 2] []
               [Some (fetch_story_details Sample.hn (VInt 1)); None; None] [] None))
    as Hrun.
  { eapply rtc_l; [apply ThreadPool.step_start; simpl; lia|].
    eapply rtc_l; [|apply rtc_refl].
    apply (ThreadPool.step_finish (fetch_story_details Sample.hn) Sample.ids 10
             0 (VInt 1) [1; 2] [0] [None; None; None] [] None).
    - by left.
    - reflexivity. }
  split; [exact Hrun|].
  by destruct (pool_calls_once_within_workers _ _ _ _ Hrun) as [HW _].
Defined.

(* ================================================================= *)
(** ** The metrics file *)

Section MetricsFile.
Context {V : Type}.
Variable str_value : V → string.
Variable to_numeric : string → option Z.

Lemma stat_rows_shape (key : string) (s : stat V) :
  length (stat_rows str_value key s) = stat_size s ∧
  Forall (λ r, length r = 2) (stat_rows str_value key s).
Proof.
  destruct s as [v|d]; simpl.
  - split; [done|]. by repeat constructor.
  - split; [by rewrite length_map|]. apply Forall_forall.
    by intros r (kv & -> & _)%list_elem_of_fmap.
Qed.

Lemma statistics_records_shape (stats_results : list (string * stat V)) :
  length (records (statistics_file str_value stats_results))
  = list_sum (map (λ e, stat_size e.2) stats_results) ∧
  Forall (λ r, length r = 2) (records (statistics_file str_value stats_results)).
Proof.
  unfold statistics_file. cbn [records].
  induction stats_results as [|[key s] stats [IHlen IHall]]; [by split|].
  destruct (stat_rows_shape key s) as [Hlen Hall]. cbn [map concat list_sum fst snd].
  split.
  - rewrite length_app, Hlen, IHlen. reflexivity.
  - apply Forall_app. by split.
Qed.

(** X21.  The metrics file has the header [Metric], [Value] and then one
    row for every number of the statistics and one row for every key of
    every dict among them, in the order of the statistics; every row has
    two fields.  A dict without keys leaves no row, so the file does not
    tell it from a statistic that was not computed.  The file can be read
    back: its frame has that many rows and the two columns. *)
Theorem statistics_file_rows (stats_results : list (string * stat V)) :
  let f := statistics_file str_value stats_results in
  header f = ["Metric"; "Value"] ∧
  length (records f) = list_sum (map (λ e, stat_size e.2) stats_results) ∧
  Forall (λ r, length r = 2) (records f) ∧
  (∀ before after key,
     stats_results = before ++ (key, Nested []) :: after →
     f = statistics_file str_value (before ++ after)) ∧
  (∀ before after,
     stats_results = before ++ after →
     records f = records (statistics_file str_value before)
                 ++ records (statistics_file str_value after)) ∧
  ∃ df, (∀ fs, read_csv to_numeric (save_statistics str_value stats_results fs)
                 "statistical_analysis.csv" = Ok df) ∧
        nrows df = list_sum (map (λ e, stat_size e.2) stats_results) ∧
        map fst (columns df) = ["Metric"; "Value"] ∧
        frame_wf df.
Proof.
  intros f. destruct (statistics_records_shape stats_results) as [Hlen Hall].
  split_and!; [done | done | done | | |].
  - intros before after key ->. unfold f, statistics_file. f_equal.
    by rewrite !map_app, !concat_app.
  - intros before after ->. unfold f, statistics_file. cbn [records].
    by rewrite map_app, concat_app.
  - destruct (parse_csv to_numeric f) as [df|e] eqn:Hdf.
    + exists df. split.
      { intros fs. unfold read_csv, save_statistics. by rewrite lookup_insert_eq. }
      apply parse_csv_wf in Hdf as (Hwf & Hrows & Hcols).
      split_and!; [| done..]. by rewrite Hrows.
    + exfalso. unfold parse_csv in Hdf. change (header f) with ["Metric"; "Value"] in Hdf.
      destruct (existsb _ _) eqn:Hlong; [|done].
      apply existsb_exists in Hlong as (r & Hr%list_elem_of_In & Hlt).
      apply (proj1 (Forall_forall _ _) Hall) in Hr. rewrite Hr in Hlt. done.
Qed.
End MetricsFile.

Example statistics_file_sample :
  statistics_file str_of_Z Cases.statistics
  = Csv ["Metric"; "Value"]
        [["average_score"; "20"];
         ["posting_time_distribution - 21"; "1"];
         ["posting_time_distribution - 22"; "2"]].
Proof. reflexivity. Qed.

(* ================================================================= *)
(** ** The comments of one story *)

Lemma traverse_filter_length {A B} (f : A → result B) (p : A → bool)
    (l : list A) (out : list B) :
  traverse f (List.filter p l) = Ok out → length out ≤ length l.
Proof.
  intros Hout%traverse_length. rewrite Hout. clear Hout.
  induction l as [|a l IH]; simpl; [done|]. destruct (p a); simpl; lia.
Qed.

(** X22.  What one story adds to the comment table, from the details that
    the second fetch of the story gets.  Details that are [null] or empty,
    or without [kids], add nothing.  Otherwise every identifier of [kids]
    is fetched, and the comments are the records of the answers that are
    not [null] or empty, in the order of [kids]: at most one comment per
    identifier.  A [kids] that cannot be iterated and a failed fetch of a
    comment make the builder fail. *)
Theorem comments_of_one_story (hn : api) (st : story) (v : value) :
  fetch_story_details hn (s_id st) = Ok v →
  (truthy v = false → Fetching_responses_to_top_stories hn [st] = Ok []) ∧
  (∀ d, v = VDict d → dict_lookup "kids" d = None →
        Fetching_responses_to_top_stories hn [st] = Ok []) ∧
  (∀ d kids, v = VDict d → dict_lookup "kids" d = Some kids →
     Fetching_responses_to_top_stories hn [st] =
     (ids ← py_iter kids;
      comment_details_list ← executor_map (fetch_comment_details hn) ids;
      traverse (comment_record (s_id st)) (List.filter truthy comment_details_list)) ∧
     ∀ ids out, py_iter kids = Ok ids →
                Fetching_responses_to_top_stories hn [st] = Ok out →
                length out ≤ length ids).
Proof.
  intros Hfetch. apply fetch_story_details_Ok in Hfetch.
  unfold Fetching_responses_to_top_stories, fetch_all_comments, story_comments.
  rewrite Hfetch. cbn [requests_get response_json mbind result_bind].
  split_and!.
  - by intros ->.
  - intros d -> Hnone. destruct d as [|kv d]; [done|]. cbn [truthy py_contains].
    rewrite Hnone. by rewrite bool_decide_false by (by intros [? ?]).
  - intros d kids -> Hkids.
    assert (truthy (VDict d) = true) as -> by (by destruct d).
    cbn [py_contains py_getitem]. rewrite Hkids.
    rewrite bool_decide_true by (by eexists).
    cbn [mbind result_bind].
    assert ((ids ← py_iter kids;
             comment_details_list ← executor_map (fetch_comment_details hn) ids;
             append_comments (s_id st) comment_details_list []) ≫= (λ c, Ok c)
            = (ids ← py_iter kids;
               comment_details_list ← executor_map (fetch_comment_details hn) ids;
               traverse (comment_record (s_id st))
                 (List.filter truthy comment_details_list))) as Heq.
    { destruct (py_iter kids) as [ids|]; simpl; [|done].
      destruct (executor_map (fetch_comment_details hn) ids) as [cds|]; simpl; [|done].
      rewrite append_comments_spec.
      by destruct (traverse (comment_record (s_id st)) (List.filter truthy cds)). }
    split; [exact Heq|].
    intros ids out Hids. rewrite Heq, Hids. cbn [mbind result_bind].
    destruct (executor_map (fetch_comment_details hn) ids) as [cds|] eqn:Hcds;
      cbn [mbind result_bind]; [|done].
    intros Hout%traverse_filter_length.
    apply traverse_length in Hcds. lia.
Qed.

Lemma comments_of_one_story_witness :
  fetch_story_details Sample.hn (s_id Sample.record1) = Ok Sample.story1 ∧
  Fetching_responses_to_top_stories Sample.hn [Sample.record1] = Ok Sample.comments ∧
  length Sample.comments ≤ 2.
Proof.
  destruct (comments_of_one_story Sample.hn Sample.record1 Sample.story1 eq_refl)
    as (_ & _ & Hkids).
  destruct (Hkids _ (VList [VInt 11; VInt 12]) eq_refl eq_refl) as [_ Hlen].
  split_and!; [reflexivity | reflexivity |].
  by apply (Hlen [VInt 11; VInt 12] Sample.comments).
Defined.
